(** * Hit Dice Healing: a shallow embedding of the hit-dice manager, the
    rest manager and the modal, and the properties of the specification and
    of the code proved on it.

    The module is JavaScript running inside a host game runtime.  The
    embedding keeps the code's shape:
    - a character ([Actor]) is the host document the code reads and writes;
      every optional path ([a?.b ?? d]) is an [option] field;
    - JavaScript numbers are modelled as [Z] (the quantities of the module are
      integer counters);
    - [async] methods run in a state-and-trace monad [M]: the state is the
      actor document, the trace lists the calls made to the host (store
      writes, notifications, chat messages, dice rolls), in order;
    - a [TypeError] raised by reading a field of [undefined] is an explicit
      [Thrown] outcome. *)

From stdpp Require Import gmap strings list fin_maps sorting.
From Stdlib Require Import Ascii ZArith DecimalString.

Local Open Scope string_scope.
Local Open Scope Z_scope.
Local Open Scope list_scope.

(** ** Data model: the host documents *)

(** A [{value, max}] pool ([system.resources.focus],
    [system.resources.crafting.infusedReagents]). *)
Record Resource := mkResource { res_value : Z; res_max : Z }.

(** [item.system.frequency]: [per] is the reset period. *)
Record Frequency := mkFrequency {
  freq_value : Z;
  freq_max : Z;
  freq_per : option string
}.

(** One level of a spellcasting entry, [entry.system.slots.slotN]. *)
Record SlotData := mkSlot { slot_value : Z; slot_max : Z }.

(** An embedded item document.  [slots] is [entry.system.slots], present on
    spellcasting entries and keyed by ["slot1"] ... ["slot10"]. *)
Record Item := mkItem {
  item_id : string;
  item_name : string;
  item_type : string;
  consumableType : option string;
  frequency : option Frequency;
  temporary : bool;
  slots : option (gmap string SlotData)
}.

(** The character document. *)
Record Actor := mkActor {
  actor_name : string;
  level : option Z;                      (* system?.details?.level?.value *)
  class_name : option string;            (* actor.class?.name *)
  details_class_name : option string;    (* system?.details?.class?.name *)
  con_mod : option Z;                    (* system?.abilities?.con?.mod *)
  hp_value : Z;                          (* system.attributes.hp.value *)
  hp_max : Z;                            (* system.attributes.hp.max *)
  focus : option Resource;               (* system.resources?.focus *)
  infusedReagents : option Resource;     (* ...?.crafting?.infusedReagents *)
  hd_current : option Z;                 (* flags['hit-dice-healing'].current *)
  dailyCraftingComplete : bool;          (* flags?.pf2e?.dailyCraftingComplete *)
  conditions : gmap string (option Z);   (* slug -> severity (null if none) *)
  items : list Item;                     (* actor.items, in collection order *)
  sheet_rendered : bool                  (* actor.sheet?.rendered *)
}.

(** Field setters (a store write replaces one field of the document). *)
Definition set_hp_value (v : Z) (a : Actor) : Actor :=
  mkActor (actor_name a) (level a) (class_name a) (details_class_name a)
    (con_mod a) v (hp_max a) (focus a) (infusedReagents a) (hd_current a)
    (dailyCraftingComplete a) (conditions a) (items a) (sheet_rendered a).

Definition set_focus (f : option Resource) (a : Actor) : Actor :=
  mkActor (actor_name a) (level a) (class_name a) (details_class_name a)
    (con_mod a) (hp_value a) (hp_max a) f (infusedReagents a) (hd_current a)
    (dailyCraftingComplete a) (conditions a) (items a) (sheet_rendered a).

Definition set_infusedReagents (r : option Resource) (a : Actor) : Actor :=
  mkActor (actor_name a) (level a) (class_name a) (details_class_name a)
    (con_mod a) (hp_value a) (hp_max a) (focus a) r (hd_current a)
    (dailyCraftingComplete a) (conditions a) (items a) (sheet_rendered a).

Definition set_hd_current (v : option Z) (a : Actor) : Actor :=
  mkActor (actor_name a) (level a) (class_name a) (details_class_name a)
    (con_mod a) (hp_value a) (hp_max a) (focus a) (infusedReagents a) v
    (dailyCraftingComplete a) (conditions a) (items a) (sheet_rendered a).

Definition set_dailyCraftingComplete (b : bool) (a : Actor) : Actor :=
  mkActor (actor_name a) (level a) (class_name a) (details_class_name a)
    (con_mod a) (hp_value a) (hp_max a) (focus a) (infusedReagents a)
    (hd_current a) b (conditions a) (items a) (sheet_rendered a).

Definition set_conditions (c : gmap string (option Z)) (a : Actor) : Actor :=
  mkActor (actor_name a) (level a) (class_name a) (details_class_name a)
    (con_mod a) (hp_value a) (hp_max a) (focus a) (infusedReagents a)
    (hd_current a) (dailyCraftingComplete a) c (items a) (sheet_rendered a).

Definition set_items (l : list Item) (a : Actor) : Actor :=
  mkActor (actor_name a) (level a) (class_name a) (details_class_name a)
    (con_mod a) (hp_value a) (hp_max a) (focus a) (infusedReagents a)
    (hd_current a) (dailyCraftingComplete a) (conditions a) l (sheet_rendered a).

Definition set_frequency (f : option Frequency) (i : Item) : Item :=
  mkItem (item_id i) (item_name i) (item_type i) (consumableType i) f
    (temporary i) (slots i).

Definition set_slots (s : option (gmap string SlotData)) (i : Item) : Item :=
  mkItem (item_id i) (item_name i) (item_type i) (consumableType i)
    (frequency i) (temporary i) s.

(** [actor.items.get(id)]. *)
Fixpoint items_get (id : string) (l : list Item) : option Item :=
  match l with
  | [] => None
  | i :: l' => if String.eqb (item_id i) id then Some i else items_get id l'
  end.

(** In-place change of the item [actor.items.get(id)]. *)
Fixpoint items_alter (f : Item -> Item) (id : string) (l : list Item) : list Item :=
  match l with
  | [] => []
  | i :: l' =>
      if String.eqb (item_id i) id then f i :: l' else i :: items_alter f id l'
  end.

(** ** Messages, notices and host calls *)

(** Lines of a rest summary: the localisation keys of [HIT_DICE_HEALING],
    with their format arguments. *)
Inductive Msg :=
| HitDiceRestored (count : Z)
| HitDiceAlreadyFull
| FocusRestored
| FocusAlreadyFull
| ConditionRemoved (condition : string)
| ConditionReduced (condition : string)
| WoundsNotHealed
| InfusedReagentsRestored
| TemporaryItemsExpired
| DailyResourcesReset
| HPUnchanged
| SpellSlotsUnchanged.

(** Texts handed to [ui.notifications].  In the vocabulary of the
    specification, [NotEnoughDiceNamed] and [NotEnoughDiceForSlot] are
    InsufficientDice, [MinimumOneDie] is BelowMinimumDiceCount,
    [SlotAlreadyFull] is SlotFull and [SpellcastingEntryNotFound] is
    EntryNotFound. *)
Inductive Notice :=
| NotEnoughDiceNamed (name : string)
| MinimumOneDie
| NotEnoughDiceForSlot (cost current : Z)
| SpellcastingEntryNotFound
| SlotAlreadyFull
| HitDiceRestoredFor (name : string) (count : Z).

(** Template data of the roll chat card ([chat-roll.hbs]). *)
Record RollCard := mkRollCard {
  card_diceSpent : Z;
  card_dieType : Z;
  card_formula : string;
  card_rollTotal : Z;
  card_healing : Z;
  card_remaining : Z;
  card_maxDice : Z;
  card_wasLimited : bool
}.

Inductive RestType := LongRest | FullRest.

(** What an [update] call on an item writes. *)
Inductive ItemChange :=
| FrequencyValue (v : Z)                    (* 'system.frequency.value' *)
| SlotValue (slotKey : string) (v : Z).     (* `system.slots.${slotKey}.value` *)

(** The calls made to the host, as they appear in the trace. *)
Inductive Event :=
| EvWarn (n : Notice)                        (* ui.notifications.warn *)
| EvError (n : Notice)                       (* ui.notifications.error *)
| EvInfo (n : Notice)                        (* ui.notifications.info *)
| EvConsoleWarn (className : option string)  (* console.warn diagnostic *)
| EvRoll (formula : string)                  (* new Roll(formula).evaluate() *)
| EvActorUpdate (updates : gmap string Z) (render : bool)   (* actor.update *)
| EvItemUpdate (id : string) (c : ItemChange) (render : bool) (* item.update *)
| EvSetFlag (scope key : string) (v : Z + bool)             (* actor.setFlag *)
| EvDecreaseCondition (slug : string) (forceRemove : bool)
| EvDeleteItems (ids : list string)          (* deleteEmbeddedDocuments *)
| EvRestForTheNight                          (* game.pf2e.actions.restForTheNight *)
| EvChatRoll (card : RollCard)               (* ChatMessage.create, roll card *)
| EvChatRest (t : RestType) (messages : list Msg)  (* ..., rest summary *)
| EvChatSpellslot (entryName : string) (slotLevel cost : Z)
| EvSheetRender.                             (* actor.sheet.render(false) *)

(** ** The monad of the async methods *)

Inductive Exn := TypeError (what : string).

Inductive Outcome (A : Type) :=
| Done (a : A)
| Thrown (e : Exn).
Arguments Done {A} a.
Arguments Thrown {A} e.

Definition M (A : Type) : Type := Actor -> Outcome A * Actor * list Event.

#[global] Instance M_ret : MRet M := fun A x s => (Done x, s, []).

#[global] Instance M_bind : MBind M := fun A B k m s =>
  match m s with
  | (Done a, s1, t1) =>
      match k a s1 with (r, s2, t2) => (r, s2, t1 ++ t2) end
  | (Thrown e, s1, t1) => (Thrown e, s1, t1)
  end.

Definition gets {A} (f : Actor -> A) : M A := fun s => (Done (f s), s, []).
Definition modify (f : Actor -> Actor) : M unit := fun s => (Done tt, f s, []).
Definition emit (e : Event) : M unit := fun s => (Done tt, s, [e]).
Definition throw {A} (e : Exn) : M A := fun s => (Thrown e, s, []).

Definition outcome_of {A} (r : Outcome A * Actor * list Event) : Outcome A := r.1.1.
Definition actor_of {A} (r : Outcome A * Actor * list Event) : Actor := r.1.2.
Definition trace_of {A} (r : Outcome A * Actor * list Event) : list Event := r.2.

(** ** The host runtime

    The calls below belong to the host (the game runtime and its rule
    system), not to the module.  Each is modelled at its interface: the call
    is recorded in the trace and the document changes as the host documents
    it. *)
Module Host.

(** [actor.setFlag('hit-dice-healing', 'current', v)] *)
Definition setFlag_current (v : Z) : M unit :=
  emit (EvSetFlag "hit-dice-healing" "current" (inl v));;
  modify (set_hd_current (Some v)).

(** [actor.setFlag('pf2e', 'dailyCraftingComplete', b)] *)
Definition setFlag_dailyCraftingComplete (b : bool) : M unit :=
  emit (EvSetFlag "pf2e" "dailyCraftingComplete" (inr b));;
  modify (set_dailyCraftingComplete b).

Definition with_value (v : Z) (r : Resource) : Resource :=
  mkResource v (res_max r).

(** The effect of [actor.update(updates)] on the document: each path of the
    map replaces the field it names. *)
Definition apply_updates (u : gmap string Z) (a : Actor) : Actor :=
  let a1 :=
    match u !! "system.attributes.hp.value" with
    | Some v => set_hp_value v a
    | None => a
    end in
  let a2 :=
    match u !! "system.resources.focus.value" with
    | Some v => set_focus (with_value v <$> focus a1) a1
    | None => a1
    end in
  match u !! "system.resources.crafting.infusedReagents.value" with
  | Some v => set_infusedReagents (with_value v <$> infusedReagents a2) a2
  | None => a2
  end.

(** [actor.update(updates, {render})] *)
Definition actor_update (u : gmap string Z) (render : bool) : M unit :=
  emit (EvActorUpdate u render);;
  modify (apply_updates u).

Definition apply_item_change (c : ItemChange) (i : Item) : Item :=
  match c with
  | FrequencyValue v =>
      set_frequency
        ((fun f => mkFrequency v (freq_max f) (freq_per f)) <$> frequency i) i
  | SlotValue k v =>
      set_slots (alter (fun sd => mkSlot v (slot_max sd)) k <$> slots i) i
  end.

(** [item.update({path: v}, {render})] on the item with this id. *)
Definition item_update (id : string) (c : ItemChange) (render : bool) : M unit :=
  emit (EvItemUpdate id c render);;
  modify (fun a => set_items (items_alter (apply_item_change c) id (items a)) a).

(** [actor.hasCondition(slug)] *)
Definition hasCondition (slug : string) (a : Actor) : bool :=
  bool_decide (is_Some (conditions a !! slug)).

(** [actor.getCondition(slug)?.value]: [None] when the condition is absent,
    [Some None] when it is present without a severity. *)
Definition getCondition (slug : string) (a : Actor) : option (option Z) :=
  conditions a !! slug.

(** The host's [decreaseCondition]: with [forceRemove] the condition is
    removed; otherwise its severity drops by one and the condition is removed
    when nothing is left of it. *)
Definition decrease (slug : string) (forceRemove : bool)
    (c : gmap string (option Z)) : gmap string (option Z) :=
  if forceRemove then delete slug c
  else match c !! slug with
       | Some (Some v) =>
           if 1 <=? v - 1 then <[slug := Some (v - 1)]> c else delete slug c
       | Some None => delete slug c
       | None => c
       end.

(** [actor.decreaseCondition(slug, {forceRemove})] *)
Definition decreaseCondition (slug : string) (forceRemove : bool) : M unit :=
  emit (EvDecreaseCondition slug forceRemove);;
  modify (fun a => set_conditions (decrease slug forceRemove (conditions a)) a).

(** [actor.deleteEmbeddedDocuments('Item', ids, {render: false})] *)
Definition deleteEmbeddedDocuments (ids : list string) : M unit :=
  emit (EvDeleteItems ids);;
  modify (fun a =>
    set_items (filter (fun i => item_id i ∉ ids) (items a)) a).

(** [new Roll(formula).evaluate()]: the roll engine decides the total. *)
Record Roll := mkRoll { roll_total : Z; roll_formula : string }.

Definition evaluate (engine : string -> Z) (formula : string) : M Roll :=
  emit (EvRoll formula);;
  mret (mkRoll (engine formula) formula).

End Host.

(** ** [HitDiceManager] *)
Module HitDiceManager.

(** Template literal [`${n}`] of an integer: its decimal digits.  The
    language prints an exponent from 1e21 on; the quantities of the module
    (dice counts, die sizes, modifiers) are far below. *)
Definition show (n : Z) : string := NilZero.string_of_int (Z.to_int n).

Definition lower_ascii (c : ascii) : ascii :=
  let n := nat_of_ascii c in
  if ((65 <=? n) && (n <=? 90))%nat then ascii_of_nat (n + 32) else c.

(** [String.prototype.toLowerCase] on strings of ASCII characters, where
    only A to Z change.  Outside ASCII the language maps further letters
    (the Kelvin sign to k, for one), which this function leaves alone. *)
Fixpoint toLowerCase (s : string) : string :=
  match s with
  | EmptyString => EmptyString
  | String c s' => String (lower_ascii c) (toLowerCase s')
  end.

(** The own keys of the object literal.  In the language a lookup by a
    property name of [Object.prototype] ([constructor], [__proto__], ...) is
    answered by the inherited property, which is not a number; here it
    answers [None].  [plain_class] below names the class names on which the
    two agree. *)
Definition CLASS_DIE_TYPES : gmap string Z :=
  list_to_map [
    ("psychic", 6); ("sorcerer", 6); ("witch", 6); ("wizard", 6);
    ("alchemist", 8); ("animist", 8); ("bard", 8); ("cleric", 8);
    ("commander", 8); ("druid", 8); ("gunslinger", 8); ("investigator", 8);
    ("inventor", 8); ("kineticist", 8); ("oracle", 8); ("rogue", 8);
    ("thaumaturge", 8);
    ("champion", 10); ("exemplar", 10); ("fighter", 10); ("guardian", 10);
    ("magus", 10); ("monk", 10); ("ranger", 10); ("summoner", 10);
    ("swashbuckler", 10);
    ("barbarian", 12)
  ].

Definition getMaxHitDice (actor : Actor) : Z :=
  let level := default 1 (level actor) in
  level + 1.

Definition getCurrentHitDice (actor : Actor) : Z :=
  match hd_current actor with
  | None => getMaxHitDice actor
  | Some stored => stored
  end.

(** [Math.max(0, Math.min(value, max))] *)
Definition clamped (actor : Actor) (value : Z) : Z :=
  Z.max 0 (Z.min value (getMaxHitDice actor)).

Definition setCurrentHitDice (value : Z) : M unit :=
  max ← gets getMaxHitDice;
  let clamped := Z.max 0 (Z.min value max) in
  Host.setFlag_current clamped.

(** The class name the three paths of [getDieType] resolve to. *)
Definition className (actor : Actor) : option string :=
  match class_name actor with
  | Some n => Some (toLowerCase n)
  | None =>
      match details_class_name actor with
      | Some n => Some (toLowerCase n)
      | None =>
          (fun i => toLowerCase (item_name i)) <$>
            find (fun i => String.eqb (item_type i) "class") (items actor)
      end
  end.

Definition getDieType : M Z :=
  cn ← gets className;
  match cn ≫= (fun c => CLASS_DIE_TYPES !! c) with
  | Some d => mret d
  | None => emit (EvConsoleWarn cn);; mret 8
  end.

Definition getConModifier (actor : Actor) : Z := default 0 (con_mod actor).

Record Range := mkRange { min : Z; max : Z }.

Definition calculateRange (diceCount dieType conMod : Z) : Range :=
  let totalConMod := conMod * diceCount in
  let rawMin := diceCount + totalConMod in
  let min := Z.max diceCount rawMin in
  let max := Z.max diceCount ((dieType * diceCount) + totalConMod) in
  mkRange min max.

Definition buildFormula (diceCount dieType conMod : Z) : string :=
  let totalMod := conMod * diceCount in
  if totalMod =? 0 then show diceCount +:+ "d" +:+ show dieType
  else if totalMod >? 0 then
    show diceCount +:+ "d" +:+ show dieType +:+ "+" +:+ show totalMod
  else show diceCount +:+ "d" +:+ show dieType +:+ show totalMod.

Definition sendChatMessage (roll : Host.Roll)
    (totalHealing actualHealing diceSpent remaining : Z) : M unit :=
  max ← gets getMaxHitDice;
  dieType ← getDieType;
  emit (EvChatRoll
          (mkRollCard diceSpent dieType (Host.roll_formula roll)
             (Host.roll_total roll) actualHealing remaining max
             (totalHealing >? actualHealing))).

(** The value [rollAndHeal] resolves to: [{roll, healing}], or [null]. *)
Record Healed := mkHealed { roll : Host.Roll; healing : Z }.

Definition rollAndHeal (engine : string -> Z) (diceCount : Z)
    : M (option Healed) :=
  current ← gets getCurrentHitDice;
  if diceCount >? current then
    name ← gets actor_name;
    emit (EvWarn (NotEnoughDiceNamed name));;
    mret None
  else if diceCount <? 1 then
    emit (EvWarn MinimumOneDie);;
    mret None
  else
    dieType ← getDieType;
    conMod ← gets getConModifier;
    let formula := buildFormula diceCount dieType conMod in
    roll ← Host.evaluate engine formula;
    let healing := Z.max (Host.roll_total roll) diceCount in
    currentHP ← gets hp_value;
    maxHP ← gets hp_max;
    let newHP := Z.min (currentHP + healing) maxHP in
    let actualHealing := newHP - currentHP in
    Host.actor_update {[ "system.attributes.hp.value" := newHP ]} true;;
    setCurrentHitDice (current - diceCount);;
    sendChatMessage roll healing actualHealing diceCount (current - diceCount);;
    mret (Some (mkHealed roll actualHealing)).

(** The value [replenishHitDice] resolves to. *)
Record Replenished := mkReplenished { replenished : Z; total : Z }.

Definition replenishHitDice : M Replenished :=
  max ← gets getMaxHitDice;
  current ← gets getCurrentHitDice;
  if current <? max then
    setCurrentHitDice max;;
    mret (mkReplenished (max - current) max)
  else mret (mkReplenished 0 max).

Definition sendSpellslotChatMessage (entryName : string)
    (slotLevel hitDiceSpent remaining : Z) : M unit :=
  emit (EvChatSpellslot entryName slotLevel hitDiceSpent).

Definition restoreSpellslot (entryId : string) (slotLevel : Z) : M bool :=
  let hitDiceCost := slotLevel in
  current ← gets getCurrentHitDice;
  if hitDiceCost >? current then
    emit (EvWarn (NotEnoughDiceForSlot hitDiceCost current));;
    mret false
  else
    entry ← gets (fun a => items_get entryId (items a));
    match entry with
    | None => emit (EvError SpellcastingEntryNotFound);; mret false
    | Some entry =>
        let slotKey := "slot" +:+ show slotLevel in
        match slots entry with
        | None => throw (TypeError "entry.system.slots is undefined")
        | Some slots =>
            match slots !! slotKey with
            | Some slotData =>
                if slot_value slotData >=? slot_max slotData then
                  emit (EvWarn SlotAlreadyFull);; mret false
                else
                  let newValue := slot_value slotData + 1 in
                  Host.item_update entryId (SlotValue slotKey newValue) true;;
                  setCurrentHitDice (current - hitDiceCost);;
                  sendSpellslotChatMessage (item_name entry) slotLevel
                    hitDiceCost (current - hitDiceCost);;
                  mret true
            | None => emit (EvWarn SlotAlreadyFull);; mret false
            end
        end
    end.

(** *** Spell-slot listing

    [actor.spellcasting] is the host's view of the character's spellcasting;
    [features] below is [actor.spellcasting?.spellcastingFeatures], the
    prepared and spontaneous entries, [None] when [actor.spellcasting] is
    absent. *)

Definition isSpellcaster (features : option (list Item)) : bool :=
  match features with
  | Some entries => (0 <? length entries)%nat
  | None => false
  end.

(** An element of the array [getDepletedSpellslots] returns. *)
Record DepletedSlot := mkDepleted {
  ds_entryId : string;
  ds_entryName : string;
  ds_level : Z;
  ds_current : Z;
  ds_max : Z
}.

(** The body of the inner loop, for one [level]: what it pushes. *)
Definition depletedAt (entry : Item) (slots : gmap string SlotData)
    (level : Z) : list DepletedSlot :=
  let slotKey := "slot" +:+ show level in
  match slots !! slotKey with
  | None => []
  | Some slotData =>
      if slot_max slotData =? 0 then []
      else if slot_value slotData <? slot_max slotData then
        [mkDepleted (item_id entry) (item_name entry) level
           (slot_value slotData) (slot_max slotData)]
      else []
  end.

(** The body of the outer loop, for one [entry]:
    [for (let level = 1; level <= 10; level++)]. *)
Definition depletedOf (entry : Item) : list DepletedSlot :=
  match slots entry with
  | None => []
  | Some slots => seqZ 1 10 ≫= depletedAt entry slots
  end.

(** [Array.prototype.sort((a, b) => a.level - b.level)].  The sort of the
    language is stable, and a stable sort by one key has one result;
    insertion from the right, in front of the first element that is not
    smaller, computes it. *)
Fixpoint insertByLevel (x : DepletedSlot) (l : list DepletedSlot)
    : list DepletedSlot :=
  match l with
  | [] => [x]
  | y :: l' =>
      if ds_level x <=? ds_level y then x :: y :: l'
      else y :: insertByLevel x l'
  end.

Definition sortByLevel (l : list DepletedSlot) : list DepletedSlot :=
  foldr insertByLevel [] l.

Definition getDepletedSpellslots (features : option (list Item))
    : list DepletedSlot :=
  match features with
  | None => []
  | Some entries =>
      let depletedSlots := entries ≫= depletedOf in
      sortByLevel depletedSlots
  end.

End HitDiceManager.

(** ** [RestManager] *)
Module RestManager.
Import HitDiceManager.

(** [for (const x of xs) { ... }] around a local variable the body
    reassigns. *)
Fixpoint for_each {A S} (xs : list A) (body : A -> S -> M S) (s : S) : M S :=
  match xs with
  | [] => mret s
  | x :: xs' => s' ← body x s; for_each xs' body s'
  end.

(** [cond?.value <= 1] on the result of [getCondition]: [null <= 1] holds,
    [undefined <= 1] does not. *)
Definition value_le_1 (c : option (option Z)) : bool :=
  match c with
  | Some (Some v) => v <=? 1
  | Some None => true
  | None => false
  end.

(** The block the source writes once for "doomed" and once for "drained". *)
Definition decreaseByOne (slug label : string) (messages : list Msg)
    : M (list Msg) :=
  present ← gets (Host.hasCondition slug);
  if present : bool then
    cond ← gets (Host.getCondition slug);
    if value_le_1 cond then
      Host.decreaseCondition slug true;;
      mret (messages ++ [ConditionRemoved label])
    else
      Host.decreaseCondition slug false;;
      mret (messages ++ [ConditionReduced label])
  else mret messages.

(** [messages] is the caller's array; the new contents are returned. *)
Definition _handleRestConditions (messages : list Msg) : M (list Msg) :=
  fatigued ← gets (Host.hasCondition "fatigued");
  messages ←
    (if fatigued : bool then
       Host.decreaseCondition "fatigued" true;;
       mret (messages ++ [ConditionRemoved "Fatigued"])
     else mret messages);
  messages ← decreaseByOne "doomed" "Doomed" messages;
  messages ← decreaseByOne "drained" "Drained" messages;
  wounded ← gets (Host.hasCondition "wounded");
  if wounded : bool then
    hpv ← gets hp_value;
    hpm ← gets hp_max;
    if hpv >=? hpm then
      Host.decreaseCondition "wounded" true;;
      mret (messages ++ [ConditionRemoved "Wounded"])
    else mret (messages ++ [WoundsNotHealed])
  else mret messages.

Definition is_wand (i : Item) : bool :=
  String.eqb (item_type i) "consumable"
  && bool_decide (consumableType i = Some "wand").

Definition is_daily_below_max (i : Item) : bool :=
  match frequency i with
  | Some f =>
      bool_decide (freq_per f = Some "day") && (freq_value f <? freq_max f)
  | None => false
  end.

(** [messages] and [updates] are the caller's array and object; the new
    contents of both are returned.  The items a loop walks through are live
    documents: each is read before its own update, and the second loop starts
    from the items as the first loop left them. *)
Definition _refreshDailyResources (messages : list Msg)
    (updates : gmap string Z) : M (list Msg * gmap string Z) :=
  let dailyRefreshed := false in
  wands ← gets (fun a => filter is_wand (items a));
  dailyRefreshed ←
    for_each wands (fun wand dailyRefreshed =>
      match frequency wand with
      | Some f =>
          Host.item_update (item_id wand) (FrequencyValue (freq_max f)) false;;
          mret true
      | None => mret dailyRefreshed
      end) dailyRefreshed;
  reagents ← gets infusedReagents;
  let '(messages, updates) :=
    match reagents with
    | Some r =>
        if res_value r <? res_max r then
          (messages ++ [InfusedReagentsRestored],
           <["system.resources.crafting.infusedReagents.value" := res_max r]>
             updates)
        else (messages, updates)
    | None => (messages, updates)
    end in
  dcc ← gets dailyCraftingComplete;
  (if dcc : bool then Host.setFlag_dailyCraftingComplete false else mret tt);;
  its ← gets items;
  dailyRefreshed ←
    for_each its (fun item dailyRefreshed =>
      if is_daily_below_max item then
        match frequency item with
        | Some f =>
            Host.item_update (item_id item) (FrequencyValue (freq_max f)) false;;
            mret true
        | None => mret dailyRefreshed
        end
      else mret dailyRefreshed) dailyRefreshed;
  temporaryItems ← gets (fun a => filter (fun i => temporary i) (items a));
  messages ←
    (if (0 <? length temporaryItems)%nat then
       let ids := item_id <$> temporaryItems in
       Host.deleteEmbeddedDocuments ids;;
       mret (messages ++ [TemporaryItemsExpired])
     else mret messages);
  let messages :=
    if dailyRefreshed : bool then messages ++ [DailyResourcesReset]
    else messages in
  let messages := messages ++ [HPUnchanged] in
  let messages := messages ++ [SpellSlotsUnchanged] in
  mret (messages, updates).

Definition _sendRestChatMessage (restType : RestType) (messages : list Msg)
    : M unit :=
  emit (EvChatRest restType messages).

(** Steps 1 to 4 of [performLongRest]: everything before the batched
    update; resolves to [messages] and [updates] as they stand there. *)
Definition longRestSteps : M (list Msg * gmap string Z) :=
  let messages : list Msg := [] in
  let updates : gmap string Z := ∅ in
  hdResult ← replenishHitDice;
  let messages :=
    if replenished hdResult >? 0
    then messages ++ [HitDiceRestored (replenished hdResult)]
    else messages ++ [HitDiceAlreadyFull] in
  focus ← gets focus;
  let '(messages, updates) :=
    match focus with
    | Some f =>
        if res_max f >? 0 then
          if res_value f <? res_max f then
            (messages ++ [FocusRestored],
             <["system.resources.focus.value" := res_max f]> updates)
          else (messages ++ [FocusAlreadyFull], updates)
        else (messages, updates)
    | None => (messages, updates)
    end in
  messages ← _handleRestConditions messages;
  _refreshDailyResources messages updates.

Definition performLongRest : M unit :=
  '(messages, updates) ← longRestSteps;
  (if (0 <? size updates)%nat then Host.actor_update updates false
   else mret tt);;
  _sendRestChatMessage LongRest messages;;
  rendered ← gets sheet_rendered;
  if rendered : bool then emit EvSheetRender else mret tt.

(** [restForTheNight] is [game.pf2e?.actions?.restForTheNight]: the host's
    own rest procedure when the rule system provides one. *)
Definition performFullRest (restForTheNight : option (Actor -> Actor))
    : M unit :=
  match restForTheNight with
  | Some rest => emit EvRestForTheNight;; modify rest
  | None => mret tt
  end;;
  hdResult ← replenishHitDice;
  if replenished hdResult >? 0 then
    name ← gets actor_name;
    emit (EvInfo (HitDiceRestoredFor name (replenished hdResult)))
  else mret tt.

End RestManager.

(** ** [HitDiceModal] *)
Module HitDiceModal.
Import HitDiceManager.

(** The fields of the application its handlers read and write.  [this.actor]
    is the live document: the state of the monad. *)
Record Modal := mkModal { diceToRoll : Z; _activeTab : string }.

(** [new HitDiceModal(actor)] *)
Definition constructor : Modal := mkModal 1 "healing".

(** An element of [depletedSlots]: [{...slot, canAfford}]. *)
Record ListedSlot := mkListed { slot : DepletedSlot; canAfford : bool }.

(** The object [_prepareContext] returns, without the reference [actor];
    [ctx_current] is its key [current], and so on for the keys whose names
    are taken. *)
Record Context := mkContext {
  actorName : string;
  ctx_current : Z;
  ctx_max : Z;
  ctx_dieType : Z;
  ctx_conMod : Z;
  ctx_diceToRoll : Z;
  ctx_formula : string;
  rangeMin : Z;
  rangeMax : Z;
  canIncrement : bool;
  canDecrement : bool;
  canRoll : bool;
  hasNoDice : bool;
  ctx_isSpellcaster : bool;
  depletedSlots : list ListedSlot;
  healingTabActive : bool;
  spellsTabActive : bool
}.

(** [features] is [actor.spellcasting?.spellcastingFeatures].  The
    application, with [diceToRoll] as the clamp left it, is returned beside
    the context. *)
Definition _prepareContext (features : option (list Item)) (this : Modal)
    : M (Modal * Context) :=
  current ← gets getCurrentHitDice;
  max ← gets getMaxHitDice;
  dieType ← getDieType;
  conMod ← gets getConModifier;
  let this :=
    if diceToRoll this >? current
    then mkModal (Z.max 1 current) (_activeTab this)
    else this in
  let range := calculateRange (diceToRoll this) dieType conMod in
  let formula := buildFormula (diceToRoll this) dieType conMod in
  let isSpellcaster := isSpellcaster features in
  let depletedSlots :=
    if isSpellcaster then
      (fun slot => mkListed slot (current >=? ds_level slot))
        <$> getDepletedSpellslots features
    else [] in
  let activeTab := if isSpellcaster then _activeTab this else "healing" in
  name ← gets actor_name;
  mret (this,
        mkContext name current max dieType conMod (diceToRoll this) formula
          (min range) (HitDiceManager.max range)
          (diceToRoll this <? current) (diceToRoll this >? 1)
          (current >? 0) (current =? 0)
          isSpellcaster depletedSlots
          (String.eqb activeTab "healing") (String.eqb activeTab "spells")).

(** The handlers return the application and whether [this.render()] was
    called. *)
Definition onIncrement (this : Modal) : M (Modal * bool) :=
  current ← gets getCurrentHitDice;
  if diceToRoll this <? current
  then mret (mkModal (diceToRoll this + 1) (_activeTab this), true)
  else mret (this, false).

Definition onDecrement (this : Modal) : Modal * bool :=
  if diceToRoll this >? 1
  then (mkModal (diceToRoll this - 1) (_activeTab this), true)
  else (this, false).

Definition onRoll (engine : string -> Z) (this : Modal) : M (Modal * bool) :=
  result ← rollAndHeal engine (diceToRoll this);
  match result with
  | Some _ => mret (mkModal 1 (_activeTab this), true)
  | None => mret (this, false)
  end.

(** [tab] is [target.dataset.tab]: a string, or undefined. *)
Definition onSwitchTab (tab : option string) (this : Modal) : Modal * bool :=
  match tab with
  | Some tab =>
      if negb (String.eqb tab "")
         && bool_decide (tab ∈ ["healing"; "spells"])
      then (mkModal (diceToRoll this) tab, true)
      else (this, false)
  | None => (this, false)
  end.

End HitDiceModal.

(** * Vocabulary of the properties *)

Import HitDiceManager RestManager.

(** [run_at I P Q m s]: started on the document [s], the procedure [m]
    resolves (it does not throw), the final document is related to [s] by the
    frame [I], every host call of the trace satisfies [P], and the value it
    resolves to satisfies [Q]. *)
Definition run_at {A} (I : Actor -> Actor -> Prop) (P : Event -> Prop)
    (Q : A -> Prop) (m : M A) (s : Actor) : Prop :=
  exists x s' t, m s = (Done x, s', t) /\ I s s' /\ Forall P t /\ Q x.

(** The die size [getDieType] resolves to, and the diagnostic it leaves in
    the trace when the class is unknown. *)
Definition dieType (a : Actor) : Z :=
  default 8 (className a ≫= (fun c => CLASS_DIE_TYPES !! c)).

Definition dieTypeDiagnostic (a : Actor) : list Event :=
  match className a ≫= (fun c => CLASS_DIE_TYPES !! c) with
  | Some _ => []
  | None => [EvConsoleWarn (className a)]
  end.

(** A level-5 wizard with two of six hit dice left, on whom the statements
    below are exercised. *)
Definition ezren : Actor :=
  mkActor "Ezren" (Some 5) None None (Some 3) 10 40
    (Some (mkResource 0 2)) (Some (mkResource 1 4)) (Some 2) true
    {[ "fatigued" := None; "doomed" := Some 1; "wounded" := Some 1 ]}
    [ mkItem "w1" "Wand of Heal" "consumable" (Some "wand")
        (Some (mkFrequency 0 1 (Some "day"))) false None;
      mkItem "w2" "Wand of Bless" "consumable" (Some "wand")
        (Some (mkFrequency 0 1 (Some "day"))) false None;
      mkItem "e1" "Arcane Prepared Spells" "spellcastingEntry" None None false
        (Some {[ "slot1" := mkSlot 1 3; "slot2" := mkSlot 2 2 ]});
      mkItem "t1" "Infused Elixir" "consumable" (Some "elixir") None true None;
      mkItem "c1" "Wizard" "class" None None false None ]
    true.

(** The same wizard after a drop to level 1: five dice stored, max 2. *)
Definition demoted : Actor :=
  mkActor "Ezren" (Some 1) None None (Some 3) 10 40 None None (Some 5) false
    {[ "fatigued" := None; "doomed" := Some 1; "wounded" := Some 1 ]}
    [ mkItem "e1" "Arcane Prepared Spells" "spellcastingEntry" None None false
        (Some {[ "slot1" := mkSlot 1 3 ]}) ]
    false.

(** A caster whose only spellcasting entry is flagged temporary; her hit
    dice are full. *)
Definition borrowed : Actor :=
  mkActor "Seoni" (Some 3) None None (Some 1) 12 20 None None (Some 4) false
    ∅
    [ mkItem "s1" "Staff Spells" "spellcastingEntry" None None true
        (Some {[ "slot1" := mkSlot 1 2 ]}) ]
    false.

(** The ids [_refreshDailyResources] hands to [deleteEmbeddedDocuments]. *)
Definition temporary_ids (l : list Item) : list string :=
  item_id <$> filter (fun i => temporary i) l.

(** Items outside the temporary ids keep their spell slots. *)
Definition items_rel (l l' : list Item) : Prop :=
  forall id, id ∉ temporary_ids l ->
    slots <$> items_get id l' = slots <$> items_get id l /\
    id ∉ temporary_ids l'.

(** Preserved by the condition step and by the daily refresh. *)
Definition frame (s s' : Actor) : Prop :=
  level s' = level s /\
  hp_value s' = hp_value s /\
  hp_max s' = hp_max s /\
  hd_current s' = hd_current s /\
  actor_name s' = actor_name s /\
  sheet_rendered s' = sheet_rendered s /\
  items_rel (items s) (items s').

(** Preserved by the daily refresh, which leaves the conditions alone. *)
Definition frame_c (s s' : Actor) : Prop :=
  frame s s' /\ conditions s' = conditions s.

(** Kinds of host calls. *)
Definition is_actor_update (e : Event) : bool :=
  match e with EvActorUpdate _ _ => true | _ => false end.

Definition is_item_update (e : Event) : bool :=
  match e with EvItemUpdate _ _ _ => true | _ => false end.

(** A call of a document's [update] with a map of field paths. *)
Definition is_field_update (e : Event) : bool :=
  is_actor_update e || is_item_update e.

Definition is_summary (e : Event) : bool :=
  match e with EvChatRest _ _ => true | _ => false end.

(** A write to the character store. *)
Definition is_store_write (e : Event) : bool :=
  match e with
  | EvActorUpdate _ _ | EvItemUpdate _ _ _ | EvSetFlag _ _ _
  | EvDecreaseCondition _ _ | EvDeleteItems _ => true
  | _ => false
  end.

Definition is_render (e : Event) : bool :=
  match e with EvSheetRender => true | _ => false end.

(** The host calls of steps 1 to 4: no actor update, no summary, no sheet
    refresh. *)
Definition early (e : Event) : Prop :=
  is_actor_update e = false /\ is_summary e = false /\ is_render e = false.

(** The field paths the module writes through [actor.update]. *)
Definition hp_path : string := "system.attributes.hp.value".
Definition focus_path : string := "system.resources.focus.value".
Definition reagents_path : string :=
  "system.resources.crafting.infusedReagents.value".

(** What [_refreshDailyResources] resolves to, given the [messages] and
    [updates] it was handed: the messages are extended and end with the two
    "unchanged" lines, and only the reagents path may have been added to the
    updates. *)
Definition daily_result (msgs : list Msg) (u : gmap string Z)
    (r : list Msg * gmap string Z) : Prop :=
  (exists more, r.1 = msgs ++ more ++ [HPUnchanged; SpellSlotsUnchanged]) /\
  (forall k, k <> reagents_path -> r.2 !! k = u !! k).

(** [messages] and [updates] after the hit-dice and focus steps, from the
    result of [replenishHitDice] and the focus pool. *)
Definition focus_stage (hd : Replenished) (f : option Resource)
    : list Msg * gmap string Z :=
  let messages :=
    if replenished hd >? 0 then [HitDiceRestored (replenished hd)]
    else [HitDiceAlreadyFull] in
  match f with
  | Some f =>
      if res_max f >? 0 then
        if res_value f <? res_max f then
          (messages ++ [FocusRestored], <[focus_path := res_max f]> ∅)
        else (messages ++ [FocusAlreadyFull], ∅)
      else (messages, ∅)
  | None => (messages, ∅)
  end.

(** The tail of the trace of [performLongRest]: the batched update, when
    there is something to write, and the sheet refresh, when a sheet is
    open. *)
Definition batched (u : gmap string Z) : list Event :=
  if (0 <? size u)%nat then [EvActorUpdate u false] else [].

Definition refreshed (s : Actor) : list Event :=
  if sheet_rendered s then [EvSheetRender] else [].

(** Number of host calls of a kind in a trace. *)
Fixpoint count_events (p : Event -> bool) (t : list Event) : nat :=
  match t with
  | [] => 0%nat
  | e :: t' => ((if p e then 1 else 0) + count_events p t')%nat
  end.

(** The operations of the module on a character. *)
Inductive Op :=
| OpSetCurrent (value : Z)
| OpRollAndHeal (engine : string -> Z) (diceCount : Z)
| OpReplenish
| OpRestoreSpellslot (entryId : string) (slotLevel : Z)
| OpLongRest
| OpFullRest (restForTheNight : option (Actor -> Actor)).

(** The character document an operation leaves behind. *)
Definition exec (op : Op) (a : Actor) : Actor :=
  match op with
  | OpSetCurrent v => actor_of (setCurrentHitDice v a)
  | OpRollAndHeal engine n => actor_of (rollAndHeal engine n a)
  | OpReplenish => actor_of (replenishHitDice a)
  | OpRestoreSpellslot id l => actor_of (restoreSpellslot id l a)
  | OpLongRest => actor_of (performLongRest a)
  | OpFullRest h => actor_of (performFullRest h a)
  end.

(** The host's rest procedure knows nothing of the hit-dice flag and does
    not change the level. *)
Definition host_rest_ok (h : Actor -> Actor) : Prop :=
  forall s, level (h s) = level s /\ hd_current (h s) = hd_current s.

Definition op_ok (op : Op) : Prop :=
  match op with
  | OpFullRest (Some h) => host_rest_ok h
  | _ => True
  end.

(** The persisted hit-dice value, when there is one, lies in 0 .. level+1. *)
Definition in_range (a : Actor) : Prop :=
  match hd_current a with
  | Some v => 0 <= v <= getMaxHitDice a
  | None => True
  end.

(** A sequence of operations, run one after the other. *)
Definition exec_all (ops : list Op) (a : Actor) : Actor :=
  fold_left (fun s op => exec op s) ops a.

(** ** Vocabulary of the further properties *)

Import HitDiceModal.





(** A character carried above max HP (45 of 40). *)
Definition overhealed : Actor :=
  mkActor "Ezren" (Some 5) None None (Some 3) 45 40 None None (Some 2) false
    ∅ [] false.

(** Every slot of every item holds at most its max. *)
Definition slots_within_max (a : Actor) : Prop :=
  forall id e sl k sd,
    items_get id (items a) = Some e -> slots e = Some sl ->
    sl !! k = Some sd -> slot_value sd <= slot_max sd.

Definition by_level (x y : DepletedSlot) : Prop := ds_level x <= ds_level y.

(** Two entries of a caster: the first has level-1, level-2 and level-3
    slots, the second a level-1 slot and a level that does not exist
    (max 0). *)
Definition arcane : Item :=
  mkItem "e1" "Arcane Prepared Spells" "spellcastingEntry" None None false
    (Some {[ "slot1" := mkSlot 1 3; "slot2" := mkSlot 2 2;
             "slot3" := mkSlot 0 1 ]}).

Definition divine : Item :=
  mkItem "e2" "Divine Spontaneous Spells" "spellcastingEntry" None None false
    (Some {[ "slot1" := mkSlot 0 2; "slot2" := mkSlot 0 0 ]}).

(** A caster holding the entry [arcane], with two hit dice. *)
Definition caster : Actor :=
  mkActor "Seoni" (Some 3) None None (Some 1) 12 20 None None (Some 2) false
    ∅ [arcane] false.

(** What "decrease by one" leaves of a condition: a severity of 2 or more
    drops by one, anything else is gone. *)
Definition decay1 (o : option (option Z)) : option (option Z) :=
  match o with
  | Some (Some v) => if v <=? 1 then None else Some (Some (v - 1))
  | _ => None
  end.

Definition decay_msgs (label : string) (o : option (option Z)) : list Msg :=
  match o with
  | Some (Some v) =>
      if v <=? 1 then [ConditionRemoved label] else [ConditionReduced label]
  | Some None => [ConditionRemoved label]
  | None => []
  end.

Definition decay_events (slug : string) (o : option (option Z)) : list Event :=
  match o with
  | Some (Some v) => [EvDecreaseCondition slug (v <=? 1)]
  | Some None => [EvDecreaseCondition slug true]
  | None => []
  end.

(** The lines and host calls of the fatigued and wounded steps. *)
Definition fatigued_msgs (s : Actor) : list Msg :=
  match conditions s !! "fatigued" with
  | Some _ => [ConditionRemoved "Fatigued"]
  | None => []
  end.

Definition wounded_msgs (s : Actor) : list Msg :=
  match conditions s !! "wounded" with
  | Some _ =>
      if hp_value s >=? hp_max s then [ConditionRemoved "Wounded"]
      else [WoundsNotHealed]
  | None => []
  end.

Definition condition_msgs (s : Actor) : list Msg :=
  fatigued_msgs s ++
  decay_msgs "Doomed" (conditions s !! "doomed") ++
  decay_msgs "Drained" (conditions s !! "drained") ++
  wounded_msgs s.

Definition condition_events (s : Actor) : list Event :=
  match conditions s !! "fatigued" with
  | Some _ => [EvDecreaseCondition "fatigued" true]
  | None => []
  end ++
  decay_events "doomed" (conditions s !! "doomed") ++
  decay_events "drained" (conditions s !! "drained") ++
  match conditions s !! "wounded" with
  | Some _ =>
      if hp_value s >=? hp_max s then [EvDecreaseCondition "wounded" true]
      else []
  | None => []
  end.

(** The conditions after the condition step. *)
Definition decayed (s : Actor) (c : gmap string (option Z)) : Prop :=
  c !! "fatigued" = None /\
  c !! "doomed" = decay1 (conditions s !! "doomed") /\
  c !! "drained" = decay1 (conditions s !! "drained") /\
  c !! "wounded" =
    (if hp_value s >=? hp_max s then None else conditions s !! "wounded") /\
  (forall k, k <> "fatigued" -> k <> "doomed" -> k <> "drained" ->
             k <> "wounded" -> c !! k = conditions s !! k).

(** One turn of a recharge loop over the items [c] selects: the item with the
    id of [x] gets the max of [x] as its frequency value. *)
Definition recharge_step (c : Item -> bool) (l : list Item) (x : Item)
    : list Item :=
  if c x then
    match frequency x with
    | Some f =>
        items_alter (Host.apply_item_change (FrequencyValue (freq_max f)))
          (item_id x) l
    | None => l
    end
  else l.

Definition recharge_events (c : Item -> bool) (x : Item) : list Event :=
  if c x then
    match frequency x with
    | Some f => [EvItemUpdate (item_id x) (FrequencyValue (freq_max f)) false]
    | None => []
    end
  else [].

Definition recharges (c : Item -> bool) (x : Item) : bool :=
  c x && match frequency x with Some _ => true | None => false end.

Definition always (i : Item) : bool := true.

(** The items after the wand loop, after the daily loop, and after the
    deletion of the temporary ones. *)
Definition wands_recharged (l0 : list Item) : list Item :=
  fold_left (recharge_step always) (filter is_wand l0) l0.

Definition daily_recharged (l0 : list Item) : list Item :=
  let l1 := wands_recharged l0 in
  fold_left (recharge_step is_daily_below_max) l1 l1.

Definition daily_items (l0 : list Item) : list Item :=
  let l2 := daily_recharged l0 in
  if (0 <? length (filter (fun i => temporary i) l2))%nat
  then filter (fun i => item_id i ∉ temporary_ids l2) l2
  else l2.

(** The local variable [dailyRefreshed] at the end. *)
Definition daily_flag (l0 : list Item) : bool :=
  existsb (recharges always) (filter is_wand l0)
  || existsb (recharges is_daily_below_max) (wands_recharged l0).

Definition reagents_below_max (s : Actor) : bool :=
  match infusedReagents s with
  | Some r => res_value r <? res_max r
  | None => false
  end.

Definition daily_updates (u : gmap string Z) (s : Actor) : gmap string Z :=
  match infusedReagents s with
  | Some r =>
      if res_value r <? res_max r then <[reagents_path := res_max r]> u else u
  | None => u
  end.

Definition has_temporary (l0 : list Item) : bool :=
  (0 <? length (filter (fun i => temporary i) (daily_recharged l0)))%nat.

Definition daily_messages (msgs : list Msg) (s : Actor) : list Msg :=
  let m1 :=
    if reagents_below_max s then msgs ++ [InfusedReagentsRestored] else msgs in
  let m2 :=
    if has_temporary (items s) then m1 ++ [TemporaryItemsExpired] else m1 in
  let m3 :=
    if daily_flag (items s) then m2 ++ [DailyResourcesReset] else m2 in
  (m3 ++ [HPUnchanged]) ++ [SpellSlotsUnchanged].

Definition daily_events (s : Actor) : list Event :=
  (filter is_wand (items s) ≫= recharge_events always) ++
  (if dailyCraftingComplete s
   then [EvSetFlag "pf2e" "dailyCraftingComplete" (inr false)] else []) ++
  (wands_recharged (items s) ≫= recharge_events is_daily_below_max) ++
  (if has_temporary (items s)
   then [EvDeleteItems (temporary_ids (daily_recharged (items s)))] else []).

Definition daily_state (s : Actor) : Actor :=
  set_items (daily_items (items s)) (set_dailyCraftingComplete false s).

(** The focus pool and the reagent pool after Long Rest. *)
Definition focus_after (a : Actor) : option Resource :=
  match focus a with
  | Some f =>
      if (res_max f >? 0) && (res_value f <? res_max f)
      then Some (mkResource (res_max f) (res_max f))
      else Some f
  | None => None
  end.

Definition reagents_after (a : Actor) : option Resource :=
  match infusedReagents a with
  | Some r =>
      if res_value r <? res_max r
      then Some (mkResource (res_max r) (res_max r))
      else Some r
  | None => None
  end.

(** The first lines of the summary: hit dice, then focus. *)
Definition dice_msgs (a : Actor) : list Msg :=
  if getCurrentHitDice a <? getMaxHitDice a
  then [HitDiceRestored (getMaxHitDice a - getCurrentHitDice a)]
  else [HitDiceAlreadyFull].

Definition focus_msgs (a : Actor) : list Msg :=
  match focus a with
  | Some f =>
      if res_max f >? 0 then
        if res_value f <? res_max f then [FocusRestored]
        else [FocusAlreadyFull]
      else []
  | None => []
  end.

Definition dice_events (a : Actor) : list Event :=
  if getCurrentHitDice a <? getMaxHitDice a
  then [EvSetFlag "hit-dice-healing" "current"
          (inl (clamped a (getMaxHitDice a)))]
  else [].

(** The summary of Long Rest, line by line. *)
Definition summary (a : Actor) : list Msg :=
  daily_messages ((dice_msgs a ++ focus_msgs a) ++ condition_msgs a) a.

(** The map of the batched update. *)
Definition batch (a : Actor) : gmap string Z :=
  daily_updates
    (match focus a with
     | Some f =>
         if (res_max f >? 0) && (res_value f <? res_max f)
         then {[ focus_path := res_max f ]} else ∅
     | None => ∅
     end) a.

Definition is_condition_call (e : Event) : bool :=
  match e with EvDecreaseCondition _ _ => true | _ => false end.

(** The calls of the daily refresh are item updates of a frequency value,
    flag writes and deletions, all without re-rendering. *)
Definition is_daily_call (e : Event) : bool :=
  match e with
  | EvItemUpdate _ (FrequencyValue _) false => true
  | EvSetFlag _ _ _ | EvDeleteItems _ => true
  | _ => false
  end.

(** *** The modal, click by click *)

(** What the user and the host can do to an open modal. *)
Inductive Action :=
| Increment
| Decrement
| Roll
| SwitchTab (tab : option string)
| Render.

(** The application after a handler that ran on [a]: a handler that throws
    has assigned nothing. *)
Definition settle {B} (this : Modal) (r : Outcome (Modal * B) * Actor * list Event)
    : Modal * Actor :=
  match r with
  | (Done (this', _), a', _) => (this', a')
  | (Thrown _, a', _) => (this, a')
  end.

Definition act (engine : string -> Z) (features : option (list Item))
    (st : Modal * Actor) (x : Action) : Modal * Actor :=
  let '(this, a) := st in
  match x with
  | Increment => settle this (onIncrement this a)
  | Decrement => (fst (onDecrement this), a)
  | Roll => settle this (onRoll engine this a)
  | SwitchTab tab => (fst (onSwitchTab tab this), a)
  | Render => settle this (_prepareContext features this a)
  end.

(** The item a recharge leaves: its frequency value at its max. *)
Definition full (i : Item) : Item :=
  match frequency i with
  | Some f => Host.apply_item_change (FrequencyValue (freq_max f)) i
  | None => i
  end.

(** The item Long Rest leaves of [i], when it leaves one. *)
Definition rested (i : Item) : Item :=
  if is_wand i || is_daily_below_max i then full i else i.

(** The host calls of Long Rest, by kind. *)
Definition is_dice_call (e : Event) : bool :=
  match e with
  | EvSetFlag "hit-dice-healing" "current" (inl _) => true
  | _ => false
  end.

Definition is_batch_call (e : Event) : bool :=
  match e with EvActorUpdate _ false => true | _ => false end.

Definition is_render_call (e : Event) : bool :=
  match e with EvSheetRender => true | _ => false end.

Definition is_item_call (e : Event) : bool :=
  match e with EvItemUpdate _ _ _ => true | _ => false end.

Definition is_delete_call (e : Event) : bool :=
  match e with EvDeleteItems _ => true | _ => false end.

Definition is_chat (e : Event) : bool :=
  match e with EvChatRest _ _ => true | _ => false end.

(** The application as the clamp of [_prepareContext] leaves it. *)
Definition clampDice (this : Modal) (a : Actor) : Modal :=
  if diceToRoll this >? getCurrentHitDice a
  then mkModal (Z.max 1 (getCurrentHitDice a)) (_activeTab this)
  else this.

(** What holds of an open modal at all times. *)
Definition modal_ok (this : Modal) : Prop :=
  1 <= diceToRoll this /\
  (_activeTab this = "healing" \/ _activeTab this = "spells").

(** * Properties *)

(** ** Running the monad *)

(** Unfolds the monad and the host calls, and nothing of the data
    structures underneath. *)
Ltac run :=
  cbv [mbind M_bind mret M_ret gets modify emit throw
       outcome_of actor_of trace_of
       Host.setFlag_current Host.setFlag_dailyCraftingComplete
       Host.actor_update Host.item_update Host.decreaseCondition
       Host.deleteEmbeddedDocuments Host.evaluate
       setCurrentHitDice sendChatMessage sendSpellslotChatMessage
       _sendRestChatMessage fst snd].

Lemma getDieType_run (a : Actor) :
  getDieType a = (Done (dieType a), a, dieTypeDiagnostic a).
Proof.
  unfold getDieType, dieType, dieTypeDiagnostic. run.
  destruct (option_bind _ _ _ (className a)); reflexivity.
Qed.

Lemma apply_updates_hp (v : Z) (a : Actor) :
  Host.apply_updates {[ "system.attributes.hp.value" := v ]} a
  = set_hp_value v a.
Proof.
  unfold Host.apply_updates.
  rewrite lookup_singleton_eq.
  rewrite !lookup_singleton_ne by discriminate.
  reflexivity.
Qed.

(** The clamp of [setCurrentHitDice] is the identity on [0 .. max]. *)
Lemma clamp_in_range (v mx : Z) : 0 <= v <= mx -> Z.max 0 (Z.min v mx) = v.
Proof. lia. Qed.

Lemma clamp_bounds (v mx : Z) : 0 <= mx -> 0 <= Z.max 0 (Z.min v mx) <= mx.
Proof. lia. Qed.

(** ** [calculateRange] *)

(** Claim C7.  For all integers n >= 1, d in {6, 8, 10, 12} and c in
    [-5, 10], [calculateRange n d c] returns min = max(n, n + c*n) and
    max = max(n, d*n + c*n), with min <= max, min >= n and max >= n. *)
Theorem calculateRange_bounds (n d c : Z) :
  1 <= n ->
  d = 6 \/ d = 8 \/ d = 10 \/ d = 12 ->
  -5 <= c <= 10 ->
  let r := calculateRange n d c in
  min r = Z.max n (n + c * n) /\
  max r = Z.max n (d * n + c * n) /\
  min r <= max r /\ n <= min r /\ n <= max r.
Proof.
  intros Hn Hd Hc r. subst r. unfold calculateRange. simpl.
  repeat split; lia.
Qed.

Lemma calculateRange_bounds_witness :
  let r := calculateRange 2 8 3 in
  min r = Z.max 2 (2 + 3 * 2) /\
  max r = Z.max 2 (8 * 2 + 3 * 2) /\
  min r <= max r /\ 2 <= min r /\ 2 <= max r.
Proof. apply (calculateRange_bounds 2 8 3); lia. Defined.

(** ** [buildFormula] and [getDieType] on the examples of the
    specification *)

Example buildFormula_examples :
  buildFormula 3 8 2 = "3d8+6" /\
  buildFormula 2 6 (-1) = "2d6-2" /\
  buildFormula 1 10 0 = "1d10".
Proof. repeat split. Qed.

Example calculateRange_example :
  buildFormula 2 8 3 = "2d8+6" /\ calculateRange 2 8 3 = mkRange 8 22.
Proof. split; reflexivity. Qed.

Example dieType_examples :
  dieType ezren = 6 /\
  CLASS_DIE_TYPES !! toLowerCase "Barbarian" = Some 12 /\
  CLASS_DIE_TYPES !! toLowerCase "Homebrew" = None.
Proof. repeat split. Qed.

(** ** [rollAndHeal] *)

(** The run of [rollAndHeal] once both validations pass. *)
Lemma rollAndHeal_run (engine : string -> Z) (n : Z) (a : Actor) :
  n <= getCurrentHitDice a -> 1 <= n ->
  let cur := getCurrentHitDice a in
  let formula := buildFormula n (dieType a) (getConModifier a) in
  let rolled := Host.mkRoll (engine formula) formula in
  let healing := Z.max (engine formula) n in
  let newHP := Z.min (hp_value a + healing) (hp_max a) in
  let stored := Z.max 0 (Z.min (cur - n) (getMaxHitDice a)) in
  let a' := set_hd_current (Some stored) (set_hp_value newHP a) in
  rollAndHeal engine n a =
    (Done (Some (mkHealed rolled (newHP - hp_value a))), a',
     dieTypeDiagnostic a ++
     [EvRoll formula;
      EvActorUpdate {[ "system.attributes.hp.value" := newHP ]} true;
      EvSetFlag "hit-dice-healing" "current" (inl stored)] ++
     dieTypeDiagnostic a ++
     [EvChatRoll (mkRollCard n (dieType a) formula (engine formula)
                    (newHP - hp_value a) (cur - n) (getMaxHitDice a)
                    (healing >? newHP - hp_value a))]).
Proof.
  intros Hle Hge. simpl.
  unfold rollAndHeal. run.
  destruct (Z.gtb_spec n (getCurrentHitDice a)); [lia|].
  destruct (Z.ltb_spec n 1); [lia|].
  rewrite getDieType_run. rewrite apply_updates_hp.
  rewrite getDieType_run.
  simpl. rewrite app_nil_r. reflexivity.
Qed.

(** Claim C1.  For every character whose hit-dice value satisfies
    0 <= current <= max and every diceCount with 1 <= diceCount <= current,
    [rollAndHeal] succeeds; the healing it returns is
    min(max(rollTotal, diceCount), maxHP - currentHP), the HP it persists is
    currentHP + that healing, and the hit-dice pool decreases by exactly
    diceCount. *)
Theorem rollAndHeal_success (engine : string -> Z) (n : Z) (a : Actor) :
  0 <= getCurrentHitDice a <= getMaxHitDice a ->
  1 <= n <= getCurrentHitDice a ->
  exists res a' t,
    rollAndHeal engine n a = (Done (Some res), a', t) /\
    let rollTotal := Host.roll_total (roll res) in
    rollTotal = engine (buildFormula n (dieType a) (getConModifier a)) /\
    healing res = Z.min (Z.max rollTotal n) (hp_max a - hp_value a) /\
    hp_value a' = hp_value a + healing res /\
    EvActorUpdate
      {[ "system.attributes.hp.value" := hp_value a + healing res ]} true ∈ t /\
    hd_current a' = Some (getCurrentHitDice a - n) /\
    getCurrentHitDice a' = getCurrentHitDice a - n.
Proof.
  intros Hinv Hn.
  eexists _, _, _. split.
  - apply rollAndHeal_run; lia.
  - simpl.
    rewrite (clamp_in_range (getCurrentHitDice a - n)) by lia.
    replace (hp_value a +
             (Z.min (hp_value a + Z.max (engine _) n) (hp_max a) - hp_value a))
      with (Z.min (hp_value a + Z.max (engine
              (buildFormula n (dieType a) (getConModifier a))) n) (hp_max a))
      by lia.
    repeat split; try reflexivity; try lia.
    apply list_elem_of_In, in_or_app. right. simpl. auto.
Qed.

Lemma rollAndHeal_success_witness :
  exists res a' t,
    rollAndHeal (fun _ => 14) 2 ezren = (Done (Some res), a', t) /\
    healing res = 14 /\ hp_value a' = 24 /\ getCurrentHitDice a' = 0.
Proof.
  destruct (rollAndHeal_success (fun _ => 14) 2 ezren)
    as (res & a' & t & Hrun & Htot & Hheal & Hhp & _ & _ & Hcur).
  - unfold getCurrentHitDice, getMaxHitDice; simpl; lia.
  - unfold getCurrentHitDice; simpl; lia.
  - exists res, a', t. simpl in *. rewrite Htot in Hheal.
    repeat split; [exact Hrun | lia | lia | exact Hcur].
Defined.

(** The two early returns of [rollAndHeal]. *)
Lemma rollAndHeal_not_enough (engine : string -> Z) (n : Z) (a : Actor) :
  getCurrentHitDice a < n ->
  rollAndHeal engine n a
  = (Done None, a, [EvWarn (NotEnoughDiceNamed (actor_name a))]).
Proof.
  intros Hgt. unfold rollAndHeal. run.
  destruct (Z.gtb_spec n (getCurrentHitDice a)); [reflexivity | lia].
Qed.

Lemma rollAndHeal_below_minimum (engine : string -> Z) (n : Z) (a : Actor) :
  n <= getCurrentHitDice a -> n < 1 ->
  rollAndHeal engine n a = (Done None, a, [EvWarn MinimumOneDie]).
Proof.
  intros Hle Hlt. unfold rollAndHeal. run.
  destruct (Z.gtb_spec n (getCurrentHitDice a)); [lia|].
  destruct (Z.ltb_spec n 1); [reflexivity | lia].
Qed.

(** Claim C3.  If diceCount < 1 or diceCount > getCurrent(character),
    [rollAndHeal] resolves to [null] after one user warning (not enough dice
    when diceCount exceeds the pool, minimum one die otherwise), asks the
    roll engine nothing, and leaves the character document, hence the
    hit-dice pool and the HP, unchanged. *)
Theorem rollAndHeal_rejects (engine : string -> Z) (n : Z) (a : Actor) :
  n < 1 \/ getCurrentHitDice a < n ->
  exists w a' t,
    rollAndHeal engine n a = (Done None, a', t) /\
    t = [EvWarn w] /\
    (getCurrentHitDice a < n -> w = NotEnoughDiceNamed (actor_name a)) /\
    (n <= getCurrentHitDice a -> w = MinimumOneDie) /\
    (forall formula, EvRoll formula ∉ t) /\
    a' = a /\
    getCurrentHitDice a' = getCurrentHitDice a /\
    hp_value a' = hp_value a.
Proof.
  intros Hbad.
  destruct (Z.lt_ge_cases (getCurrentHitDice a) n) as [Hgt | Hle].
  - eexists _, _, _. split; [apply rollAndHeal_not_enough; exact Hgt|].
    repeat split; try reflexivity; try lia.
    intros f Hin. apply list_elem_of_singleton in Hin. discriminate.
  - eexists _, _, _. split; [apply rollAndHeal_below_minimum; lia|].
    repeat split; try reflexivity; try lia.
    intros f Hin. apply list_elem_of_singleton in Hin. discriminate.
Qed.

Lemma rollAndHeal_rejects_witness :
  rollAndHeal (fun _ => 14) 3 ezren
  = (Done None, ezren, [EvWarn (NotEnoughDiceNamed "Ezren")]).
Proof.
  destruct (rollAndHeal_rejects (fun _ => 14) 3 ezren)
    as (w & a' & t & Hrun & Ht & Hw & _ & _ & Ha & _).
  - right. unfold getCurrentHitDice; simpl; lia.
  - rewrite Hrun, Ht, Ha, Hw; [reflexivity|].
    unfold getCurrentHitDice; simpl; lia.
Defined.

(** ** [replenishHitDice] *)

Lemma replenishHitDice_below (a : Actor) :
  getCurrentHitDice a < getMaxHitDice a ->
  let mx := getMaxHitDice a in
  let stored := Z.max 0 (Z.min mx mx) in
  replenishHitDice a =
    (Done (mkReplenished (mx - getCurrentHitDice a) mx),
     set_hd_current (Some stored) a,
     [EvSetFlag "hit-dice-healing" "current" (inl stored)]).
Proof.
  intros Hlt. simpl. unfold replenishHitDice. run.
  destruct (Z.ltb_spec (getCurrentHitDice a) (getMaxHitDice a)); [|lia].
  reflexivity.
Qed.

Lemma replenishHitDice_full (a : Actor) :
  getMaxHitDice a <= getCurrentHitDice a ->
  replenishHitDice a = (Done (mkReplenished 0 (getMaxHitDice a)), a, []).
Proof.
  intros Hge. unfold replenishHitDice. run.
  destruct (Z.ltb_spec (getCurrentHitDice a) (getMaxHitDice a)); [lia|].
  reflexivity.
Qed.

(** Whatever the stored value, [replenishHitDice] resolves, writes at most
    the hit-dice flag, and reports a positive count exactly when it wrote. *)
Lemma replenishHitDice_cases (a : Actor) :
  (getCurrentHitDice a < getMaxHitDice a /\
   replenishHitDice a =
     (Done (mkReplenished (getMaxHitDice a - getCurrentHitDice a)
              (getMaxHitDice a)),
      set_hd_current (Some (clamped a (getMaxHitDice a))) a,
      [EvSetFlag "hit-dice-healing" "current"
         (inl (clamped a (getMaxHitDice a)))]))
  \/
  (getMaxHitDice a <= getCurrentHitDice a /\
   replenishHitDice a = (Done (mkReplenished 0 (getMaxHitDice a)), a, [])).
Proof.
  destruct (Z.lt_ge_cases (getCurrentHitDice a) (getMaxHitDice a)).
  - left. split; [assumption|]. now apply replenishHitDice_below.
  - right. split; [assumption|]. now apply replenishHitDice_full.
Qed.

(** When the pool does not exceed a non-negative max, it is at max after
    [replenishHitDice]. *)
Lemma replenishHitDice_to_max (a : Actor) :
  0 <= getMaxHitDice a ->
  getCurrentHitDice a <= getMaxHitDice a ->
  getCurrentHitDice (actor_of (replenishHitDice a)) = getMaxHitDice a.
Proof.
  intros Hmax Hle.
  destruct (replenishHitDice_cases a) as [[Hlt ->] | [Hge ->]].
  - unfold actor_of, clamped; simpl.
    unfold getCurrentHitDice; simpl. lia.
  - unfold actor_of; simpl. lia.
Qed.

(** Claim C10.  When the stored hit-dice value exceeds getMax(character),
    [getCurrentHitDice] returns the stored value unclamped, and
    [replenishHitDice] writes nothing, reports 0 dice replenished and leaves
    the document as it is: afterwards the pool still differs from max. *)
Theorem stale_pool_not_repaired (a : Actor) (stored : Z) :
  hd_current a = Some stored ->
  getMaxHitDice a < stored ->
  getCurrentHitDice a = stored /\
  exists res a' t,
    replenishHitDice a = (Done res, a', t) /\
    replenished res = 0 /\
    t = [] /\
    a' = a /\
    getCurrentHitDice a' = stored /\
    getCurrentHitDice a' <> getMaxHitDice a'.
Proof.
  intros Hstored Hgt.
  assert (Hcur : getCurrentHitDice a = stored).
  { unfold getCurrentHitDice. now rewrite Hstored. }
  split; [exact Hcur|].
  eexists _, _, _. split.
  - apply replenishHitDice_full. lia.
  - repeat split; try reflexivity; try assumption. lia.
Qed.

Lemma stale_pool_not_repaired_witness :
  getCurrentHitDice demoted = 5 /\
  exists res a' t,
    replenishHitDice demoted = (Done res, a', t) /\
    replenished res = 0 /\ t = [] /\ a' = demoted /\
    getCurrentHitDice a' = 5 /\
    getCurrentHitDice a' <> getMaxHitDice a'.
Proof.
  apply (stale_pool_not_repaired demoted 5).
  - reflexivity.
  - unfold getMaxHitDice; simpl; lia.
Defined.

(** ** Full Rest without the host's rest procedure *)

(** Claim C8.  When the host provides no rest procedure, [performFullRest]
    still resolves: for a character with 0 <= current <= max the hit-dice
    pool ends at max, the HP is unchanged, the host procedure is not called
    and no warning or error is surfaced. *)
Theorem fullRest_without_host_procedure (a : Actor) :
  0 <= getCurrentHitDice a <= getMaxHitDice a ->
  exists a' t,
    performFullRest None a = (Done tt, a', t) /\
    (a' = a \/ a' = set_hd_current (Some (getMaxHitDice a)) a) /\
    getCurrentHitDice a' = getMaxHitDice a /\
    getMaxHitDice a' = getMaxHitDice a /\
    hp_value a' = hp_value a /\
    hp_max a' = hp_max a /\
    (EvRestForTheNight ∉ t) /\
    (forall n, (EvWarn n ∉ t) /\ (EvError n ∉ t)).
Proof.
  intros [Hlo Hhi].
  unfold performFullRest. run.
  destruct (replenishHitDice_cases a) as [[Hlt ->] | [Hge ->]].
  - cbn [replenished].
    destruct (Z.gtb_spec (getMaxHitDice a - getCurrentHitDice a) 0); [|lia].
    simpl. eexists _, _. split; [reflexivity|].
    unfold clamped. rewrite (clamp_in_range (getMaxHitDice a)) by lia.
    split; [right; reflexivity|].
    repeat split; try reflexivity;
      rewrite list_elem_of_In; simpl; intuition discriminate.
  - simpl. eexists _, _. split; [reflexivity|].
    split; [left; reflexivity|].
    repeat split; try reflexivity; try lia;
      rewrite list_elem_of_In; simpl; intuition discriminate.
Qed.

Lemma fullRest_without_host_procedure_witness :
  exists a' t,
    performFullRest None ezren = (Done tt, a', t) /\
    getCurrentHitDice a' = 6 /\ hp_value a' = 10.
Proof.
  destruct (fullRest_without_host_procedure ezren)
    as (a' & t & Hrun & _ & Hcur & _ & Hhp & _).
  - unfold getCurrentHitDice, getMaxHitDice; simpl; lia.
  - exists a', t. repeat split; assumption.
Defined.

(** ** [restoreSpellslot] *)

Lemma items_get_alter_eq (f : Item -> Item) (id : string) (l : list Item) :
  (forall i, item_id (f i) = item_id i) ->
  items_get id (items_alter f id l) = f <$> items_get id l.
Proof.
  intros Hid. induction l as [| i l IH]; simpl; [reflexivity|].
  destruct (String.eqb (item_id i) id) eqn:E; simpl.
  - rewrite Hid, E. reflexivity.
  - rewrite E. exact IH.
Qed.

Lemma items_get_alter_ne (f : Item -> Item) (id id' : string) (l : list Item) :
  (forall i, item_id (f i) = item_id i) ->
  id <> id' ->
  items_get id' (items_alter f id l) = items_get id' l.
Proof.
  intros Hid Hne. induction l as [| i l IH]; simpl; [reflexivity|].
  destruct (String.eqb (item_id i) id) eqn:E; simpl.
  - rewrite Hid. apply String.eqb_eq in E.
    destruct (String.eqb (item_id i) id') eqn:E'; [|reflexivity].
    apply String.eqb_eq in E'. congruence.
  - destruct (String.eqb (item_id i) id'); [reflexivity | exact IH].
Qed.

Lemma apply_item_change_id (c : ItemChange) (i : Item) :
  item_id (Host.apply_item_change c i) = item_id i.
Proof. destruct c; reflexivity. Qed.

Lemma alter_slot_value (sl : gmap string SlotData) (k : string) (sd : SlotData) (v : Z) :
  sl !! k = Some sd ->
  alter (fun sd => mkSlot v (slot_max sd)) k sl
  = <[k := mkSlot v (slot_max sd)]> sl.
Proof.
  intros Hk. apply map_eq. intros j.
  rewrite lookup_alter, lookup_insert.
  destruct (decide (k = j)) as [<- | Hne]; [|reflexivity].
  rewrite Hk. reflexivity.
Qed.

(** The run of [restoreSpellslot] once its three validations pass. *)
Lemma restoreSpellslot_run (id : string) (L : Z) (a : Actor)
    (e : Item) (sl : gmap string SlotData) (sd : SlotData) :
  L <= getCurrentHitDice a ->
  items_get id (items a) = Some e ->
  slots e = Some sl ->
  sl !! ("slot" +:+ show L) = Some sd ->
  slot_value sd < slot_max sd ->
  let key := "slot" +:+ show L in
  let change := SlotValue key (slot_value sd + 1) in
  let stored := clamped a (getCurrentHitDice a - L) in
  restoreSpellslot id L a =
    (Done true,
     set_hd_current (Some stored)
       (set_items (items_alter (Host.apply_item_change change) id (items a)) a),
     [EvItemUpdate id change true;
      EvSetFlag "hit-dice-healing" "current" (inl stored);
      EvChatSpellslot (item_name e) L L]).
Proof.
  intros Hle He Hsl Hsd Hlt. simpl.
  unfold restoreSpellslot. run.
  destruct (Z.gtb_spec L (getCurrentHitDice a)); [lia|].
  rewrite He, Hsl, Hsd.
  destruct (Z.geb_spec (slot_value sd) (slot_max sd)); [lia|].
  reflexivity.
Qed.

(** Claim C5, as stated, fails on a character whose stored hit dice exceed
    max: restoring a level-1 slot succeeds and the pool drops from 5 to 2,
    by three dice instead of one, because the write is clamped to max. *)
Lemma restoreSpellslot_cost_counterexample :
  outcome_of (restoreSpellslot "e1" 1 demoted) = Done true /\
  getCurrentHitDice demoted = 5 /\
  getCurrentHitDice (actor_of (restoreSpellslot "e1" 1 demoted)) = 2 /\
  getCurrentHitDice (actor_of (restoreSpellslot "e1" 1 demoted))
    <> getCurrentHitDice demoted - 1.
Proof. repeat split; vm_compute; congruence. Qed.

(** Claim C5 (amended).  [restoreSpellslot] at slot level L costs L hit dice.
    With the character document unchanged, it
    - resolves to [false] after the not-enough-dice warning when
      L > getCurrent(character);
    - otherwise resolves to [false] after the entry-not-found error when no
      item has the id;
    - otherwise throws a [TypeError], after no host call, when the item with
      the id has no slots at all (it is not a spellcasting entry);
    - otherwise resolves to [false] after the slot-full warning when the
      entry has no slot of level L or the slot's current >= max.
    Otherwise it resolves to [true], the slot's current is incremented by
    exactly 1 and nothing else in the items changes; and when the pool did not
    exceed max and L >= 0, the hit-dice pool decreases by exactly L. *)
Theorem restoreSpellslot_spec (id : string) (L : Z) (a : Actor) :
  let cur := getCurrentHitDice a in
  let key := "slot" +:+ show L in
  (cur < L ->
   restoreSpellslot id L a
   = (Done false, a, [EvWarn (NotEnoughDiceForSlot L cur)])) /\
  (L <= cur -> items_get id (items a) = None ->
   restoreSpellslot id L a
   = (Done false, a, [EvError SpellcastingEntryNotFound])) /\
  (forall e sl,
     L <= cur -> items_get id (items a) = Some e -> slots e = Some sl ->
     (sl !! key = None ->
      restoreSpellslot id L a = (Done false, a, [EvWarn SlotAlreadyFull])) /\
     (forall sd, sl !! key = Some sd ->
        (slot_max sd <= slot_value sd ->
         restoreSpellslot id L a = (Done false, a, [EvWarn SlotAlreadyFull]))
        /\
        (slot_value sd < slot_max sd ->
         exists a' t e',
           restoreSpellslot id L a = (Done true, a', t) /\
           items_get id (items a') = Some e' /\
           slots e' =
             Some (<[key := mkSlot (slot_value sd + 1) (slot_max sd)]> sl) /\
           (forall id', id <> id' ->
              items_get id' (items a') = items_get id' (items a)) /\
           hp_value a' = hp_value a /\
           (cur <= getMaxHitDice a -> 0 <= L ->
            getCurrentHitDice a' = cur - L)))) /\
  (forall e,
     L <= cur -> items_get id (items a) = Some e -> slots e = None ->
     exists msg,
       restoreSpellslot id L a = (Thrown (TypeError msg), a, [])).
Proof.
  intros cur key. subst cur key.
  split; [|split; [|split]].
  - intros Hlt. unfold restoreSpellslot. run.
    destruct (Z.gtb_spec L (getCurrentHitDice a)); [reflexivity | lia].
  - intros Hle Hnone. unfold restoreSpellslot. run.
    destruct (Z.gtb_spec L (getCurrentHitDice a)); [lia|].
    rewrite Hnone. reflexivity.
  - intros e sl Hle He Hsl. split.
    + intros Hk. unfold restoreSpellslot. run.
      destruct (Z.gtb_spec L (getCurrentHitDice a)); [lia|].
      rewrite He, Hsl, Hk. reflexivity.
    + intros sd Hk. split.
      * intros Hfull. unfold restoreSpellslot. run.
        destruct (Z.gtb_spec L (getCurrentHitDice a)); [lia|].
        rewrite He, Hsl, Hk.
        destruct (Z.geb_spec (slot_value sd) (slot_max sd)); [reflexivity|lia].
      * intros Hroom.
        eexists _, _, _. split;
          [exact (restoreSpellslot_run id L a e sl sd Hle He Hsl Hk Hroom)|].
        cbn [items set_hd_current set_items hp_value].
        rewrite items_get_alter_eq by apply apply_item_change_id.
        rewrite He. cbn [fmap option_fmap option_map Host.apply_item_change
                         slots set_slots].
        rewrite Hsl. cbn [fmap option_fmap option_map].
        rewrite (alter_slot_value sl _ sd) by exact Hk.
        split; [reflexivity|]. split; [reflexivity|].
        split; [|split; [reflexivity|]].
        -- intros id' Hne. apply items_get_alter_ne;
             [apply apply_item_change_id | exact Hne].
        -- intros Hinv HL. unfold getCurrentHitDice at 1, clamped.
           cbn [hd_current set_hd_current]. lia.
  - intros e Hle He Hsl. unfold restoreSpellslot. run.
    destruct (Z.gtb_spec L (getCurrentHitDice a)); [lia|].
    rewrite He, Hsl. eexists. reflexivity.
Qed.

Lemma restoreSpellslot_spec_witness :
  exists a' t,
    restoreSpellslot "e1" 1 ezren = (Done true, a', t) /\
    getCurrentHitDice a' = 1.
Proof.
  destruct (restoreSpellslot_spec "e1" 1 ezren) as (_ & _ & H & _).
  destruct (H (mkItem "e1" "Arcane Prepared Spells" "spellcastingEntry" None
                 None false
                 (Some {[ "slot1" := mkSlot 1 3; "slot2" := mkSlot 2 2 ]}))
              {[ "slot1" := mkSlot 1 3; "slot2" := mkSlot 2 2 ]})
    as (_ & Hslot).
  - unfold getCurrentHitDice; simpl; lia.
  - reflexivity.
  - reflexivity.
  - destruct (Hslot (mkSlot 1 3)) as (_ & Hok); [reflexivity|].
    destruct Hok as (a' & t & e' & Hrun & _ & _ & _ & _ & Hpool).
    + simpl; lia.
    + exists a', t. split; [exact Hrun|].
      rewrite Hpool; unfold getCurrentHitDice, getMaxHitDice; simpl; lia.
Defined.

(** ** A small program logic for the rest procedures

    The rules of [run_at], one per construct of the monad, for a frame [I]
    that is reflexive and transitive. *)
Section RunAt.
Variable I : Actor -> Actor -> Prop.
Variable P : Event -> Prop.
Hypothesis I_refl : forall s, I s s.
Hypothesis I_trans : forall s1 s2 s3, I s1 s2 -> I s2 s3 -> I s1 s3.

Lemma run_at_ret {A} (Q : A -> Prop) (x : A) (s : Actor) :
  Q x -> run_at I P Q (mret x) s.
Proof. intros HQ. exists x, s, []. auto. Qed.

Lemma run_at_emit (Q : unit -> Prop) (e : Event) (s : Actor) :
  P e -> Q tt -> run_at I P Q (emit e) s.
Proof. intros HP HQ. exists tt, s, [e]. repeat split; auto. Qed.

Lemma run_at_modify (Q : unit -> Prop) (f : Actor -> Actor) (s : Actor) :
  I s (f s) -> Q tt -> run_at I P Q (modify f) s.
Proof. intros HI HQ. exists tt, (f s), []. repeat split; auto. Qed.

Lemma run_at_bind {A B} (Q1 : A -> Prop) (Q : B -> Prop)
    (m : M A) (k : A -> M B) (s : Actor) :
  run_at I P Q1 m s ->
  (forall x s', Q1 x -> run_at I P Q (k x) s') ->
  run_at I P Q (m ≫= k) s.
Proof.
  intros (x & s1 & t1 & Hm & HI1 & HP1 & HQ1) Hk.
  destruct (Hk x s1 HQ1) as (y & s2 & t2 & Hkx & HI2 & HP2 & HQ2).
  exists y, s2, (t1 ++ t2).
  unfold mbind, M_bind. rewrite Hm, Hkx.
  repeat split; eauto. apply Forall_app; auto.
Qed.

(** A read followed by the rest: the value read is the one of [s]. *)
Lemma run_at_gets_bind {A B} (Q : B -> Prop)
    (f : Actor -> A) (k : A -> M B) (s : Actor) :
  run_at I P Q (k (f s)) s -> run_at I P Q (gets f ≫= k) s.
Proof.
  intros (y & s2 & t2 & Hk & HI2 & HP2 & HQ2).
  exists y, s2, t2. unfold mbind, M_bind, gets. rewrite Hk. auto.
Qed.

(** A call made at [s] followed by the rest. *)
Lemma run_at_seq_at {A B} (Q : B -> Prop)
    (m : M A) (k : A -> M B) (s s1 : Actor) (x : A) (t1 : list Event) :
  m s = (Done x, s1, t1) -> I s s1 -> Forall P t1 ->
  run_at I P Q (k x) s1 ->
  run_at I P Q (m ≫= k) s.
Proof.
  intros Hm HI1 HP1 (y & s2 & t2 & Hk & HI2 & HP2 & HQ2).
  exists y, s2, (t1 ++ t2). unfold mbind, M_bind. rewrite Hm, Hk.
  repeat split; eauto. apply Forall_app; auto.
Qed.

(** A host call that only leaves a trace, followed by the rest. *)
Lemma run_at_emit_bind {B} (Q : B -> Prop)
    (e : Event) (k : unit -> M B) (s : Actor) :
  P e -> run_at I P Q (k tt) s -> run_at I P Q (emit e ≫= k) s.
Proof.
  intros He Hk.
  eapply run_at_seq_at; [reflexivity | apply I_refl | | exact Hk].
  repeat constructor. exact He.
Qed.

Lemma run_at_for_each {A S} (Q : S -> Prop)
    (body : A -> S -> M S) (xs : list A) :
  (forall x acc s, x ∈ xs -> Q acc -> run_at I P Q (body x acc) s) ->
  forall acc s, Q acc -> run_at I P Q (for_each xs body acc) s.
Proof.
  induction xs as [| x xs IH]; intros Hbody acc s Hacc; simpl.
  - apply run_at_ret. exact Hacc.
  - eapply run_at_bind.
    + apply Hbody; [left | exact Hacc].
    + intros acc' s' Hacc'. apply IH; [|exact Hacc'].
      intros y a0 s0 Hy. apply Hbody. now right.
Qed.
End RunAt.

(** ** Frames of the Long Rest steps *)

Lemma items_rel_refl (l : list Item) : items_rel l l.
Proof. intros id Hid. auto. Qed.

Lemma items_rel_trans (l1 l2 l3 : list Item) :
  items_rel l1 l2 -> items_rel l2 l3 -> items_rel l1 l3.
Proof.
  intros H12 H23 id Hid.
  destruct (H12 id Hid) as [E12 Hid2].
  destruct (H23 id Hid2) as [E23 Hid3].
  split; [congruence | exact Hid3].
Qed.

Lemma frame_refl (s : Actor) : frame s s.
Proof. do 6 (split; [reflexivity|]). apply items_rel_refl. Qed.

Lemma frame_trans (s1 s2 s3 : Actor) :
  frame s1 s2 -> frame s2 s3 -> frame s1 s3.
Proof.
  intros (A1 & A2 & A3 & A4 & A5 & A6 & A7) (B1 & B2 & B3 & B4 & B5 & B6 & B7).
  do 6 (split; [congruence|]).
  eapply items_rel_trans; eauto.
Qed.

Lemma frame_c_refl (s : Actor) : frame_c s s.
Proof. split; [apply frame_refl | reflexivity]. Qed.

Lemma frame_c_trans (s1 s2 s3 : Actor) :
  frame_c s1 s2 -> frame_c s2 s3 -> frame_c s1 s3.
Proof.
  intros [F1 C1] [F2 C2]. split; [eapply frame_trans; eauto | congruence].
Qed.

Lemma temporary_ids_alter (f : Item -> Item) (id : string) (l : list Item) :
  (forall i, item_id (f i) = item_id i) ->
  (forall i, temporary (f i) = temporary i) ->
  temporary_ids (items_alter f id l) = temporary_ids l.
Proof.
  intros Hid Htmp. unfold temporary_ids.
  induction l as [| i l IH]; simpl; [reflexivity|].
  destruct (String.eqb (item_id i) id).
  - rewrite !filter_cons, Htmp.
    destruct (decide (temporary i)); simpl; [rewrite Hid|]; reflexivity.
  - rewrite !filter_cons.
    destruct (decide (temporary i)); simpl; [f_equal|]; exact IH.
Qed.

Lemma items_rel_alter (c : Z) (id : string) (l : list Item) :
  items_rel l (items_alter (Host.apply_item_change (FrequencyValue c)) id l).
Proof.
  intros id' Hid'. split.
  - destruct (decide (id = id')) as [<- | Hne].
    + rewrite items_get_alter_eq by apply apply_item_change_id.
      destruct (items_get id l); reflexivity.
    + rewrite items_get_alter_ne; auto using apply_item_change_id.
  - rewrite temporary_ids_alter; auto using apply_item_change_id.
Qed.

Lemma items_get_filter (ids : list string) (id : string) (l : list Item) :
  id ∉ ids ->
  items_get id (filter (fun i => item_id i ∉ ids) l) = items_get id l.
Proof.
  intros Hid. induction l as [| i l IH]; [reflexivity|].
  rewrite filter_cons. simpl.
  destruct (String.eqb (item_id i) id) eqn:E.
  - apply String.eqb_eq in E.
    destruct (decide (item_id i ∉ ids)) as [_ | Hin].
    + simpl. rewrite (proj2 (String.eqb_eq _ _) E). reflexivity.
    + exfalso. apply Hin. now rewrite E.
  - destruct (decide (item_id i ∉ ids)); [simpl; rewrite E|]; exact IH.
Qed.

Lemma temporary_ids_filter (Q : Item -> Prop) `{forall i, Decision (Q i)}
    (id : string) (l : list Item) :
  id ∉ temporary_ids l -> id ∉ temporary_ids (filter Q l).
Proof.
  unfold temporary_ids. intros Hid Hin. apply Hid.
  apply list_elem_of_fmap in Hin as (i & -> & Hi).
  apply list_elem_of_filter in Hi as [Htmp Hi].
  apply list_elem_of_filter in Hi as [_ Hi].
  apply list_elem_of_fmap_2, list_elem_of_filter. auto.
Qed.

Lemma items_rel_delete (l : list Item) :
  items_rel l (filter (fun i => item_id i ∉ temporary_ids l) l).
Proof.
  intros id Hid. split.
  - now rewrite items_get_filter.
  - now apply temporary_ids_filter.
Qed.

Ltac ra_side :=
  first [ exact frame_refl | exact frame_trans
        | exact frame_c_refl | exact frame_c_trans ].

(** One step through the structure of a procedure. *)
Ltac ra_step :=
  lazymatch goal with
  | |- run_at _ _ _ (mret _) _ => apply run_at_ret; [ra_side|]
  | |- run_at _ _ _ (emit _) _ => apply run_at_emit; [ra_side| |]
  | |- run_at _ _ _ (modify _) _ => apply run_at_modify
  | |- run_at _ _ _ (mbind _ (gets _)) _ => apply run_at_gets_bind; cbn beta
  | |- run_at _ _ _ (mbind _ (emit _)) _ =>
      apply run_at_emit_bind; [ra_side | ra_side | repeat split |]
  | |- run_at _ _ _ (mbind _ (if ?b then _ else _)) _ => destruct b eqn:?
  | |- run_at _ _ _ (if ?b then _ else _) _ => destruct b eqn:?
  | |- run_at _ _ _ (match ?o with Some _ => _ | None => _ end) _ =>
      destruct o eqn:?
  | |- run_at _ _ _ (mbind _ _) _ =>
      eapply run_at_bind; [ra_side | | intros ? ? ?]
  end.

Lemma frame_set_conditions (c : gmap string (option Z)) (s : Actor) :
  frame s (set_conditions c s).
Proof. do 6 (split; [reflexivity|]). apply items_rel_refl. Qed.

Lemma frame_c_set_dailyCraftingComplete (b : bool) (s : Actor) :
  frame_c s (set_dailyCraftingComplete b s).
Proof.
  split; [|reflexivity].
  do 6 (split; [reflexivity|]). apply items_rel_refl.
Qed.

Lemma frame_c_set_items (l : list Item) (s : Actor) :
  items_rel (items s) l -> frame_c s (set_items l s).
Proof.
  intros Hrel. split; [|reflexivity].
  do 6 (split; [reflexivity|]). exact Hrel.
Qed.

Lemma decreaseCondition_frame (slug : string) (force : bool) (s : Actor) :
  run_at frame early (fun _ => True) (Host.decreaseCondition slug force) s.
Proof.
  unfold Host.decreaseCondition.
  ra_step. ra_step; [apply frame_set_conditions | exact I].
Qed.

Lemma item_update_frame (id : string) (v : Z) (render : bool) (s : Actor) :
  run_at frame_c early (fun _ => True)
    (Host.item_update id (FrequencyValue v) render) s.
Proof.
  unfold Host.item_update.
  ra_step. ra_step; [apply frame_c_set_items, items_rel_alter | exact I].
Qed.

Lemma setFlag_dailyCraftingComplete_frame (b : bool) (s : Actor) :
  run_at frame_c early (fun _ => True)
    (Host.setFlag_dailyCraftingComplete b) s.
Proof.
  unfold Host.setFlag_dailyCraftingComplete.
  ra_step. ra_step; [apply frame_c_set_dailyCraftingComplete | exact I].
Qed.

Lemma deleteEmbeddedDocuments_frame (s : Actor) :
  run_at frame_c early (fun _ => True)
    (Host.deleteEmbeddedDocuments (temporary_ids (items s))) s.
Proof.
  unfold Host.deleteEmbeddedDocuments.
  ra_step. ra_step; [apply frame_c_set_items, items_rel_delete | exact I].
Qed.

(** *** The condition step *)

Lemma decreaseByOne_frame (slug label : string) (msgs : list Msg) (s : Actor) :
  run_at frame early (fun msgs' => msgs `prefix_of` msgs')
    (decreaseByOne slug label msgs) s.
Proof.
  unfold decreaseByOne.
  repeat ra_step; try apply decreaseCondition_frame;
    try (apply prefix_app_r; reflexivity); reflexivity.
Qed.

Lemma handleRestConditions_frame (msgs : list Msg) (s : Actor) :
  run_at frame early (fun msgs' => msgs `prefix_of` msgs')
    (_handleRestConditions msgs) s.
Proof.
  unfold _handleRestConditions.
  ra_step.
  eapply run_at_bind with (Q1 := fun m1 => msgs `prefix_of` m1);
    [ra_side | | intros m1 s1 H1].
  { repeat ra_step; try apply decreaseCondition_frame;
      try (apply prefix_app_r; reflexivity); reflexivity. }
  eapply run_at_bind; [ra_side | apply decreaseByOne_frame | intros m2 s2 H2].
  eapply run_at_bind; [ra_side | apply decreaseByOne_frame | intros m3 s3 H3].
  assert (H : msgs `prefix_of` m3) by (etrans; [|etrans]; eassumption).
  repeat ra_step; try apply decreaseCondition_frame;
    try (apply prefix_app_r; exact H); exact H.
Qed.

(** *** The daily refresh *)

Lemma refreshDailyResources_frame (msgs : list Msg) (u : gmap string Z)
    (s : Actor) :
  run_at frame_c early (daily_result msgs u) (_refreshDailyResources msgs u) s.
Proof.
  unfold _refreshDailyResources.
  ra_step.
  eapply run_at_bind with (Q1 := fun _ => True); [ra_side | | intros d1 s1 _].
  { apply run_at_for_each; [ra_side | ra_side | | exact I].
    intros wand acc s0 _ _.
    repeat ra_step; try apply item_update_frame; exact I. }
  ra_step.
  match goal with
  | |- run_at _ _ _ (let '(_, _) := ?p in _) _ =>
      assert (Hp : msgs `prefix_of` p.1 /\
                   forall k, k <> reagents_path -> p.2 !! k = u !! k);
        [| destruct p as [messages updates]; destruct Hp as [Hm Hu];
           cbn [fst snd] in Hm, Hu]
  end.
  { destruct (infusedReagents s1) as [r|];
      [destruct (res_value r <? res_max r)|]; cbn [fst snd];
      (split; [try reflexivity; apply prefix_app_r; reflexivity|]);
      intros k Hk; try reflexivity.
    apply lookup_insert_ne. intros E. apply Hk. symmetry. exact E. }
  ra_step.
  eapply run_at_bind with (Q1 := fun _ => True); [ra_side | | intros _ s2 _].
  { repeat ra_step; try apply setFlag_dailyCraftingComplete_frame; exact I. }
  ra_step.
  eapply run_at_bind with (Q1 := fun _ => True); [ra_side | | intros d2 s3 _].
  { apply run_at_for_each; [ra_side | ra_side | | exact I].
    intros item acc s0 _ _.
    repeat ra_step; try apply item_update_frame; exact I. }
  ra_step.
  eapply run_at_bind with (Q1 := fun m => messages `prefix_of` m);
    [ra_side | | intros m0 s4 Hm0].
  { destruct (0 <? length _)%nat.
    - eapply run_at_bind with (Q1 := fun _ => True);
        [ra_side | apply deleteEmbeddedDocuments_frame | intros _ s4 _].
      ra_step. apply prefix_app_r. reflexivity.
    - ra_step. reflexivity. }
  ra_step. split; cbn [fst snd]; [| exact Hu].
  destruct Hm as [k1 ->]. destruct Hm0 as [k2 ->].
  destruct d2.
  - exists (k1 ++ k2 ++ [DailyResourcesReset]).
    rewrite <- !app_assoc. reflexivity.
  - exists (k1 ++ k2). rewrite <- !app_assoc. reflexivity.
Qed.

(** *** The batched update *)

Lemma apply_updates_frame (u : gmap string Z) (s : Actor) :
  level (Host.apply_updates u s) = level s /\
  hp_max (Host.apply_updates u s) = hp_max s /\
  hd_current (Host.apply_updates u s) = hd_current s /\
  conditions (Host.apply_updates u s) = conditions s /\
  items (Host.apply_updates u s) = items s /\
  sheet_rendered (Host.apply_updates u s) = sheet_rendered s /\
  (u !! hp_path = None -> hp_value (Host.apply_updates u s) = hp_value s).
Proof.
  unfold Host.apply_updates, hp_path.
  destruct (u !! "system.attributes.hp.value");
    destruct (u !! "system.resources.focus.value");
    destruct (u !! "system.resources.crafting.infusedReagents.value");
    repeat split; try reflexivity; discriminate.
Qed.

(** *** Steps 1 and 2 of Long Rest *)

Lemma focus_stage_updates (hd : Replenished) (f : option Resource) (k : string) :
  k <> focus_path -> (focus_stage hd f).2 !! k = None.
Proof.
  intros Hk. unfold focus_stage.
  destruct f as [f|]; [destruct (res_max f >? 0);
    [destruct (res_value f <? res_max f)|]|]; cbn [snd];
    try apply lookup_empty.
  rewrite lookup_insert_ne by congruence. apply lookup_empty.
Qed.

(** *** The run of [performLongRest], step by step *)

Lemma performLongRest_run (s : Actor) :
  exists hd s0 t0 m1 u1 m2 s2 t2 m3 u3 s3 t3,
    replenishHitDice s = (Done hd, s0, t0) /\
    (m1, u1) = focus_stage hd (focus s0) /\
    _handleRestConditions m1 s0 = (Done m2, s2, t2) /\
    frame s0 s2 /\ Forall early t2 /\ m1 `prefix_of` m2 /\
    _refreshDailyResources m2 u1 s2 = (Done (m3, u3), s3, t3) /\
    frame_c s2 s3 /\ Forall early t3 /\ daily_result m2 u1 (m3, u3) /\
    longRestSteps s = (Done (m3, u3), s3, t0 ++ t2 ++ t3) /\
    performLongRest s =
      (Done tt,
       (if (0 <? size u3)%nat then Host.apply_updates u3 s3 else s3),
       t0 ++ t2 ++ t3 ++ batched u3 ++ [EvChatRest LongRest m3] ++ refreshed s3).
Proof.
  assert (Hrep : exists hd s0 t0, replenishHitDice s = (Done hd, s0, t0)).
  { destruct (replenishHitDice_cases s) as [[_ ->] | [_ ->]]; eauto. }
  destruct Hrep as (hd & s0 & t0 & Hrep).
  destruct (focus_stage hd (focus s0)) as [m1 u1] eqn:Hfocus.
  destruct (handleRestConditions_frame m1 s0)
    as (m2 & s2 & t2 & H2 & F2 & P2 & Q2).
  destruct (refreshDailyResources_frame m2 u1 s2)
    as ([m3 u3] & s3 & t3 & H3 & F3 & P3 & Q3).
  assert (Hsteps : longRestSteps s = (Done (m3, u3), s3, t0 ++ t2 ++ t3)).
  { unfold longRestSteps. cbv [mbind M_bind gets]. rewrite Hrep.
    unfold focus_stage, focus_path in Hfocus.
    cbn [app]. rewrite Hfocus.
    rewrite H2, H3. cbn [app]. reflexivity. }
  exists hd, s0, t0, m1, u1, m2, s2, t2, m3, u3, s3, t3.
  do 10 (split; [first [assumption | symmetry; assumption]|]).
  split; [exact Hsteps|].
  unfold performLongRest. cbv [mbind M_bind]. rewrite Hsteps.
  unfold batched, refreshed, _sendRestChatMessage. run.
  destruct (0 <? size u3)%nat.
  - destruct (apply_updates_frame u3 s3) as (_ & _ & _ & _ & _ & -> & _).
    destruct (sheet_rendered s3); cbn [app];
      rewrite <- ?app_assoc; reflexivity.
  - destruct (sheet_rendered s3); cbn [app];
      rewrite <- ?app_assoc; reflexivity.
Qed.

Lemma replenishHitDice_frame (s s0 : Actor) (hd : Replenished) (t0 : list Event) :
  replenishHitDice s = (Done hd, s0, t0) ->
  level s0 = level s /\ hp_value s0 = hp_value s /\ hp_max s0 = hp_max s /\
  items s0 = items s /\ conditions s0 = conditions s /\
  focus s0 = focus s /\
  (hd_current s0 = hd_current s \/
   hd_current s0 = Some (clamped s (getMaxHitDice s))) /\
  Forall early t0.
Proof.
  intros Hrun.
  destruct (replenishHitDice_cases s) as [[_ H] | [_ H]];
    rewrite H in Hrun; injection Hrun as <- <- <-;
    repeat split; auto; repeat constructor.
Qed.

Lemma steps_leave_hp_path (hd : Replenished) (f : option Resource)
    (m1 m2 m3 : list Msg) (u1 u3 : gmap string Z) :
  (m1, u1) = focus_stage hd f ->
  daily_result m2 u1 (m3, u3) ->
  u3 !! hp_path = None.
Proof.
  intros Hf [_ Hu]. cbn [snd] in Hu.
  rewrite Hu by discriminate.
  change u1 with (m1, u1).2. rewrite Hf.
  apply focus_stage_updates. discriminate.
Qed.

(** What Long Rest leaves alone, whatever the character. *)
Lemma performLongRest_frame (s : Actor) :
  exists s' t,
    performLongRest s = (Done tt, s', t) /\
    level s' = level s /\
    hp_value s' = hp_value s /\
    hp_max s' = hp_max s /\
    hd_current s' = hd_current (actor_of (replenishHitDice s)) /\
    items_rel (items s) (items s').
Proof.
  destruct (performLongRest_run s)
    as (hd & s0 & t0 & m1 & u1 & m2 & s2 & t2 & m3 & u3 & s3 & t3 &
        Hrep & Hf & _ & F2 & _ & _ & _ & [F3 _] & _ & Q3 & _ & Hrun).
  destruct (replenishHitDice_frame _ _ _ _ Hrep)
    as (L0 & V0 & X0 & I0 & _ & _ & _ & _).
  destruct F2 as (L2 & V2 & X2 & D2 & _ & _ & I2).
  destruct F3 as (L3 & V3 & X3 & D3 & _ & _ & I3).
  assert (Hhp : u3 !! hp_path = None)
    by (eapply steps_leave_hp_path; eauto).
  destruct (apply_updates_frame u3 s3) as (LU & XU & DU & _ & IU & _ & VU).
  eexists _, _. split; [exact Hrun|].
  rewrite Hrep. unfold actor_of; cbn [fst snd].
  assert (Hrel : items_rel (items s) (items s3)).
  { rewrite <- I0. eapply items_rel_trans; eauto. }
  destruct (0 <? size u3)%nat.
  - rewrite LU, XU, DU, IU, VU by exact Hhp.
    do 4 (split; [congruence|]). exact Hrel.
  - do 4 (split; [congruence|]). exact Hrel.
Qed.

(** ** Long Rest: HP and spell slots *)

(** Claim C4, as stated, fails for a spellcasting entry that is flagged
    temporary: Long Rest deletes every temporary item, whatever its type, so
    the entry of [borrowed] is gone afterwards, its slots with it, while the
    summary states that spell slots are unchanged. *)
Lemma longRest_slots_counterexample :
  (exists e, items_get "s1" (items borrowed) = Some e /\
             slots e = Some {[ "slot1" := mkSlot 1 2 ]}) /\
  performLongRest borrowed =
    (Done tt,
     set_items [] borrowed,
     [ EvDeleteItems ["s1"];
       EvChatRest LongRest
         [ HitDiceAlreadyFull; TemporaryItemsExpired; HPUnchanged;
           SpellSlotsUnchanged ] ]) /\
  items_get "s1" (items (actor_of (performLongRest borrowed))) = None.
Proof.
  split; [eexists; split; reflexivity|].
  split; vm_compute; reflexivity.
Qed.

(** Claim C4 (amended).  For every character, Long Rest resolves, leaves the
    current HP unchanged, leaves every spell slot of every item unchanged
    whose id is not the id of an item flagged temporary, and the summary it
    posts ends with the line stating that HP is unchanged and the line
    stating that spell slots are unchanged. *)
Theorem longRest_leaves_hp_and_slots (a : Actor) :
  exists a' t msgs,
    performLongRest a = (Done tt, a', t) /\
    hp_value a' = hp_value a /\
    (forall id e,
       items_get id (items a) = Some e ->
       id ∉ temporary_ids (items a) ->
       exists e', items_get id (items a') = Some e' /\ slots e' = slots e) /\
    EvChatRest LongRest msgs ∈ t /\
    (exists more, msgs = more ++ [HPUnchanged; SpellSlotsUnchanged]) /\
    HPUnchanged ∈ msgs /\ SpellSlotsUnchanged ∈ msgs.
Proof.
  destruct (performLongRest_frame a)
    as (a' & t & Hrun & _ & Hhp & _ & _ & Hrel).
  destruct (performLongRest_run a)
    as (hd & s0 & t0 & m1 & u1 & m2 & s2 & t2 & m3 & u3 & s3 & t3 &
        _ & _ & _ & _ & _ & _ & _ & _ & _ & [[more Hm] _] & _ & Hrun').
  cbn [fst] in Hm.
  rewrite Hrun in Hrun'. injection Hrun' as Ha' Ht.
  exists a', t, m3. split; [exact Hrun|]. split; [exact Hhp|]. split.
  - intros id e He Hid. destruct (Hrel id Hid) as [Hslots _].
    rewrite He in Hslots.
    destruct (items_get id (items a')) as [e'|]; [|discriminate].
    exists e'. split; [reflexivity|]. simpl in Hslots. congruence.
  - split; [|split; [|split]].
    + rewrite Ht. rewrite !elem_of_app. do 4 right.
      apply elem_of_cons. now left.
    + exists (m2 ++ more). rewrite Hm, <- app_assoc. reflexivity.
    + rewrite Hm, !elem_of_app. do 2 right. apply elem_of_cons. now left.
    + rewrite Hm, !elem_of_app. do 2 right.
      apply elem_of_cons. right. apply list_elem_of_singleton. reflexivity.
Qed.

Lemma longRest_leaves_hp_and_slots_witness :
  exists a' t,
    performLongRest ezren = (Done tt, a', t) /\
    hp_value a' = 10 /\
    exists e', items_get "e1" (items a') = Some e' /\
               slots e' = Some {[ "slot1" := mkSlot 1 3; "slot2" := mkSlot 2 2 ]}.
Proof.
  destruct (longRest_leaves_hp_and_slots ezren)
    as (a' & t & msgs & Hrun & Hhp & Hslots & _).
  exists a', t. split; [exact Hrun|]. split; [exact Hhp|].
  apply (Hslots "e1"
           (mkItem "e1" "Arcane Prepared Spells" "spellcastingEntry" None None
              false (Some {[ "slot1" := mkSlot 1 3; "slot2" := mkSlot 2 2 ]}))).
  - reflexivity.
  - intros H. apply list_elem_of_In in H. vm_compute in H.
    intuition discriminate.
Defined.

(** ** Long Rest: the condition scenario *)

Lemma hasCondition_true (slug : string) (s : Actor) (v : option Z) :
  conditions s !! slug = Some v -> Host.hasCondition slug s = true.
Proof.
  intros H. unfold Host.hasCondition. apply bool_decide_eq_true. eauto.
Qed.

(** [decreaseByOne] on a condition other than [k] leaves [k] as it is. *)
Lemma decreaseByOne_other (slug label k : string) (msgs : list Msg) (s : Actor) :
  slug <> k ->
  exists m c t,
    decreaseByOne slug label msgs s = (Done m, set_conditions c s, t) /\
    msgs `prefix_of` m /\
    c !! k = conditions s !! k /\
    (forall j, conditions s !! j = None -> c !! j = None).
Proof.
  intros Hne. unfold decreaseByOne. run.
  destruct (Host.hasCondition slug s).
  - unfold Host.getCondition.
    destruct (value_le_1 (conditions s !! slug)); cbn [app].
    + eexists _, _, _. split; [reflexivity|].
      split; [apply prefix_app_r; reflexivity|].
      unfold Host.decrease. split.
      * apply lookup_delete_ne. exact Hne.
      * intros j Hj. rewrite lookup_delete. case_decide; auto.
    + eexists _, _, _. split; [reflexivity|].
      split; [apply prefix_app_r; reflexivity|].
      unfold Host.decrease.
      destruct (conditions s !! slug) as [[v|]|] eqn:E.
      * destruct (1 <=? v - 1); split.
        -- apply lookup_insert_ne. exact Hne.
        -- intros j Hj. rewrite lookup_insert_ne; [exact Hj|].
           intros ->. congruence.
        -- apply lookup_delete_ne. exact Hne.
        -- intros j Hj. rewrite lookup_delete. case_decide; auto.
      * split; [apply lookup_delete_ne; exact Hne|].
        intros j Hj. rewrite lookup_delete. case_decide; auto.
      * split; auto.
  - exists msgs, (conditions s), []. split.
    + destruct s; reflexivity.
    + split; [reflexivity|]. split; auto.
Qed.

Lemma decreaseByOne_remove (slug label : string) (msgs : list Msg) (s : Actor)
    (v : Z) :
  conditions s !! slug = Some (Some v) -> v <= 1 ->
  decreaseByOne slug label msgs s =
    (Done (msgs ++ [ConditionRemoved label]),
     set_conditions (delete slug (conditions s)) s,
     [EvDecreaseCondition slug true]).
Proof.
  intros Hc Hv. unfold decreaseByOne. run.
  rewrite (hasCondition_true slug s _ Hc).
  unfold Host.getCondition. rewrite Hc. cbn [value_le_1].
  destruct (Z.leb_spec v 1); [|lia].
  reflexivity.
Qed.

(** The condition step on a character that is fatigued, doomed 1 and
    wounded below max HP. *)
Lemma handleRestConditions_scenario (msgs : list Msg) (s : Actor)
    (f w : option Z) :
  conditions s !! "fatigued" = Some f ->
  conditions s !! "doomed" = Some (Some 1) ->
  conditions s !! "wounded" = Some w ->
  hp_value s < hp_max s ->
  exists m c t,
    _handleRestConditions msgs s = (Done m, set_conditions c s, t) /\
    c !! "fatigued" = None /\
    c !! "doomed" = None /\
    c !! "wounded" = Some w /\
    EvDecreaseCondition "fatigued" true ∈ t /\
    EvDecreaseCondition "doomed" true ∈ t /\
    ConditionRemoved "Fatigued" ∈ m /\
    ConditionRemoved "Doomed" ∈ m /\
    WoundsNotHealed ∈ m.
Proof.
  intros Hf Hd Hw Hhp.
  unfold _handleRestConditions. cbv [mbind M_bind gets].
  rewrite (hasCondition_true "fatigued" s f Hf). run.
  set (s1 := set_conditions _ s).
  assert (Hd1 : conditions s1 !! "doomed" = Some (Some 1)).
  { subst s1. cbn [conditions set_conditions]. unfold Host.decrease.
    rewrite lookup_delete_ne by discriminate. exact Hd. }
  rewrite (decreaseByOne_remove "doomed" "Doomed" _ s1 1 Hd1) by lia.
  set (s2 := set_conditions _ s1).
  destruct (decreaseByOne_other "drained" "Drained" "wounded"
              ((msgs ++ [ConditionRemoved "Fatigued"]) ++
               [ConditionRemoved "Doomed"]) s2)
    as (m3 & c3 & t3 & E3 & [more ->] & Hw3 & Hnone3); [discriminate|].
  rewrite E3.
  assert (Hw' : c3 !! "wounded" = Some w).
  { rewrite Hw3. subst s2 s1. cbn [conditions set_conditions].
    unfold Host.decrease. rewrite !lookup_delete_ne by discriminate.
    exact Hw. }
  rewrite (hasCondition_true "wounded" (set_conditions c3 s2) w)
    by exact Hw'.
  change (hp_value (set_conditions c3 s2)) with (hp_value s).
  change (hp_max (set_conditions c3 s2)) with (hp_max s).
  destruct (Z.geb_spec (hp_value s) (hp_max s)); [lia|].
  eexists _, c3, _. split; [reflexivity|].
  split; [|split; [|split; [exact Hw'|]]].
  - apply Hnone3. subst s2 s1. cbn [conditions set_conditions].
    unfold Host.decrease.
    rewrite lookup_delete_ne by discriminate. apply lookup_delete_eq.
  - apply Hnone3. subst s2. cbn [conditions set_conditions].
    apply lookup_delete_eq.
  - rewrite ?elem_of_app, ?elem_of_cons. repeat split; auto 10.
    all: rewrite ?elem_of_app, ?elem_of_cons, ?list_elem_of_singleton;
      auto 10.
Qed.

Lemma getCurrentHitDice_ext (s s' : Actor) :
  level s' = level s -> hd_current s' = hd_current s ->
  getCurrentHitDice s' = getCurrentHitDice s /\
  getMaxHitDice s' = getMaxHitDice s.
Proof.
  intros Hl Hd. unfold getCurrentHitDice, getMaxHitDice.
  rewrite Hl, Hd. auto.
Qed.

(** Claim C6, as stated, fails on a character whose stored hit dice exceed
    max: [demoted] is fatigued, doomed 1 and wounded below max HP, and after
    Long Rest its pool is still 5 while max is 2. *)
Lemma longRest_scenario_counterexample :
  conditions demoted !! "fatigued" = Some None /\
  conditions demoted !! "doomed" = Some (Some 1) /\
  conditions demoted !! "wounded" = Some (Some 1) /\
  hp_value demoted < hp_max demoted /\
  outcome_of (performLongRest demoted) = Done tt /\
  getCurrentHitDice (actor_of (performLongRest demoted)) = 5 /\
  getMaxHitDice (actor_of (performLongRest demoted)) = 2 /\
  getCurrentHitDice (actor_of (performLongRest demoted))
    <> getMaxHitDice (actor_of (performLongRest demoted)).
Proof. repeat split; vm_compute; congruence. Qed.

(** Claim C6 (amended).  Long Rest on a character that is fatigued, doomed
    at severity 1 and wounded with current HP < max HP, and whose hit-dice
    pool does not exceed a non-negative max: fatigued is removed, doomed is
    removed, wounded stays (the summary reports that the wounds have not
    healed), the hit-dice pool ends at max and HP is unchanged. *)
Theorem longRest_scenario (a : Actor) (f w : option Z) :
  conditions a !! "fatigued" = Some f ->
  conditions a !! "doomed" = Some (Some 1) ->
  conditions a !! "wounded" = Some w ->
  hp_value a < hp_max a ->
  0 <= getMaxHitDice a ->
  getCurrentHitDice a <= getMaxHitDice a ->
  exists a' t msgs,
    performLongRest a = (Done tt, a', t) /\
    conditions a' !! "fatigued" = None /\
    conditions a' !! "doomed" = None /\
    conditions a' !! "wounded" = Some w /\
    EvDecreaseCondition "fatigued" true ∈ t /\
    EvDecreaseCondition "doomed" true ∈ t /\
    EvChatRest LongRest msgs ∈ t /\
    ConditionRemoved "Fatigued" ∈ msgs /\
    ConditionRemoved "Doomed" ∈ msgs /\
    WoundsNotHealed ∈ msgs /\
    getCurrentHitDice a' = getMaxHitDice a' /\
    getMaxHitDice a' = getMaxHitDice a /\
    hp_value a' = hp_value a.
Proof.
  intros Hf Hd Hw Hhp Hmax Hpool.
  destruct (performLongRest_frame a)
    as (a' & t & Hrun & Hlvl & Hhpv & _ & Hdice & _).
  destruct (performLongRest_run a)
    as (hd & s0 & t0 & m1 & u1 & m2 & s2 & t2 & m3 & u3 & s3 & t3 &
        Hrep & _ & H2 & _ & _ & _ & _ & [_ C3] & _ & [[more Hm] _] & _ & Hrun').
  cbn [fst] in Hm.
  rewrite Hrun in Hrun'. injection Hrun' as Ha' Ht.
  destruct (replenishHitDice_frame _ _ _ _ Hrep)
    as (_ & V0 & X0 & _ & C0 & _).
  destruct (handleRestConditions_scenario m1 s0 f w)
    as (m & c & tc & Hc & Cf & Cd & Cw & Ef & Ed & Mf & Md & Mw);
    try congruence.
  rewrite Hc in H2. injection H2 as <- <- <-.
  cbn [conditions set_conditions] in C3.
  assert (Hcond : conditions a' = c).
  { rewrite Ha'. destruct (0 <? size u3)%nat; [|exact C3].
    destruct (apply_updates_frame u3 s3) as (_ & _ & _ & -> & _). exact C3. }
  destruct (getCurrentHitDice_ext (actor_of (replenishHitDice a)) a')
    as [Hcur Hmx]; [rewrite Hrep; unfold actor_of; cbn [fst snd] | exact Hdice |].
  { destruct (replenishHitDice_frame _ _ _ _ Hrep) as (L0 & _). congruence. }
  exists a', t, m3. split; [exact Hrun|].
  rewrite Hcond.
  do 3 (split; [assumption|]).
  split; [rewrite Ht, !elem_of_app; auto|].
  split; [rewrite Ht, !elem_of_app; auto|].
  split; [rewrite Ht, !elem_of_app; do 4 right; apply elem_of_cons; now left|].
  do 3 (split; [rewrite Hm, !elem_of_app; auto|]).
  rewrite Hcur, Hmx.
  assert (Hto : getCurrentHitDice (actor_of (replenishHitDice a))
                = getMaxHitDice a) by now apply replenishHitDice_to_max.
  assert (Hmx0 : getMaxHitDice (actor_of (replenishHitDice a))
                 = getMaxHitDice a).
  { rewrite Hrep. unfold actor_of; cbn [fst snd].
    destruct (replenishHitDice_frame _ _ _ _ Hrep) as (L0 & _).
    unfold getMaxHitDice. now rewrite L0. }
  split; [congruence|]. split; [exact Hmx0 | exact Hhpv].
Qed.

Lemma longRest_scenario_witness :
  exists a' t,
    performLongRest ezren = (Done tt, a', t) /\
    conditions a' !! "fatigued" = None /\
    conditions a' !! "doomed" = None /\
    conditions a' !! "wounded" = Some (Some 1) /\
    getCurrentHitDice a' = 6 /\
    hp_value a' = 10.
Proof.
  destruct (longRest_scenario ezren None (Some 1))
    as (a' & t & msgs & Hrun & Cf & Cd & Cw & _ & _ & _ & _ & _ & _ &
        Hcur & Hmx & Hhp);
    try reflexivity.
  - unfold getMaxHitDice; simpl; lia.
  - unfold getCurrentHitDice, getMaxHitDice; simpl; lia.
  - exists a', t. rewrite Hcur, Hmx. repeat split; assumption.
Defined.

(** ** Long Rest: the batched update and the summary *)

Lemma count_events_app (p : Event -> bool) (t1 t2 : list Event) :
  count_events p (t1 ++ t2) = (count_events p t1 + count_events p t2)%nat.
Proof. induction t1 as [| e t1 IH]; simpl; [reflexivity | lia]. Qed.

Lemma count_events_none (p : Event -> bool) (t : list Event) :
  Forall (fun e => p e = false) t -> count_events p t = 0%nat.
Proof.
  induction 1 as [| e t He _ IH]; simpl; [reflexivity|].
  rewrite He, IH. reflexivity.
Qed.

Lemma early_no_actor_update (t : list Event) :
  Forall early t -> Forall (fun e => is_actor_update e = false) t.
Proof.
  intros Ht. eapply Forall_impl; [exact Ht|]. intros e (H & _). exact H.
Qed.

Lemma early_no_summary (t : list Event) :
  Forall early t -> Forall (fun e => is_summary e = false) t.
Proof.
  intros Ht. eapply Forall_impl; [exact Ht|]. intros e (_ & H & _). exact H.
Qed.

(** Claim C9, as stated, fails: besides the batched update of the
    character, Long Rest issues one [update] call per wand and per daily
    item it recharges.  For [ezren], who carries two wands, the trace holds
    three field-update calls, the two item updates coming first. *)
Lemma longRest_field_updates_counterexample :
  trace_of (performLongRest ezren) =
    [ EvSetFlag "hit-dice-healing" "current" (inl 6);
      EvDecreaseCondition "fatigued" true;
      EvDecreaseCondition "doomed" true;
      EvItemUpdate "w1" (FrequencyValue 1) false;
      EvItemUpdate "w2" (FrequencyValue 1) false;
      EvSetFlag "pf2e" "dailyCraftingComplete" (inr false);
      EvDeleteItems ["t1"];
      EvActorUpdate {[ focus_path := 2; reagents_path := 4 ]} false;
      EvChatRest LongRest
        [ HitDiceRestored 4; FocusRestored; ConditionRemoved "Fatigued";
          ConditionRemoved "Doomed"; WoundsNotHealed; InfusedReagentsRestored;
          TemporaryItemsExpired; DailyResourcesReset; HPUnchanged;
          SpellSlotsUnchanged ];
      EvSheetRender ] /\
  count_events is_field_update (trace_of (performLongRest ezren)) = 3%nat /\
  ~ (count_events is_field_update (trace_of (performLongRest ezren)) <= 1)%nat.
Proof.
  split; [vm_compute; reflexivity|].
  split; [vm_compute; reflexivity|].
  vm_compute. lia.
Qed.

(** Claim C9 (amended).  The field changes Long Rest accumulates in
    [updates] (the focus pool and the reagent pool) are written by one
    batched update of the character: at most one [actor.update] call per
    Long Rest, carrying exactly the accumulated map and made without
    re-rendering, made when the map is not empty and not made when it is
    empty.  Every other write to the store (the item updates of the
    recharges among them) comes before that call, and the one summary is
    emitted after all of them: no write to the store follows it. *)
Theorem longRest_single_batched_update (a : Actor) :
  exists a' t msgs u before after,
    performLongRest a = (Done tt, a', t) /\
    outcome_of (longRestSteps a) = Done (msgs, u) /\
    t = before ++ [EvChatRest LongRest msgs] ++ after /\
    (count_events is_actor_update t <= 1)%nat /\
    (forall u' r, EvActorUpdate u' r ∈ t -> u' = u /\ r = false) /\
    (u <> ∅ -> EvActorUpdate u false ∈ before) /\
    count_events is_summary t = 1%nat /\
    Forall (fun e => is_store_write e = false) after /\
    (u = ∅ -> forall u' r, EvActorUpdate u' r ∉ t) /\
    exists writes upd,
      before = writes ++ upd /\
      Forall (fun e => is_actor_update e = false) writes /\
      (u = ∅ -> upd = []) /\
      (u <> ∅ -> upd = [EvActorUpdate u false]) /\
      (forall id c r, EvItemUpdate id c r ∈ t -> EvItemUpdate id c r ∈ writes) /\
      (forall e, e ∈ t -> is_store_write e = true ->
                 is_actor_update e = false -> e ∈ writes).
Proof.
  destruct (performLongRest_run a)
    as (hd & s0 & t0 & m1 & u1 & m2 & s2 & t2 & m3 & u3 & s3 & t3 &
        Hrep & _ & _ & _ & P2 & _ & _ & _ & P3 & _ & Hsteps & Hrun).
  destruct (replenishHitDice_frame _ _ _ _ Hrep) as (_ & _ & _ & _ & _ & _ & _ & P0).
  assert (Pearly : Forall early (t0 ++ t2 ++ t3))
    by (repeat apply Forall_app_2; assumption).
  assert (Hbatch : (count_events is_actor_update (batched u3) <= 1)%nat /\
                   count_events is_summary (batched u3) = 0%nat /\
                   forall u' r, EvActorUpdate u' r ∈ batched u3 ->
                                u' = u3 /\ r = false).
  { unfold batched. destruct (0 <? size u3)%nat; simpl.
    - repeat split; try lia;
        apply list_elem_of_singleton in H; congruence.
    - repeat split; try lia; apply elem_of_nil in H; contradiction. }
  destruct Hbatch as (Hb1 & Hb2 & Hb3).
  assert (Hempty : (u3 = ∅ -> batched u3 = []) /\
                   (u3 <> ∅ -> batched u3 = [EvActorUpdate u3 false])).
  { unfold batched. split.
    - intros ->. rewrite map_size_empty. reflexivity.
    - intros Hne. destruct (0 <? size u3)%nat eqn:E; [reflexivity|].
      exfalso. apply Hne. apply map_size_empty_iff.
      apply Nat.ltb_ge in E. lia. }
  destruct Hempty as (He1 & He2).
  assert (Hafter : count_events is_actor_update (refreshed s3) = 0%nat /\
                   count_events is_summary (refreshed s3) = 0%nat /\
                   Forall (fun e => is_store_write e = false) (refreshed s3) /\
                   forall u' r, EvActorUpdate u' r ∉ refreshed s3).
  { unfold refreshed. destruct (sheet_rendered s3); simpl.
    - repeat split; [repeat constructor|].
      intros u' r H. apply list_elem_of_singleton in H. discriminate.
    - repeat split; [constructor|].
      intros u' r H. apply elem_of_nil in H. contradiction. }
  destruct Hafter as (Ha1 & Ha2 & Ha3 & Ha4).
  assert (Et : t0 ++ t2 ++ t3 ++ batched u3 ++ [EvChatRest LongRest m3] ++
                 refreshed s3
               = ((t0 ++ t2 ++ t3) ++ batched u3) ++
                 [EvChatRest LongRest m3] ++ refreshed s3)
    by (rewrite <- !app_assoc; reflexivity).
  rewrite Et in Hrun.
  assert (Hupd : forall u' r,
            EvActorUpdate u' r ∈ ((t0 ++ t2 ++ t3) ++ batched u3) ++
                                 [EvChatRest LongRest m3] ++ refreshed s3 ->
            EvActorUpdate u' r ∈ batched u3).
  { intros u' r Hin.
    assert (Hno : EvActorUpdate u' r ∉ t0 ++ t2 ++ t3).
    { intros H.
      pose proof (proj1 (Forall_forall _ _)
                    (early_no_actor_update _ Pearly) _ H) as Hno.
      discriminate. }
    apply elem_of_app in Hin as [Hin | Hin].
    - apply elem_of_app in Hin as [Hin | Hin]; [contradiction | exact Hin].
    - apply elem_of_app in Hin as [Hin | Hin].
      + apply list_elem_of_singleton in Hin. discriminate.
      + exfalso. eapply Ha4; eauto. }
  assert (Hwrites : forall e,
            e ∈ ((t0 ++ t2 ++ t3) ++ batched u3) ++
                [EvChatRest LongRest m3] ++ refreshed s3 ->
            is_store_write e = true -> is_actor_update e = false ->
            e ∈ t0 ++ t2 ++ t3).
  { intros e Hin Hw Hna.
    apply elem_of_app in Hin as [Hin | Hin].
    - apply elem_of_app in Hin as [Hin | Hin]; [exact Hin|].
      exfalso. unfold batched in Hin. destruct (0 <? size u3)%nat.
      + apply list_elem_of_singleton in Hin. subst e. discriminate.
      + apply elem_of_nil in Hin. contradiction.
    - exfalso. apply elem_of_app in Hin as [Hin | Hin].
      + apply list_elem_of_singleton in Hin. subst e. discriminate.
      + pose proof (proj1 (Forall_forall _ _) Ha3 _ Hin) as Hn. congruence. }
  exists (if (0 <? size u3)%nat then Host.apply_updates u3 s3 else s3),
    (((t0 ++ t2 ++ t3) ++ batched u3) ++
     [EvChatRest LongRest m3] ++ refreshed s3),
    m3, u3, ((t0 ++ t2 ++ t3) ++ batched u3), (refreshed s3).
  split; [exact Hrun|].
  split; [rewrite Hsteps; reflexivity|].
  split; [reflexivity|].
  split; [|split; [|split; [|split; [|split; [|split]]]]].
  - rewrite !count_events_app.
    rewrite (count_events_none _ t0), (count_events_none _ t2),
      (count_events_none _ t3) by (apply early_no_actor_update; assumption).
    rewrite Ha1. simpl. lia.
  - intros u' r Hin. apply Hb3, Hupd, Hin.
  - intros Hne. apply elem_of_app. right. rewrite (He2 Hne).
    apply list_elem_of_singleton. reflexivity.
  - rewrite !count_events_app.
    rewrite (count_events_none _ t0), (count_events_none _ t2),
      (count_events_none _ t3) by (apply early_no_summary; assumption).
    rewrite Hb2, Ha2. reflexivity.
  - exact Ha3.
  - intros Hu u' r Hin. apply Hupd in Hin. rewrite (He1 Hu) in Hin.
    apply elem_of_nil in Hin. contradiction.
  - exists (t0 ++ t2 ++ t3), (batched u3).
    split; [reflexivity|].
    split; [apply early_no_actor_update; exact Pearly|].
    split; [exact He1|]. split; [exact He2|].
    split.
    + intros id c r Hin. apply Hwrites; [exact Hin | reflexivity | reflexivity].
    + exact Hwrites.
Qed.

Lemma longRest_single_batched_update_witness :
  exists t u,
    trace_of (performLongRest ezren) = t /\
    u = {[ focus_path := 2; reagents_path := 4 ]} /\
    EvActorUpdate u false ∈ t /\
    (count_events is_actor_update t <= 1)%nat.
Proof.
  destruct (longRest_single_batched_update ezren)
    as (a' & t & msgs & u & before & after & Hrun & Hu & Ht & Hone & _ &
        Hin & _).
  exists t, u. rewrite Hrun. split; [reflexivity|].
  assert (Eu : u = {[ focus_path := 2; reagents_path := 4 ]}).
  { vm_compute in Hu. injection Hu as _ <-. vm_compute. reflexivity. }
  split; [exact Eu|]. split; [|exact Hone].
  rewrite Ht. apply elem_of_app. left. apply Hin.
  rewrite Eu. intros H.
  apply (f_equal (fun m : gmap string Z => m !! focus_path)) in H.
  vm_compute in H. discriminate.
Defined.

(** ** The hit-dice invariant *)

(** Claim C2, as stated, fails: an operation that does not write leaves a
    stored value above max where it is.  After [replenishHitDice] on
    [demoted] (level 1, max 2) the persisted value is still 5. *)
Lemma pool_invariant_counterexample :
  hd_current (exec OpReplenish demoted) = Some 5 /\
  getMaxHitDice (exec OpReplenish demoted) = 2 /\
  ~ in_range (exec OpReplenish demoted).
Proof.
  split; [reflexivity|]. split; [reflexivity|].
  vm_compute. intros [_ H]. apply H. reflexivity.
Qed.

Lemma setCurrentHitDice_run (v : Z) (a : Actor) :
  setCurrentHitDice v a =
    (Done tt, set_hd_current (Some (clamped a v)) a,
     [EvSetFlag "hit-dice-healing" "current" (inl (clamped a v))]).
Proof. reflexivity. Qed.

Lemma replenishHitDice_writes (a : Actor) :
  level (actor_of (replenishHitDice a)) = level a /\
  (hd_current (actor_of (replenishHitDice a)) = hd_current a \/
   exists v, hd_current (actor_of (replenishHitDice a)) = Some (clamped a v)).
Proof.
  destruct (replenishHitDice_cases a) as [[_ ->] | [_ ->]];
    unfold actor_of; cbn [fst snd]; split; eauto.
Qed.

(** Every operation leaves the level alone and the hit-dice flag either as
    it was or at a clamped value. *)
Lemma exec_writes (op : Op) (a : Actor) :
  op_ok op ->
  level (exec op a) = level a /\
  (hd_current (exec op a) = hd_current a \/
   exists v, hd_current (exec op a) = Some (clamped a v)).
Proof.
  intros Hok. destruct op as [v | engine n | | id l | | h]; cbn [exec].
  - rewrite setCurrentHitDice_run. unfold actor_of; cbn [fst snd]. eauto.
  - destruct (Z.lt_ge_cases (getCurrentHitDice a) n) as [Hgt | Hle];
      [| destruct (Z.lt_ge_cases n 1) as [Hlt | Hge]].
    + rewrite rollAndHeal_not_enough by exact Hgt. auto.
    + rewrite rollAndHeal_below_minimum by assumption. auto.
    + rewrite rollAndHeal_run by lia.
      unfold actor_of; cbn [fst snd]. split; [reflexivity|].
      right. eexists. reflexivity.
  - apply replenishHitDice_writes.
  - unfold restoreSpellslot. run.
    destruct (l >? getCurrentHitDice a); [auto|].
    destruct (items_get id (items a)) as [e|]; [|auto].
    destruct (slots e) as [sl|]; [|auto].
    destruct (sl !! _) as [sd|]; [|auto].
    destruct (slot_value sd >=? slot_max sd); [auto|].
    cbn [fst snd]. split; [reflexivity|]. right. eexists. reflexivity.
  - destruct (performLongRest_frame a)
      as (a' & t & -> & Hl & _ & _ & Hd & _).
    unfold actor_of at 1 2 3; cbn [fst snd].
    split; [exact Hl|]. rewrite Hd. apply replenishHitDice_writes.
  - unfold performFullRest.
    destruct h as [h|]; run.
    + destruct (Hok a) as [Hl Hd].
      destruct (replenishHitDice_cases (h a)) as [[_ ->] | [_ ->]];
        cbn [replenished].
      * destruct (_ >? 0); cbn [fst snd]; (split; [exact Hl|]);
          right; exists (getMaxHitDice (h a)); unfold clamped, getMaxHitDice;
          rewrite Hl; reflexivity.
      * cbn [fst snd Z.gtb Z.compare]. auto.
    + destruct (replenishHitDice_cases a) as [[_ ->] | [_ ->]];
        cbn [replenished].
      * destruct (_ >? 0); cbn [fst snd]; (split; [reflexivity|]);
          right; eexists; reflexivity.
      * cbn [fst snd Z.gtb Z.compare]. auto.
Qed.

Lemma exec_in_range (op : Op) (a : Actor) :
  0 <= getMaxHitDice a -> op_ok op ->
  getMaxHitDice (exec op a) = getMaxHitDice a /\
  (hd_current (exec op a) <> hd_current a -> in_range (exec op a)) /\
  (in_range a -> in_range (exec op a)).
Proof.
  intros Hmax Hok.
  destruct (exec_writes op a Hok) as [Hl Hd].
  assert (Hmx : getMaxHitDice (exec op a) = getMaxHitDice a)
    by (unfold getMaxHitDice; now rewrite Hl).
  assert (Hwritten : forall v, hd_current (exec op a) = Some (clamped a v) ->
                               in_range (exec op a)).
  { intros v Hv. unfold in_range. rewrite Hv, Hmx.
    apply clamp_bounds. exact Hmax. }
  split; [exact Hmx|]. split.
  - intros Hne. destruct Hd as [Hd | [v Hv]]; [contradiction | eauto].
  - intros Hin. destruct Hd as [Hd | [v Hv]]; [| eauto].
    unfold in_range. rewrite Hd, Hmx. exact Hin.
Qed.

(** Claim C2 (amended).  On a character with level + 1 >= 0:
    [setCurrentHitDice] always resolves, and persists the requested value
    clamped into 0 .. getMax(character), where getMax(character) = level + 1;
    every operation of the module leaves the persisted hit-dice value either
    as it was or at such a clamped value, so that 0 <= current <= level + 1
    holds after every operation that changes the value, and after every
    sequence of operations on a character whose persisted value satisfied it
    (or was absent) at the start. *)
Theorem pool_invariant (a : Actor) (ops : list Op) :
  0 <= getMaxHitDice a ->
  Forall op_ok ops ->
  getMaxHitDice a = default 1 (level a) + 1 /\
  (forall v, exists a' c,
     setCurrentHitDice v a =
       (Done tt, a', [EvSetFlag "hit-dice-healing" "current" (inl c)]) /\
     c = Z.max 0 (Z.min v (getMaxHitDice a)) /\
     hd_current a' = Some c /\
     0 <= c <= getMaxHitDice a) /\
  (forall op, op_ok op ->
     (hd_current (exec op a) = hd_current a \/
      exists v, hd_current (exec op a) = Some (clamped a v)) /\
     (hd_current (exec op a) <> hd_current a -> in_range (exec op a))) /\
  (in_range a ->
   in_range (exec_all ops a) /\
   getMaxHitDice (exec_all ops a) = getMaxHitDice a).
Proof.
  intros Hmax Hops. split; [reflexivity|]. split; [|split].
  - intros v. eexists _, _. split; [apply setCurrentHitDice_run|].
    split; [reflexivity|]. split; [reflexivity|].
    apply clamp_bounds. exact Hmax.
  - intros op Hok. split.
    + apply (exec_writes op a Hok).
    + apply (exec_in_range op a Hmax Hok).
  - revert a Hmax. induction Hops as [| op ops Hok _ IH]; intros a Hmax Hin.
    + split; [exact Hin | reflexivity].
    + destruct (exec_in_range op a Hmax Hok) as (Hmx & _ & Hpres).
      destruct (IH (exec op a)) as [Hin' Hmx'];
        [rewrite Hmx; exact Hmax | exact (Hpres Hin) |].
      cbn [exec_all fold_left]. split; [exact Hin'|].
      unfold exec_all in Hmx'. rewrite Hmx'. exact Hmx.
Qed.

Lemma pool_invariant_witness :
  in_range
    (exec_all [OpRollAndHeal (fun _ => 14) 2; OpLongRest;
               OpRestoreSpellslot "e1" 1; OpFullRest None; OpSetCurrent 99]
       ezren).
Proof.
  apply (pool_invariant ezren).
  - unfold getMaxHitDice; simpl; lia.
  - repeat constructor.
  - unfold in_range, getMaxHitDice; simpl; lia.
Defined.

(** * Further properties of the code *)

(** ** [getDieType] *)






(** ** [rollAndHeal]: range, HP cap, chat card *)

(** X3.  The range [calculateRange] displays is sound for the roll: when the
    request is accepted and the roll engine returns a total the dice allow
    (every die between 1 and the die size, plus the modifier), the healing
    [rollAndHeal] returns never exceeds the displayed max, and when the HP
    cap does not bite it is at least the displayed min. *)
Theorem healing_within_range (engine : string -> Z) (n : Z) (a : Actor) :
  1 <= n <= getCurrentHitDice a ->
  let d := dieType a in
  let c := getConModifier a in
  let total := engine (buildFormula n d c) in
  n + c * n <= total <= d * n + c * n ->
  let r := calculateRange n d c in
  exists res a' t,
    rollAndHeal engine n a = (Done (Some res), a', t) /\
    healing res <= max r /\
    (hp_value a + Z.max total n <= hp_max a ->
     min r <= healing res <= max r).
Proof.
  intros Hn d c total Htotal r. subst d c total r.
  eexists _, _, _. split; [apply rollAndHeal_run; lia|].
  unfold calculateRange. cbn [healing min max]. split; [lia|]. intros Hcap. lia.
Qed.

Lemma healing_within_range_witness :
  exists res a' t,
    rollAndHeal (fun _ => 14) 2 ezren = (Done (Some res), a', t) /\
    healing res <= 18.
Proof.
  destruct (healing_within_range (fun _ => 14) 2 ezren)
    as (res & a' & t & Hrun & Hmax & _).
  - unfold getCurrentHitDice; simpl; lia.
  - vm_compute. split; discriminate.
  - exists res, a', t. split; [exact Hrun|]. exact Hmax.
Defined.

(** X4.  HP cap.  On a character at or below max HP, an accepted
    [rollAndHeal] never lowers HP and never raises it above max: the healing
    it returns lies between 0 and the floored roll.  At full HP the healing
    is 0 and the dice are spent all the same. *)
Theorem rollAndHeal_hp_cap (engine : string -> Z) (n : Z) (a : Actor) :
  1 <= n <= getCurrentHitDice a ->
  hp_value a <= hp_max a ->
  exists res a' t,
    rollAndHeal engine n a = (Done (Some res), a', t) /\
    0 <= healing res <= Z.max (Host.roll_total (roll res)) n /\
    hp_value a <= hp_value a' <= hp_max a /\
    (hp_value a = hp_max a ->
     healing res = 0 /\ hp_value a' = hp_value a /\
     hd_current a' = Some (clamped a (getCurrentHitDice a - n))).
Proof.
  intros Hn Hhp.
  eexists _, _, _. split; [apply rollAndHeal_run; lia|].
  cbn [healing roll Host.roll_total hp_value set_hd_current set_hp_value
       hd_current].
  split; [lia|]. split; [lia|]. intros Hfull.
  split; [lia|]. split; [lia|]. reflexivity.
Qed.

Lemma rollAndHeal_hp_cap_witness :
  exists res a' t,
    rollAndHeal (fun _ => 14) 2 ezren = (Done (Some res), a', t) /\
    10 <= hp_value a' <= 40.
Proof.
  destruct (rollAndHeal_hp_cap (fun _ => 14) 2 ezren)
    as (res & a' & t & Hrun & _ & Hhp & _).
  - unfold getCurrentHitDice; simpl; lia.
  - simpl; lia.
  - exists res, a', t. split; [exact Hrun | exact Hhp].
Defined.

(** X5.  Above max HP the cap works downwards: an accepted [rollAndHeal] on
    a character whose current HP exceeds max HP writes max HP, lowering the
    HP, and returns a negative healing. *)
Theorem rollAndHeal_above_max (engine : string -> Z) (n : Z) (a : Actor) :
  1 <= n <= getCurrentHitDice a ->
  hp_max a < hp_value a ->
  exists res a' t,
    rollAndHeal engine n a = (Done (Some res), a', t) /\
    hp_value a' = hp_max a /\
    healing res = hp_max a - hp_value a /\
    healing res < 0.
Proof.
  intros Hn Hhp.
  eexists _, _, _. split; [apply rollAndHeal_run; lia|].
  cbn [healing hp_value set_hd_current set_hp_value]. lia.
Qed.

Lemma rollAndHeal_above_max_witness :
  exists res a' t,
    rollAndHeal (fun _ => 14) 1 overhealed = (Done (Some res), a', t) /\
    hp_value a' = 40 /\ healing res = -5.
Proof.
  destruct (rollAndHeal_above_max (fun _ => 14) 1 overhealed)
    as (res & a' & t & Hrun & Hhp & Hheal & _).
  - unfold getCurrentHitDice; simpl; lia.
  - simpl; lia.
  - exists res, a', t. split; [exact Hrun|]. split; assumption.
Defined.

(** X6.  The roll card reports what was committed.  On a character with
    0 <= current <= max, an accepted [rollAndHeal] posts exactly one roll
    card, as its last host call, after the roll, the HP write and the
    hit-dice write, in this order.  The card carries the rolled formula and
    total, the dice spent, the HP actually gained, the hit dice persisted
    and their max, and is marked as limited exactly when the floored roll
    did not fit under max HP. *)
Theorem rollAndHeal_card (engine : string -> Z) (n : Z) (a : Actor) :
  0 <= getCurrentHitDice a <= getMaxHitDice a ->
  1 <= n <= getCurrentHitDice a ->
  exists res a' pre card formula u v,
    rollAndHeal engine n a =
      (Done (Some res), a',
       pre ++ [EvRoll formula; EvActorUpdate u true;
               EvSetFlag "hit-dice-healing" "current" (inl v)] ++
       pre ++ [EvChatRoll card]) /\
    Forall (fun e => exists c, e = EvConsoleWarn c) pre /\
    card_formula card = formula /\
    card_rollTotal card = engine formula /\
    card_diceSpent card = n /\
    card_dieType card = dieType a /\
    card_healing card = hp_value a' - hp_value a /\
    card_healing card = healing res /\
    card_remaining card = getCurrentHitDice a' /\
    v = getCurrentHitDice a' /\
    card_maxDice card = getMaxHitDice a' /\
    (card_wasLimited card = true <->
     hp_max a < hp_value a + Z.max (engine formula) n).
Proof.
  intros Hinv Hn.
  eexists _, _, _, _, _, _, _. split; [apply rollAndHeal_run; lia|].
  cbn [card_formula card_rollTotal card_diceSpent card_dieType card_healing
       card_remaining card_maxDice card_wasLimited healing hp_value
       set_hd_current set_hp_value].
  rewrite (clamp_in_range (getCurrentHitDice a - n)) by lia.
  split.
  { unfold dieTypeDiagnostic. destruct (_ ≫= _); repeat constructor. eauto. }
  do 9 (split; [first [reflexivity | lia]|]).
  rewrite Z.gtb_ltb, Z.ltb_lt. lia.
Qed.

Lemma rollAndHeal_card_witness :
  exists res a' t card,
    rollAndHeal (fun _ => 14) 2 ezren = (Done (Some res), a', t) /\
    EvChatRoll card ∈ t /\
    card_remaining card = getCurrentHitDice a' /\
    card_healing card = healing res.
Proof.
  destruct (rollAndHeal_card (fun _ => 14) 2 ezren)
    as (res & a' & pre & card & formula & u & v & Hrun & _ & _ & _ & _ & _ &
        _ & Hheal & Hrem & _).
  - unfold getCurrentHitDice, getMaxHitDice; simpl; lia.
  - unfold getCurrentHitDice; simpl; lia.
  - eexists res, a', _, card. split; [exact Hrun|].
    split; [|split; assumption].
    rewrite !elem_of_app. right. right. right.
    apply list_elem_of_singleton. reflexivity.
Defined.

(** ** [replenishHitDice] and [rollAndHeal] together *)

(** X7.  [replenishHitDice] is idempotent: whatever the character, right
    after one call a second call writes nothing and reports 0 dice
    replenished. *)
Theorem replenishHitDice_idempotent (a : Actor) :
  let a1 := actor_of (replenishHitDice a) in
  replenishHitDice a1 = (Done (mkReplenished 0 (getMaxHitDice a)), a1, []).
Proof.
  intros a1. subst a1.
  destruct (replenishHitDice_cases a) as [[Hlt ->] | [Hge ->]];
    unfold actor_of; cbn [fst snd].
  - rewrite replenishHitDice_full; [reflexivity|].
    unfold getCurrentHitDice, clamped. cbn [hd_current set_hd_current].
    change (getMaxHitDice (set_hd_current _ a)) with (getMaxHitDice a). lia.
  - apply replenishHitDice_full. exact Hge.
Qed.

(** X8.  Spending the whole pool closes it: when the character has at least
    one hit die and spends all of them, the pool is 0 afterwards, and every
    further [rollAndHeal], whatever the dice count, is rejected with a
    warning and changes nothing. *)
Theorem rollAndHeal_spend_all (engine : string -> Z) (a : Actor) :
  1 <= getCurrentHitDice a ->
  exists res a' t,
    rollAndHeal engine (getCurrentHitDice a) a = (Done (Some res), a', t) /\
    getCurrentHitDice a' = 0 /\
    forall engine' m, exists w,
      rollAndHeal engine' m a' = (Done None, a', [EvWarn w]).
Proof.
  intros Hcur.
  eexists _, _, _. split; [apply rollAndHeal_run; lia|].
  set (a' := set_hd_current _ _).
  assert (Hzero : getCurrentHitDice a' = 0).
  { subst a'. unfold getCurrentHitDice at 1. cbn [hd_current set_hd_current].
    lia. }
  split; [exact Hzero|].
  intros engine' m.
  destruct (Z.lt_ge_cases (getCurrentHitDice a') m) as [Hgt | Hle].
  - eexists. apply rollAndHeal_not_enough. exact Hgt.
  - eexists. apply rollAndHeal_below_minimum; lia.
Qed.

Lemma rollAndHeal_spend_all_witness :
  exists res a' t,
    rollAndHeal (fun _ => 14) 2 ezren = (Done (Some res), a', t) /\
    getCurrentHitDice a' = 0.
Proof.
  destruct (rollAndHeal_spend_all (fun _ => 14) ezren)
    as (res & a' & t & Hrun & Hzero & _).
  - unfold getCurrentHitDice; simpl; lia.
  - exists res, a', t. split; [exact Hrun | exact Hzero].
Defined.

(** X9.  Spending then replenishing: on a character with
    0 <= current <= max, after an accepted [rollAndHeal] of n dice,
    [replenishHitDice] writes max and reports max - current + n dice
    replenished. *)
Theorem replenish_after_roll (engine : string -> Z) (n : Z) (a : Actor) :
  0 <= getCurrentHitDice a <= getMaxHitDice a ->
  1 <= n <= getCurrentHitDice a ->
  let a1 := actor_of (rollAndHeal engine n a) in
  exists a2,
    replenishHitDice a1 =
      (Done (mkReplenished (getMaxHitDice a - getCurrentHitDice a + n)
               (getMaxHitDice a)),
       a2,
       [EvSetFlag "hit-dice-healing" "current" (inl (getMaxHitDice a))]) /\
    getCurrentHitDice a2 = getMaxHitDice a /\
    hp_value a2 = hp_value a1.
Proof.
  intros Hinv Hn a1. subst a1.
  rewrite rollAndHeal_run by lia. unfold actor_of; cbn [fst snd].
  rewrite (clamp_in_range (getCurrentHitDice a - n)) by lia.
  set (a1 := set_hd_current _ _).
  assert (Hmx : getMaxHitDice a1 = getMaxHitDice a) by reflexivity.
  assert (Hcur : getCurrentHitDice a1 = getCurrentHitDice a - n) by reflexivity.
  eexists. split.
  - rewrite replenishHitDice_below by lia.
    rewrite Hmx, Hcur, (clamp_in_range (getMaxHitDice a)) by lia.
    replace (getMaxHitDice a - (getCurrentHitDice a - n))
      with (getMaxHitDice a - getCurrentHitDice a + n) by lia.
    reflexivity.
  - split; reflexivity.
Qed.

Lemma replenish_after_roll_witness :
  exists a2 t,
    replenishHitDice (actor_of (rollAndHeal (fun _ => 14) 2 ezren))
    = (Done (mkReplenished 6 6), a2, t) /\
    getCurrentHitDice a2 = 6.
Proof.
  destruct (replenish_after_roll (fun _ => 14) 2 ezren) as (a2 & Hrun & Hcur & _).
  - unfold getCurrentHitDice, getMaxHitDice; simpl; lia.
  - unfold getCurrentHitDice; simpl; lia.
  - eexists a2, _. split; [exact Hrun | exact Hcur].
Defined.

(** ** [restoreSpellslot]: bounds and the missing-slots edge *)

(** What is left of the character after [restoreSpellslot]: the document as
    it was, or one slot raised by one (below or at its max) and the hit-dice
    flag rewritten. *)
Lemma restoreSpellslot_cases (id : string) (L : Z) (a : Actor) :
  actor_of (restoreSpellslot id L a) = a \/
  exists e sl sd v,
    items_get id (items a) = Some e /\ slots e = Some sl /\
    sl !! ("slot" +:+ show L) = Some sd /\
    slot_value sd < slot_max sd /\
    actor_of (restoreSpellslot id L a) =
      set_hd_current (Some v)
        (set_items
           (items_alter
              (Host.apply_item_change
                 (SlotValue ("slot" +:+ show L) (slot_value sd + 1)))
              id (items a)) a).
Proof.
  unfold restoreSpellslot. run.
  destruct (L >? getCurrentHitDice a); [auto|].
  destruct (items_get id (items a)) as [e|] eqn:He; [|auto].
  destruct (slots e) as [sl|] eqn:Hsl; [|auto].
  destruct (sl !! _) as [sd|] eqn:Hsd; [|auto].
  destruct (Z.geb_spec (slot_value sd) (slot_max sd)); [auto|].
  right. exists e, sl, sd. eexists. cbn [fst snd].
  repeat split; auto.
Qed.

(** X10.  [restoreSpellslot] never overfills: if every slot of the character
    holds at most its max before the call, the same is true after it,
    whatever the entry id and the slot level. *)
Theorem restoreSpellslot_within_max (id : string) (L : Z) (a : Actor) :
  slots_within_max a ->
  slots_within_max (actor_of (restoreSpellslot id L a)).
Proof.
  intros Hok.
  destruct (restoreSpellslot_cases id L a)
    as [-> | (e & sl & sd & v & He & Hsl & Hsd & Hlt & ->)]; [exact Hok|].
  intros id' e' sl' k sd'. cbn [items set_hd_current set_items].
  destruct (decide (id = id')) as [<- | Hne].
  - rewrite items_get_alter_eq by apply apply_item_change_id.
    rewrite He. cbn [fmap option_fmap option_map Host.apply_item_change
                     slots set_slots].
    intros [= <-]. cbn [slots set_slots]. rewrite Hsl.
    cbn [fmap option_fmap option_map]. intros [= <-].
    rewrite lookup_alter.
    destruct (decide (("slot" +:+ show L) = k)) as [<- | Hk].
    + rewrite Hsd. cbn [fmap option_fmap option_map]. intros [= <-].
      cbn [slot_value slot_max]. lia.
    + intros Hk'. eapply Hok; eauto.
  - rewrite items_get_alter_ne;
      [| apply apply_item_change_id | exact Hne].
    apply Hok.
Qed.

Lemma restoreSpellslot_within_max_witness :
  slots_within_max (actor_of (restoreSpellslot "e1" 1 ezren)).
Proof.
  apply restoreSpellslot_within_max.
  intros id e sl k sd He Hsl Hk.
  cbn [items ezren items_get] in He.
  repeat match type of He with
  | (if ?b then _ else _) = _ =>
      destruct b; [injection He as <-; cbn [slots] in Hsl |]
  end; try discriminate.
  injection Hsl as <-.
  destruct (decide (k = "slot1")) as [-> | H1].
  { vm_compute in Hk. injection Hk as <-. simpl. lia. }
  destruct (decide (k = "slot2")) as [-> | H2].
  { vm_compute in Hk. injection Hk as <-. simpl. lia. }
  rewrite lookup_insert_ne, lookup_singleton_ne in Hk by congruence.
  discriminate.
Defined.

(** X11.  An id that names an item without spell slots (anything but a
    spellcasting entry) is not reported as a missing entry: once the dice
    check has passed, [restoreSpellslot] throws a [TypeError] when it reads
    the slot, before any write or notification. *)
Theorem restoreSpellslot_throws (id : string) (L : Z) (a : Actor) (e : Item) :
  L <= getCurrentHitDice a ->
  items_get id (items a) = Some e ->
  slots e = None ->
  exists msg, restoreSpellslot id L a = (Thrown (TypeError msg), a, []).
Proof.
  intros Hle He Hsl. unfold restoreSpellslot. run.
  destruct (Z.gtb_spec L (getCurrentHitDice a)); [lia|].
  rewrite He, Hsl. eexists. reflexivity.
Qed.

Lemma restoreSpellslot_throws_witness :
  exists msg, restoreSpellslot "c1" 1 ezren = (Thrown (TypeError msg), ezren, []).
Proof.
  apply (restoreSpellslot_throws "c1" 1 ezren
           (mkItem "c1" "Wizard" "class" None None false None)).
  - unfold getCurrentHitDice; simpl; lia.
  - reflexivity.
  - reflexivity.
Defined.

(** ** [getDepletedSpellslots] *)

Lemma insertByLevel_perm (x : DepletedSlot) (l : list DepletedSlot) :
  insertByLevel x l ≡ₚ x :: l.
Proof.
  induction l as [| y l IH]; simpl; [reflexivity|].
  destruct (ds_level x <=? ds_level y); [reflexivity|].
  rewrite IH. apply Permutation_swap.
Qed.

Lemma sortByLevel_perm (l : list DepletedSlot) : sortByLevel l ≡ₚ l.
Proof.
  induction l as [| x l IH]; simpl; [reflexivity|].
  rewrite insertByLevel_perm, IH. reflexivity.
Qed.

Lemma insertByLevel_sorted (x : DepletedSlot) (l : list DepletedSlot) :
  StronglySorted by_level l -> StronglySorted by_level (insertByLevel x l).
Proof.
  induction l as [| y l IH]; intros Hs; simpl.
  - repeat constructor.
  - apply StronglySorted_cons in Hs as [Hy Hs].
    destruct (Z.leb_spec (ds_level x) (ds_level y)) as [Hle | Hgt].
    + apply StronglySorted_cons. split.
      * constructor; [exact Hle|].
        eapply Forall_impl; [exact Hy|]. unfold by_level. intros z Hz. lia.
      * apply StronglySorted_cons. auto.
    + apply StronglySorted_cons. split; [|auto].
      rewrite insertByLevel_perm. constructor; [unfold by_level; lia | exact Hy].
Qed.

Lemma sortByLevel_sorted (l : list DepletedSlot) :
  StronglySorted by_level (sortByLevel l).
Proof.
  induction l as [| x l IH]; simpl; [constructor|].
  apply insertByLevel_sorted. exact IH.
Qed.

(** The sort is stable: the slots of one level keep their order. *)
Lemma insertByLevel_stable (lvl : Z) (x : DepletedSlot) (l : list DepletedSlot) :
  filter (fun ds => ds_level ds = lvl) (insertByLevel x l)
  = filter (fun ds => ds_level ds = lvl) (x :: l).
Proof.
  induction l as [| y l IH]; simpl; [reflexivity|].
  destruct (Z.leb_spec (ds_level x) (ds_level y)) as [Hle | Hgt];
    [reflexivity|].
  rewrite (filter_cons _ y), IH, !(filter_cons _ x), !(filter_cons _ y).
  destruct (decide (ds_level y = lvl)); destruct (decide (ds_level x = lvl));
    try reflexivity.
  lia.
Qed.

Lemma sortByLevel_stable (lvl : Z) (l : list DepletedSlot) :
  filter (fun ds => ds_level ds = lvl) (sortByLevel l)
  = filter (fun ds => ds_level ds = lvl) l.
Proof.
  induction l as [| x l IH]; simpl; [reflexivity|].
  rewrite insertByLevel_stable, !filter_cons, IH. reflexivity.
Qed.

(** What the two loops push for one entry. *)
Lemma elem_of_depletedOf (ds : DepletedSlot) (entry : Item) :
  ds ∈ depletedOf entry <->
  exists sl sd,
    slots entry = Some sl /\
    1 <= ds_level ds <= 10 /\
    sl !! ("slot" +:+ show (ds_level ds)) = Some sd /\
    slot_max sd <> 0 /\
    slot_value sd < slot_max sd /\
    ds = mkDepleted (item_id entry) (item_name entry) (ds_level ds)
           (slot_value sd) (slot_max sd).
Proof.
  unfold depletedOf. split.
  - destruct (slots entry) as [sl|]; [|intros H; apply elem_of_nil in H; tauto].
    intros H. apply list_elem_of_bind in H as (lvl & Hin & Hlvl).
    apply elem_of_seqZ in Hlvl. unfold depletedAt in Hin.
    destruct (sl !! _) as [sd|] eqn:Hsd; [|apply elem_of_nil in Hin; tauto].
    destruct (Z.eqb_spec (slot_max sd) 0);
      [apply elem_of_nil in Hin; tauto|].
    destruct (Z.ltb_spec (slot_value sd) (slot_max sd));
      [|apply elem_of_nil in Hin; tauto].
    apply list_elem_of_singleton in Hin. subst ds. cbn [ds_level].
    exists sl, sd. repeat split; auto; lia.
  - intros (sl & sd & -> & Hlvl & Hsd & Hmax & Hlt & Hds).
    apply list_elem_of_bind. exists (ds_level ds). split.
    + unfold depletedAt. rewrite Hsd.
      destruct (Z.eqb_spec (slot_max sd) 0); [contradiction|].
      destruct (Z.ltb_spec (slot_value sd) (slot_max sd)); [|lia].
      apply list_elem_of_singleton. exact Hds.
    + apply elem_of_seqZ. lia.
Qed.

(** What [getDepletedSpellslots] lists. *)
Lemma elem_of_getDepletedSpellslots (features : option (list Item))
    (ds : DepletedSlot) :
  ds ∈ getDepletedSpellslots features <->
  exists entries entry sl sd,
    features = Some entries /\ entry ∈ entries /\
    slots entry = Some sl /\
    1 <= ds_level ds <= 10 /\
    sl !! ("slot" +:+ show (ds_level ds)) = Some sd /\
    slot_max sd <> 0 /\
    slot_value sd < slot_max sd /\
    ds = mkDepleted (item_id entry) (item_name entry) (ds_level ds)
           (slot_value sd) (slot_max sd).
Proof.
  unfold getDepletedSpellslots. destruct features as [entries|].
  - rewrite sortByLevel_perm, list_elem_of_bind. split.
    + intros (entry & Hin & Hentry).
      apply elem_of_depletedOf in Hin as (sl & sd & H).
      exists entries, entry, sl, sd. tauto.
    + intros (entries' & entry & sl & sd & [= <-] & Hentry & H).
      exists entry. split; [|exact Hentry].
      apply elem_of_depletedOf. eauto.
  - split; [intros H; apply elem_of_nil in H; tauto|].
    intros (? & ? & ? & ? & [=] & _).
Qed.

(** X12.  [getDepletedSpellslots] lists exactly the depleted slots: for
    each entry of [spellcastingFeatures] and each level 1 to 10, the slot is
    listed if and only if it exists, its max is not 0 and its value is below
    its max, with the entry's id and name and the slot's value and max.  The
    list is in ascending level order, slots of one level keep the order of
    their entries, nothing is listed twice over or dropped by the sort, and
    a character without spellcasting gets the empty list. *)
Theorem getDepletedSpellslots_spec (features : option (list Item)) :
  let listed := getDepletedSpellslots features in
  (features = None -> listed = []) /\
  (forall ds,
     ds ∈ listed <->
     exists entries entry sl sd,
       features = Some entries /\ entry ∈ entries /\
       slots entry = Some sl /\
       1 <= ds_level ds <= 10 /\
       sl !! ("slot" +:+ show (ds_level ds)) = Some sd /\
       slot_max sd <> 0 /\
       slot_value sd < slot_max sd /\
       ds = mkDepleted (item_id entry) (item_name entry) (ds_level ds)
              (slot_value sd) (slot_max sd)) /\
  StronglySorted by_level listed /\
  (forall entries, features = Some entries ->
     listed ≡ₚ entries ≫= depletedOf /\
     forall lvl,
       filter (fun ds => ds_level ds = lvl) listed
       = filter (fun ds => ds_level ds = lvl) (entries ≫= depletedOf)).
Proof.
  intros listed. subst listed. unfold getDepletedSpellslots.
  destruct features as [entries|].
  - split; [discriminate|]. split; [|split].
    + intros ds. apply (elem_of_getDepletedSpellslots (Some entries)).
    + apply sortByLevel_sorted.
    + intros entries' [= <-]. split; [apply sortByLevel_perm|].
      intros lvl. apply sortByLevel_stable.
  - split; [reflexivity|]. split; [|split].
    + intros ds. apply (elem_of_getDepletedSpellslots None).
    + constructor.
    + intros ? [=].
Qed.

Lemma getDepletedSpellslots_spec_witness :
  getDepletedSpellslots (Some [arcane; divine]) =
    [ mkDepleted "e1" "Arcane Prepared Spells" 1 1 3;
      mkDepleted "e2" "Divine Spontaneous Spells" 1 0 2;
      mkDepleted "e1" "Arcane Prepared Spells" 3 0 1 ] /\
  StronglySorted by_level (getDepletedSpellslots (Some [arcane; divine])).
Proof.
  split; [vm_compute; reflexivity|].
  apply (getDepletedSpellslots_spec (Some [arcane; divine])).
Defined.

(** X13.  A listed slot can be restored: when the listed entries are items
    of the character, every slot [getDepletedSpellslots] lists whose level
    does not exceed the hit dice at hand (the modal's [canAfford]) is
    accepted by [restoreSpellslot], which raises it from the listed value by
    one. *)
Theorem listed_slot_restores (entries : list Item) (a : Actor)
    (ds : DepletedSlot) :
  (forall e, e ∈ entries -> items_get (item_id e) (items a) = Some e) ->
  ds ∈ getDepletedSpellslots (Some entries) ->
  ds_level ds <= getCurrentHitDice a ->
  exists a' t e' sl',
    restoreSpellslot (ds_entryId ds) (ds_level ds) a = (Done true, a', t) /\
    items_get (ds_entryId ds) (items a') = Some e' /\
    slots e' = Some sl' /\
    sl' !! ("slot" +:+ show (ds_level ds))
    = Some (mkSlot (ds_current ds + 1) (ds_max ds)).
Proof.
  intros Hitems Hin Hdice.
  apply elem_of_getDepletedSpellslots in Hin
    as (entries' & entry & sl & sd & [= <-] & Hentry & Hsl & Hlvl & Hsd &
        Hmax & Hlt & Hds).
  pose proof (Hitems entry Hentry) as He.
  assert (Hid : ds_entryId ds = item_id entry) by (rewrite Hds; reflexivity).
  assert (Hcur : ds_current ds = slot_value sd) by (rewrite Hds; reflexivity).
  assert (Hmx : ds_max ds = slot_max sd) by (rewrite Hds; reflexivity).
  rewrite Hid, Hcur, Hmx.
  eexists _, _, _, _. split;
    [exact (restoreSpellslot_run _ _ a entry sl sd Hdice He Hsl Hsd Hlt)|].
  cbn [items set_hd_current set_items].
  rewrite items_get_alter_eq by apply apply_item_change_id.
  rewrite He. cbn [fmap option_fmap option_map Host.apply_item_change
                   slots set_slots].
  rewrite Hsl. cbn [fmap option_fmap option_map].
  split; [reflexivity|]. split; [reflexivity|].
  rewrite lookup_alter_eq, Hsd. reflexivity.
Qed.

Lemma listed_slot_restores_witness :
  exists a' t,
    restoreSpellslot "e1" 1 caster = (Done true, a', t).
Proof.
  destruct (listed_slot_restores [arcane] caster
              (mkDepleted "e1" "Arcane Prepared Spells" 1 1 3))
    as (a' & t & _ & _ & Hrun & _).
  - intros e He. apply list_elem_of_singleton in He. subst e. reflexivity.
  - vm_compute. apply elem_of_cons. now left.
  - unfold getCurrentHitDice; simpl; lia.
  - exists a', t. exact Hrun.
Defined.

(** ** Long Rest, step by step: the exact effect of each step *)

Lemma set_conditions_same (s : Actor) : set_conditions (conditions s) s = s.
Proof. destruct s; reflexivity. Qed.

Lemma hasCondition_lookup (slug : string) (s : Actor) :
  Host.hasCondition slug s
  = match conditions s !! slug with Some _ => true | None => false end.
Proof.
  unfold Host.hasCondition. destruct (conditions s !! slug) eqn:E.
  - apply bool_decide_eq_true. eauto.
  - apply bool_decide_eq_false. intros [? ?]. discriminate.
Qed.

Lemma decreaseByOne_spec (slug label : string) (msgs : list Msg) (s : Actor) :
  exists c,
    decreaseByOne slug label msgs s =
      (Done (msgs ++ decay_msgs label (conditions s !! slug)),
       set_conditions c s,
       decay_events slug (conditions s !! slug)) /\
    c !! slug = decay1 (conditions s !! slug) /\
    (forall k, k <> slug -> c !! k = conditions s !! k).
Proof.
  unfold decreaseByOne. run. rewrite hasCondition_lookup.
  unfold Host.getCondition, Host.decrease.
  destruct (conditions s !! slug) as [[v|]|] eqn:E; rewrite ?E;
    cbn [value_le_1 decay_msgs decay_events decay1].
  - destruct (Z.leb_spec v 1) as [Hle | Hgt]; cbn [app].
    + eexists. split; [reflexivity|]. split.
      * apply lookup_delete_eq.
      * intros k Hk. apply lookup_delete_ne. congruence.
    + rewrite E. destruct (Z.leb_spec 1 (v - 1)); [|lia].
      eexists. split; [reflexivity|]. split.
      * apply lookup_insert_eq.
      * intros k Hk. apply lookup_insert_ne. congruence.
  - cbn [app]. eexists. split; [reflexivity|]. split.
    + apply lookup_delete_eq.
    + intros k Hk. apply lookup_delete_ne. congruence.
  - exists (conditions s). rewrite set_conditions_same, (app_nil_r msgs).
    split; [reflexivity|]. split; [exact E | reflexivity].
Qed.

(** Running a sequence whose first part is known. *)
Lemma bind_Done {A B} (m : M A) (k : A -> M B) (s s1 s2 : Actor)
    (x : A) (r : Outcome B) (t1 t2 : list Event) :
  m s = (Done x, s1, t1) -> k x s1 = (r, s2, t2) ->
  (m ≫= k) s = (r, s2, t1 ++ t2).
Proof. intros Hm Hk. unfold mbind, M_bind. rewrite Hm, Hk. reflexivity. Qed.

Lemma gets_bind_run {A B} (f : Actor -> A) (k : A -> M B) (s : Actor) :
  (gets f ≫= k) s = k (f s) s.
Proof.
  unfold mbind, M_bind, gets. destruct (k (f s) s) as [[r s2] t2]. reflexivity.
Qed.

Lemma handleRestConditions_spec (msgs : list Msg) (s : Actor) :
  exists c,
    _handleRestConditions msgs s =
      (Done (msgs ++ condition_msgs s), set_conditions c s,
       condition_events s) /\
    decayed s c.
Proof.
  unfold _handleRestConditions, condition_msgs, condition_events, decayed.
  rewrite gets_bind_run, hasCondition_lookup.
  assert (H1 : exists c1,
    (if match conditions s !! "fatigued" with Some _ => true | None => false end
     then Host.decreaseCondition "fatigued" true;;
          mret (msgs ++ [ConditionRemoved "Fatigued"])
     else mret msgs) s
    = (Done (msgs ++ fatigued_msgs s), set_conditions c1 s,
       match conditions s !! "fatigued" with
       | Some _ => [EvDecreaseCondition "fatigued" true]
       | None => []
       end) /\
    c1 !! "fatigued" = None /\
    forall k, k <> "fatigued" -> c1 !! k = conditions s !! k).
  { unfold fatigued_msgs. run.
    destruct (conditions s !! "fatigued") eqn:E.
    - eexists. split; [reflexivity|]. unfold Host.decrease. split.
      + apply lookup_delete_eq.
      + intros k Hk. apply lookup_delete_ne. congruence.
    - exists (conditions s). rewrite set_conditions_same, (app_nil_r msgs).
      auto. }
  destruct H1 as (c1 & H1 & F1 & O1).
  set (s1 := set_conditions c1 s) in *.
  destruct (decreaseByOne_spec "doomed" "Doomed" (msgs ++ fatigued_msgs s) s1)
    as (c2 & H2 & F2 & O2).
  set (s2 := set_conditions c2 s1) in *.
  assert (Ed : conditions s1 !! "doomed" = conditions s !! "doomed")
    by (apply O1; discriminate).
  rewrite Ed in H2, F2.
  destruct (decreaseByOne_spec "drained" "Drained"
              ((msgs ++ fatigued_msgs s) ++
               decay_msgs "Doomed" (conditions s !! "doomed")) s2)
    as (c3 & H3 & F3 & O3).
  set (s3 := set_conditions c3 s2) in *.
  assert (Er : conditions s2 !! "drained" = conditions s !! "drained").
  { subst s2. cbn [conditions set_conditions]. rewrite O2 by discriminate.
    apply O1. discriminate. }
  rewrite Er in H3, F3.
  assert (Hrest : forall k, k <> "fatigued" -> k <> "doomed" ->
                            k <> "drained" -> c3 !! k = conditions s !! k).
  { intros k K1 K2 K3. rewrite O3 by exact K3.
    subst s2. cbn [conditions set_conditions]. rewrite O2 by exact K2.
    apply O1. exact K1. }
  assert (Hf3 : c3 !! "fatigued" = None).
  { rewrite O3 by discriminate. subst s2. cbn [conditions set_conditions].
    rewrite O2 by discriminate. exact F1. }
  assert (Hd3 : c3 !! "doomed" = decay1 (conditions s !! "doomed")).
  { rewrite O3 by discriminate. exact F2. }
  assert (Ew : conditions s3 !! "wounded" = conditions s !! "wounded")
    by (apply Hrest; discriminate).
  rewrite (app_assoc msgs (fatigued_msgs s)),
    (app_assoc (msgs ++ fatigued_msgs s)),
    (app_assoc ((msgs ++ fatigued_msgs s) ++ _)).
  unfold wounded_msgs.
  destruct (conditions s !! "wounded") as [w|] eqn:Hw.
  - destruct (Z.geb_spec (hp_value s) (hp_max s)) as [Hge | Hlt].
    + eexists. split.
      * eapply bind_Done; [exact H1|]. eapply bind_Done; [exact H2|].
        eapply bind_Done; [exact H3|].
        rewrite gets_bind_run, hasCondition_lookup, Ew, !gets_bind_run.
        change (hp_value s3) with (hp_value s).
        change (hp_max s3) with (hp_max s).
        destruct (Z.geb_spec (hp_value s) (hp_max s)); [|lia].
        run. reflexivity.
      * unfold Host.decrease. cbn [conditions set_conditions].
        split; [rewrite lookup_delete_ne by discriminate; exact Hf3|].
        split; [rewrite lookup_delete_ne by discriminate; exact Hd3|].
        split; [rewrite lookup_delete_ne by discriminate; exact F3|].
        split; [apply lookup_delete_eq|].
        intros k K1 K2 K3 K4. rewrite lookup_delete_ne by congruence. auto.
    + exists c3. split.
      * eapply bind_Done; [exact H1|]. eapply bind_Done; [exact H2|].
        eapply bind_Done; [exact H3|].
        rewrite gets_bind_run, hasCondition_lookup, Ew, !gets_bind_run.
        change (hp_value s3) with (hp_value s).
        change (hp_max s3) with (hp_max s).
        destruct (Z.geb_spec (hp_value s) (hp_max s)); [lia|].
        reflexivity.
      * split; [exact Hf3|]. split; [exact Hd3|]. split; [exact F3|].
        split; [rewrite Hrest by discriminate; exact Hw|].
        intros k K1 K2 K3 K4. auto.
  - exists c3. split.
    + rewrite app_nil_r.
      eapply bind_Done; [exact H1|]. eapply bind_Done; [exact H2|].
      eapply bind_Done; [exact H3|].
      rewrite gets_bind_run, hasCondition_lookup, Ew. reflexivity.
    + split; [exact Hf3|]. split; [exact Hd3|]. split; [exact F3|].
      split.
      * destruct (hp_value s >=? hp_max s); exact Ew.
      * intros k K1 K2 K3 K4. auto.
Qed.

(** *** The daily refresh as a function of the items *)

Lemma set_items_same (s : Actor) : set_items (items s) s = s.
Proof. destruct s; reflexivity. Qed.

Lemma set_dailyCraftingComplete_same (s : Actor) :
  dailyCraftingComplete s = false -> set_dailyCraftingComplete false s = s.
Proof. destruct s; simpl; intros ->; reflexivity. Qed.

(** A recharge loop is a fold over the items it walks through. *)
Lemma recharge_loop_run (c : Item -> bool) (xs : list Item) (d : bool)
    (s : Actor) :
  for_each xs
    (fun x dailyRefreshed =>
       if c x then
         match frequency x with
         | Some f =>
             Host.item_update (item_id x) (FrequencyValue (freq_max f)) false;;
             mret true
         | None => mret dailyRefreshed
         end
       else mret dailyRefreshed) d s
  = (Done (d || existsb (recharges c) xs),
     set_items (fold_left (recharge_step c) xs (items s)) s,
     xs ≫= recharge_events c).
Proof.
  revert d s. induction xs as [| x xs IH]; intros d s.
  - cbn [for_each existsb fold_left]. rewrite orb_false_r, set_items_same.
    reflexivity.
  - cbn [for_each existsb fold_left].
    unfold recharges at 1, recharge_step at 2.
    change ((x :: xs) ≫= recharge_events c)
      with (recharge_events c x ++ (xs ≫= recharge_events c)).
    unfold recharge_events at 1.
    destruct (c x); [destruct (frequency x) as [f|]|]; cbn [andb orb].
    + eapply bind_Done; [reflexivity|]. cbn beta.
      rewrite IH. destruct d; reflexivity.
    + eapply bind_Done; [reflexivity|]. cbn beta.
      rewrite IH. destruct d; reflexivity.
    + eapply bind_Done; [reflexivity|]. cbn beta.
      rewrite IH. destruct d; reflexivity.
Qed.

(** The daily refresh, exactly: what it resolves to, the document it leaves
    and the host calls it makes. *)
Lemma refreshDailyResources_run (msgs : list Msg) (u : gmap string Z)
    (s : Actor) :
  _refreshDailyResources msgs u s
  = (Done (daily_messages msgs s, daily_updates u s),
     daily_state s, daily_events s).
Proof.
  unfold _refreshDailyResources, daily_events.
  rewrite gets_bind_run.
  eapply bind_Done; [apply (recharge_loop_run always)|]. cbn beta.
  fold (wands_recharged (items s)).
  set (s1 := set_items (wands_recharged (items s)) s).
  rewrite gets_bind_run.
  change (infusedReagents s1) with (infusedReagents s).
  assert (Hmu :
    match infusedReagents s with
    | Some r =>
        if res_value r <? res_max r
        then (msgs ++ [InfusedReagentsRestored],
              <["system.resources.crafting.infusedReagents.value" := res_max r]> u)
        else (msgs, u)
    | None => (msgs, u)
    end
    = (if reagents_below_max s then msgs ++ [InfusedReagentsRestored] else msgs,
       daily_updates u s)).
  { unfold reagents_below_max, daily_updates.
    destruct (infusedReagents s) as [r|]; [|reflexivity].
    destruct (res_value r <? res_max r); reflexivity. }
  rewrite Hmu. cbn iota beta.
  set (m1 := if reagents_below_max s then _ else _).
  rewrite gets_bind_run.
  change (dailyCraftingComplete s1) with (dailyCraftingComplete s).
  assert (Hdcc : exists s2,
    (if dailyCraftingComplete s
     then Host.setFlag_dailyCraftingComplete false else mret tt) s1
    = (Done tt, s2,
       if dailyCraftingComplete s
       then [EvSetFlag "pf2e" "dailyCraftingComplete" (inr false)] else []) /\
    s2 = set_dailyCraftingComplete false s1).
  { destruct (dailyCraftingComplete s) eqn:E.
    - eexists. split; reflexivity.
    - exists s1. split; [reflexivity|]. symmetry.
      apply set_dailyCraftingComplete_same. exact E. }
  destruct Hdcc as (s2 & Hdcc & Hs2).
  eapply bind_Done; [exact Hdcc|]. cbn beta.
  rewrite gets_bind_run.
  assert (Hits : items s2 = wands_recharged (items s))
    by (rewrite Hs2; reflexivity).
  rewrite Hits.
  eapply bind_Done; [apply (recharge_loop_run is_daily_below_max)|]. cbn beta.
  rewrite Hits. fold (daily_recharged (items s)).
  set (s3 := set_items (daily_recharged (items s)) s2).
  rewrite gets_bind_run.
  change (items s3) with (daily_recharged (items s)).
  fold (has_temporary (items s)).
  assert (Hstate : forall l, set_items l s3
                             = set_items l (set_dailyCraftingComplete false s)).
  { intros l. subst s3. rewrite Hs2. reflexivity. }
  assert (Hflag : false || existsb (recharges always) (filter is_wand (items s))
                  || existsb (recharges is_daily_below_max)
                       (wands_recharged (items s))
                  = daily_flag (items s)) by reflexivity.
  rewrite Hflag.
  unfold daily_messages, daily_state, daily_items. fold m1.
  fold (has_temporary (items s)).
  destruct (has_temporary (items s)) eqn:Htmp.
  - run. change (items s3) with (daily_recharged (items s)).
    rewrite Hstate. reflexivity.
  - run. subst s3. rewrite Hs2. reflexivity.
Qed.

(** *** The whole of Long Rest *)

Lemma apply_updates_pools (u : gmap string Z) (s : Actor) :
  focus (Host.apply_updates u s)
  = match u !! focus_path with
    | Some v => Host.with_value v <$> focus s
    | None => focus s
    end /\
  infusedReagents (Host.apply_updates u s)
  = match u !! reagents_path with
    | Some v => Host.with_value v <$> infusedReagents s
    | None => infusedReagents s
    end /\
  dailyCraftingComplete (Host.apply_updates u s) = dailyCraftingComplete s /\
  actor_name (Host.apply_updates u s) = actor_name s.
Proof.
  unfold Host.apply_updates, focus_path, reagents_path.
  destruct (u !! "system.attributes.hp.value");
    destruct (u !! "system.resources.focus.value");
    destruct (u !! "system.resources.crafting.infusedReagents.value");
    repeat split; reflexivity.
Qed.

Lemma apply_updates_empty (s : Actor) : Host.apply_updates ∅ s = s.
Proof. unfold Host.apply_updates. rewrite !lookup_empty. reflexivity. Qed.

Lemma batched_apply (u : gmap string Z) (s : Actor) :
  (if (0 <? size u)%nat then Host.apply_updates u s else s)
  = Host.apply_updates u s.
Proof.
  destruct (0 <? size u)%nat eqn:E; [reflexivity|].
  apply Nat.ltb_ge in E.
  assert (u = ∅) as -> by (apply map_size_empty_iff; lia).
  symmetry. apply apply_updates_empty.
Qed.

Lemma focus_stage_run (hd : Replenished) (s : Actor) :
  replenished hd = Z.max 0 (getMaxHitDice s - getCurrentHitDice s) ->
  focus_stage hd (focus s)
  = (dice_msgs s ++ focus_msgs s,
     match focus s with
     | Some f =>
         if (res_max f >? 0) && (res_value f <? res_max f)
         then {[ focus_path := res_max f ]} else ∅
     | None => ∅
     end).
Proof.
  intros Hhd. unfold focus_stage, dice_msgs, focus_msgs. rewrite Hhd.
  assert (Hd : (if Z.max 0 (getMaxHitDice s - getCurrentHitDice s) >? 0
                then [HitDiceRestored
                        (Z.max 0 (getMaxHitDice s - getCurrentHitDice s))]
                else [HitDiceAlreadyFull])
               = (if getCurrentHitDice s <? getMaxHitDice s
                  then [HitDiceRestored (getMaxHitDice s - getCurrentHitDice s)]
                  else [HitDiceAlreadyFull])).
  { destruct (Z.ltb_spec (getCurrentHitDice s) (getMaxHitDice s)).
    - rewrite Z.max_r by lia.
      destruct (Z.gtb_spec (getMaxHitDice s - getCurrentHitDice s) 0);
        [reflexivity | lia].
    - rewrite Z.max_l by lia. reflexivity. }
  rewrite Hd.
  destruct (focus s) as [f|]; [|rewrite app_nil_r; reflexivity].
  destruct (res_max f >? 0); [|rewrite app_nil_r; reflexivity].
  destruct (res_value f <? res_max f); reflexivity.
Qed.

Lemma batch_focus (a : Actor) :
  batch a !! focus_path
  = match focus a with
    | Some f =>
        if (res_max f >? 0) && (res_value f <? res_max f)
        then Some (res_max f) else None
    | None => None
    end.
Proof.
  unfold batch, daily_updates.
  assert (Hne : reagents_path <> focus_path) by discriminate.
  destruct (infusedReagents a) as [r|];
    [destruct (res_value r <? res_max r)|];
    rewrite ?(lookup_insert_ne _ _ _ _ Hne);
    (destruct (focus a) as [f|]; [|apply lookup_empty]);
    (destruct ((res_max f >? 0) && (res_value f <? res_max f));
       [apply lookup_singleton_eq | apply lookup_empty]).
Qed.

Lemma batch_reagents (a : Actor) :
  batch a !! reagents_path
  = match infusedReagents a with
    | Some r => if res_value r <? res_max r then Some (res_max r) else None
    | None => None
    end.
Proof.
  unfold batch, daily_updates.
  assert (Hne : focus_path <> reagents_path) by discriminate.
  destruct (infusedReagents a) as [r|];
    [destruct (res_value r <? res_max r); [apply lookup_insert_eq|]|];
    (destruct (focus a) as [f|]; [|apply lookup_empty]);
    (destruct ((res_max f >? 0) && (res_value f <? res_max f));
       [apply lookup_singleton_ne; exact Hne | apply lookup_empty]).
Qed.

(** Long Rest, exactly: the host calls in their order, and the character
    document field by field. *)
Lemma performLongRest_effect (a : Actor) :
  exists a',
    performLongRest a =
      (Done tt, a',
       dice_events a ++ condition_events a ++ daily_events a ++
       batched (batch a) ++ [EvChatRest LongRest (summary a)] ++ refreshed a) /\
    decayed a (conditions a') /\
    focus a' = focus_after a /\
    infusedReagents a' = reagents_after a /\
    dailyCraftingComplete a' = false /\
    items a' = daily_items (items a) /\
    hd_current a' = hd_current (actor_of (replenishHitDice a)) /\
    level a' = level a /\ hp_value a' = hp_value a /\ hp_max a' = hp_max a.
Proof.
  destruct (performLongRest_run a)
    as (hd & s0 & t0 & m1 & u1 & m2 & s2 & t2 & m3 & u3 & s3 & t3 &
        Hrep & Hf & H2 & _ & _ & _ & H3 & _ & _ & _ & _ & Hrun).
  assert (Hs0 : (s0 = a \/ exists v, s0 = set_hd_current (Some v) a) /\
                t0 = dice_events a /\
                replenished hd
                = Z.max 0 (getMaxHitDice a - getCurrentHitDice a)).
  { unfold dice_events.
    destruct (replenishHitDice_cases a) as [[Hlt H] | [Hge H]];
      rewrite H in Hrep; injection Hrep as <- <- <-; cbn [replenished].
    - destruct (Z.ltb_spec (getCurrentHitDice a) (getMaxHitDice a)); [|lia].
      split; [right; eauto|]. split; [reflexivity | lia].
    - destruct (Z.ltb_spec (getCurrentHitDice a) (getMaxHitDice a)); [lia|].
      split; [left; reflexivity|]. split; [reflexivity | lia]. }
  destruct Hs0 as (Hs0 & -> & Hhd).
  assert (Hobs : focus s0 = focus a /\ conditions s0 = conditions a /\
                 forall c, set_conditions c s0 = set_hd_current (hd_current s0)
                                                   (set_conditions c a)).
  { destruct Hs0 as [-> | [v ->]]; repeat split; intros c;
      destruct a; reflexivity. }
  destruct Hobs as (Hfoc & Hcond & Hset).
  rewrite Hfoc, (focus_stage_run hd a Hhd) in Hf. injection Hf as -> ->.
  destruct (handleRestConditions_spec (dice_msgs a ++ focus_msgs a) s0)
    as (c & Hc & Hdecay).
  rewrite Hc in H2. injection H2 as <- <- <-.
  rewrite refreshDailyResources_run in H3. injection H3 as <- <- <- <-.
  rewrite batched_apply in Hrun.
  assert (Hsame : condition_msgs s0 = condition_msgs a /\
                  condition_events s0 = condition_events a /\
                  decayed a c).
  { destruct Hs0 as [-> | [v ->]]; repeat split; apply Hdecay. }
  destruct Hsame as (Hmsgs & Hevents & Hdecay').
  rewrite Hmsgs, Hevents in Hrun.
  set (s2 := set_conditions c s0) in *.
  assert (Hs2 : daily_events s2 = daily_events a /\
                daily_messages
                  ((dice_msgs a ++ focus_msgs a) ++ condition_msgs a) s2
                = summary a /\
                daily_updates
                  match focus a with
                  | Some f =>
                      if (res_max f >? 0) && (res_value f <? res_max f)
                      then {[focus_path := res_max f]} else ∅
                  | None => ∅
                  end s2 = batch a /\
                refreshed (daily_state s2) = refreshed a /\
                focus (daily_state s2) = focus a /\
                infusedReagents (daily_state s2) = infusedReagents a /\
                hd_current s0 = hd_current (daily_state s2) /\
                level (daily_state s2) = level a /\
                hp_value (daily_state s2) = hp_value a /\
                hp_max (daily_state s2) = hp_max a /\
                items (daily_state s2) = daily_items (items a)).
  { subst s2. destruct Hs0 as [-> | [v ->]]; repeat split; reflexivity. }
  destruct Hs2 as (E1 & E2 & E3 & E4 & F & R & D & L & V & X & I).
  rewrite E1, E2, E3, E4 in Hrun.
  eexists. split; [exact Hrun|].
  destruct (apply_updates_frame (batch a) (daily_state s2))
    as (LU & XU & DU & CU & IU & _ & VU).
  destruct (apply_updates_pools (batch a) (daily_state s2))
    as (FU & RU & CCU & _).
  assert (Hhp : batch a !! hp_path = None).
  { unfold batch, daily_updates.
    assert (Hne : reagents_path <> hp_path) by discriminate.
    destruct (infusedReagents a) as [r|];
      [destruct (res_value r <? res_max r)|];
      rewrite ?(lookup_insert_ne _ _ _ _ Hne);
      (destruct (focus a) as [f|]; [|apply lookup_empty]);
      (destruct ((res_max f >? 0) && (res_value f <? res_max f));
         [apply lookup_singleton_ne; discriminate | apply lookup_empty]). }
  split; [rewrite CU; exact Hdecay'|].
  split.
  { rewrite FU, batch_focus, F. unfold focus_after.
    destruct (focus a) as [f|]; [|reflexivity].
    destruct ((res_max f >? 0) && (res_value f <? res_max f)); reflexivity. }
  split.
  { rewrite RU, batch_reagents, R. unfold reagents_after.
    destruct (infusedReagents a) as [r|]; [|reflexivity].
    destruct (res_value r <? res_max r); reflexivity. }
  split; [rewrite CCU; reflexivity|].
  split; [rewrite IU; exact I|].
  split.
  { rewrite DU, <- D, Hrep. reflexivity. }
  split; [rewrite LU; exact L|].
  split; [rewrite VU by exact Hhp; exact V|].
  rewrite XU. exact X.
Qed.

(** ** Long Rest: conditions, pools, summary, host calls *)

Lemma filter_none (p : Event -> bool) (l : list Event) :
  Forall (fun e => p e = false) l -> filter (fun e => p e) l = [].
Proof.
  induction 1 as [| e l He _ IH]; [reflexivity|].
  rewrite filter_cons, IH, He. reflexivity.
Qed.

Lemma filter_all (p : Event -> bool) (l : list Event) :
  Forall (fun e => p e = true) l -> filter (fun e => p e) l = l.
Proof.
  induction 1 as [| e l He _ IH]; [reflexivity|].
  rewrite filter_cons, IH, He. reflexivity.
Qed.

Lemma daily_events_calls (a : Actor) :
  Forall (fun e => is_daily_call e = true) (daily_events a).
Proof.
  unfold daily_events. repeat apply Forall_app_2.
  - apply Forall_forall. intros e He.
    apply list_elem_of_bind in He as (x & He & _).
    unfold recharge_events in He.
    destruct (always x); [destruct (frequency x)|];
      try (apply elem_of_nil in He; contradiction).
    apply list_elem_of_singleton in He. subst e. reflexivity.
  - destruct (dailyCraftingComplete a); repeat constructor.
  - apply Forall_forall. intros e He.
    apply list_elem_of_bind in He as (x & He & _).
    unfold recharge_events in He.
    destruct (is_daily_below_max x); [destruct (frequency x)|];
      try (apply elem_of_nil in He; contradiction).
    apply list_elem_of_singleton in He. subst e. reflexivity.
  - destruct (has_temporary (items a)); repeat constructor.
Qed.

Lemma condition_events_calls (a : Actor) :
  Forall (fun e => is_condition_call e = true) (condition_events a).
Proof.
  unfold condition_events. repeat apply Forall_app_2.
  - destruct (conditions a !! "fatigued"); repeat constructor.
  - unfold decay_events.
    destruct (conditions a !! "doomed") as [[v|]|]; repeat constructor.
  - unfold decay_events.
    destruct (conditions a !! "drained") as [[v|]|]; repeat constructor.
  - destruct (conditions a !! "wounded"); [|constructor].
    destruct (hp_value a >=? hp_max a); repeat constructor.
Qed.

(** X14.  Condition decay, whatever the character.  After Long Rest
    fatigued is gone; doomed and drained at severity 2 or more are lowered by
    one and otherwise gone; wounded is gone when current HP >= max HP and
    untouched otherwise; every other condition is untouched.  The host is
    asked to decrease exactly these conditions, in this order. *)
Theorem longRest_conditions (a : Actor) :
  exists a' t,
    performLongRest a = (Done tt, a', t) /\
    conditions a' !! "fatigued" = None /\
    (forall slug, slug = "doomed" \/ slug = "drained" ->
       (forall v, conditions a !! slug = Some (Some v) -> 2 <= v ->
                  conditions a' !! slug = Some (Some (v - 1))) /\
       (forall v, conditions a !! slug = Some (Some v) -> v <= 1 ->
                  conditions a' !! slug = None) /\
       (conditions a !! slug = Some None -> conditions a' !! slug = None) /\
       (conditions a !! slug = None -> conditions a' !! slug = None)) /\
    (hp_max a <= hp_value a -> conditions a' !! "wounded" = None) /\
    (hp_value a < hp_max a ->
     conditions a' !! "wounded" = conditions a !! "wounded") /\
    (forall k, k <> "fatigued" -> k <> "doomed" -> k <> "drained" ->
               k <> "wounded" -> conditions a' !! k = conditions a !! k) /\
    filter (fun e => is_condition_call e) t = condition_events a.
Proof.
  destruct (performLongRest_effect a)
    as (a' & Hrun & (Cf & Cd & Cr & Cw & Co) & _).
  exists a'. eexists. split; [exact Hrun|]. split; [exact Cf|].
  split.
  { assert (Hdecay : forall o c,
              c = decay1 o ->
              (forall v, o = Some (Some v) -> 2 <= v -> c = Some (Some (v - 1))) /\
              (forall v, o = Some (Some v) -> v <= 1 -> c = None) /\
              (o = Some None -> c = None) /\ (o = None -> c = None)).
    { intros o c ->. repeat split.
      - intros v -> Hv. cbn. destruct (Z.leb_spec v 1); [lia | reflexivity].
      - intros v -> Hv. cbn. destruct (Z.leb_spec v 1); [reflexivity | lia].
      - intros ->. reflexivity.
      - intros ->. reflexivity. }
    intros slug [-> | ->]; apply Hdecay; assumption. }
  split.
  { intros Hge. rewrite Cw.
    destruct (Z.geb_spec (hp_value a) (hp_max a)); [reflexivity | lia]. }
  split.
  { intros Hlt. rewrite Cw.
    destruct (Z.geb_spec (hp_value a) (hp_max a)); [lia | reflexivity]. }
  split; [exact Co|].
  rewrite !filter_app.
  rewrite (filter_none _ (dice_events a)), (filter_all _ (condition_events a)),
    (filter_none _ (daily_events a)), (filter_none _ (batched (batch a))),
    (filter_none _ [EvChatRest LongRest (summary a)]),
    (filter_none _ (refreshed a)).
  - rewrite !app_nil_r. reflexivity.
  - unfold refreshed. destruct (sheet_rendered a); repeat constructor.
  - repeat constructor.
  - unfold batched. destruct (0 <? size (batch a))%nat; repeat constructor.
  - eapply Forall_impl; [apply daily_events_calls|].
    intros [] He; try discriminate; reflexivity.
  - apply condition_events_calls.
  - unfold dice_events.
    destruct (getCurrentHitDice a <? getMaxHitDice a); repeat constructor.
Qed.

(** *** The recharge loops in closed form *)

Lemma fmap_fixed (f : Item -> Item) (l : list Item) :
  Forall (fun y => f y = y) l -> f <$> l = l.
Proof.
  induction 1 as [| y l Hy _ IH]; [reflexivity|].
  rewrite fmap_cons, Hy, IH. reflexivity.
Qed.

Lemma fmap_agree {A B} (f g : A -> B) (l : list A) :
  (forall y, y ∈ l -> f y = g y) -> f <$> l = g <$> l.
Proof.
  induction l as [| y l IH]; intros H; [reflexivity|].
  rewrite !fmap_cons, (H y), IH; [reflexivity | | left].
  intros z Hz. apply H. right. exact Hz.
Qed.

(** With unique ids, the in-place change of one item is a map. *)
Lemma items_alter_map (f : Item -> Item) (id : string) (l : list Item) :
  NoDup (item_id <$> l) ->
  items_alter f id l
  = (fun y => if String.eqb (item_id y) id then f y else y) <$> l.
Proof.
  induction l as [| i l IH]; intros Hnd; [reflexivity|].
  rewrite fmap_cons in Hnd. apply NoDup_cons in Hnd as [Hni Hnd].
  simpl. destruct (String.eqb (item_id i) id) eqn:E.
  - f_equal. apply String.eqb_eq in E. subst id.
    symmetry. apply fmap_fixed. apply Forall_forall. intros y Hy.
    destruct (String.eqb (item_id y) (item_id i)) eqn:E'; [|reflexivity].
    apply String.eqb_eq in E'. exfalso. apply Hni. rewrite <- E'.
    apply list_elem_of_fmap. exists y. split; [reflexivity | exact Hy].
  - f_equal. apply IH. exact Hnd.
Qed.

Lemma full_id (i : Item) : item_id (full i) = item_id i.
Proof. unfold full. destruct (frequency i); [apply apply_item_change_id | reflexivity]. Qed.

Lemma full_temporary (i : Item) : temporary (full i) = temporary i.
Proof. unfold full. destruct (frequency i); reflexivity. Qed.

Lemma full_type (i : Item) :
  item_type (full i) = item_type i /\ consumableType (full i) = consumableType i.
Proof. unfold full. destruct (frequency i); split; reflexivity. Qed.

Lemma full_not_below (i : Item) : is_daily_below_max (full i) = false.
Proof.
  unfold full, is_daily_below_max.
  destruct (frequency i) as [f|] eqn:E; simpl; rewrite E; simpl; [|reflexivity].
  rewrite Z.ltb_irrefl. apply andb_false_r.
Qed.

(** A recharge loop over [xs], a duplicate-free selection of the items
    [l]: every selected item that passes [c] ends full. *)
Lemma recharge_fold (c : Item -> bool) (xs l : list Item) :
  NoDup (item_id <$> xs) ->
  NoDup (item_id <$> l) ->
  (forall x y, x ∈ xs -> y ∈ l -> item_id y = item_id x -> y = x) ->
  fold_left (recharge_step c) xs l
  = (fun y =>
       if existsb (fun x => String.eqb (item_id x) (item_id y)) xs && c y
       then full y else y) <$> l.
Proof.
  revert l. induction xs as [| x xs IH]; intros l Hxs Hl Hcorr.
  { simpl. symmetry. apply fmap_fixed. apply Forall_forall. reflexivity. }
  rewrite fmap_cons in Hxs. apply NoDup_cons in Hxs as [Hx Hxs].
  set (g := fun y => if String.eqb (item_id y) (item_id x) && c y
                     then full y else y).
  assert (Hstep : recharge_step c l x = g <$> l).
  { unfold recharge_step.
    destruct (c x) eqn:Ec; [destruct (frequency x) as [f|] eqn:Ef|].
    - rewrite items_alter_map by exact Hl. apply fmap_agree.
      intros y Hy. unfold g.
      destruct (String.eqb (item_id y) (item_id x)) eqn:E; [|reflexivity].
      apply String.eqb_eq in E.
      rewrite (Hcorr x y) by (try left; assumption).
      rewrite Ec. unfold full. rewrite Ef. reflexivity.
    - symmetry. apply fmap_fixed. apply Forall_forall. intros y Hy. unfold g.
      destruct (String.eqb (item_id y) (item_id x)) eqn:E; [|reflexivity].
      apply String.eqb_eq in E.
      rewrite (Hcorr x y) by (try left; assumption).
      rewrite Ec. unfold full. rewrite Ef. reflexivity.
    - symmetry. apply fmap_fixed. apply Forall_forall. intros y Hy. unfold g.
      destruct (String.eqb (item_id y) (item_id x)) eqn:E; [|reflexivity].
      apply String.eqb_eq in E.
      rewrite (Hcorr x y) by (try left; assumption).
      rewrite Ec. reflexivity. }
  assert (Hgid : forall y, item_id (g y) = item_id y).
  { intros y. unfold g. destruct (_ && _); [apply full_id | reflexivity]. }
  cbn [fold_left]. rewrite Hstep, IH.
  - rewrite <- list_fmap_compose. apply fmap_agree. intros y Hy.
    cbn [compose existsb]. rewrite Hgid.
    destruct (String.eqb (item_id x) (item_id y)) eqn:E.
    + apply String.eqb_eq in E.
      assert (Hno : existsb (fun x0 => String.eqb (item_id x0) (item_id y)) xs
                    = false).
      { apply not_true_is_false. intros Hex.
        apply existsb_exists in Hex as (z & Hz & Hzy).
        apply String.eqb_eq in Hzy. apply Hx. rewrite E, <- Hzy.
        apply list_elem_of_fmap. exists z.
        split; [reflexivity | apply list_elem_of_In; exact Hz]. }
      rewrite Hno. cbn [orb andb]. unfold g.
      rewrite <- E, String.eqb_refl. reflexivity.
    + cbn [orb]. unfold g.
      rewrite String.eqb_sym, E. reflexivity.
  - exact Hxs.
  - rewrite <- list_fmap_compose.
    rewrite (fmap_agree (item_id ∘ g) item_id); [exact Hl|].
    intros y _. apply Hgid.
  - intros x' y' Hx' Hy' Hid.
    apply list_elem_of_fmap in Hy' as (y & -> & Hy).
    rewrite Hgid in Hid.
    assert (y = x') by (apply Hcorr; [right|..]; assumption). subst y.
    unfold g. destruct (String.eqb (item_id x') (item_id x)) eqn:E;
      [|reflexivity].
    apply String.eqb_eq in E. exfalso. apply Hx. rewrite <- E.
    apply list_elem_of_fmap. exists x'. split; [reflexivity | exact Hx'].
Qed.

Lemma same_id_unique (l : list Item) (x y : Item) :
  NoDup (item_id <$> l) -> x ∈ l -> y ∈ l -> item_id y = item_id x -> y = x.
Proof.
  induction l as [| i l IH]; intros Hnd Hx Hy Hid.
  { apply elem_of_nil in Hx. contradiction. }
  rewrite fmap_cons in Hnd. apply NoDup_cons in Hnd as [Hni Hnd].
  assert (Hin : forall z, z ∈ l -> item_id z ∈ item_id <$> l).
  { intros z Hz. apply list_elem_of_fmap. exists z. split; [reflexivity | exact Hz]. }
  apply elem_of_cons in Hx as [-> | Hx]; apply elem_of_cons in Hy as [-> | Hy].
  - reflexivity.
  - exfalso. apply Hni. rewrite <- Hid. apply Hin. exact Hy.
  - exfalso. apply Hni. rewrite Hid. apply Hin. exact Hx.
  - apply IH; assumption.
Qed.

Lemma filter_agree {A} (P Q : A -> Prop) `{!forall x, Decision (P x)}
    `{!forall x, Decision (Q x)} (l : list A) :
  (forall x, x ∈ l -> (P x <-> Q x)) -> filter P l = filter Q l.
Proof.
  induction l as [| x l IH]; intros Hall; [reflexivity|].
  rewrite !filter_cons.
  assert (Hx : P x <-> Q x) by (apply Hall; left).
  rewrite IH by (intros z Hz; apply Hall; right; exact Hz).
  destruct (decide (P x)), (decide (Q x)); tauto.
Qed.

Lemma filter_fmap_bool (p : Item -> bool) (f : Item -> Item) (l : list Item) :
  (forall y, p (f y) = p y) ->
  filter (fun i => p i) (f <$> l) = f <$> filter (fun i => p i) l.
Proof.
  intros H. induction l as [| y l IH]; [reflexivity|].
  rewrite fmap_cons, !filter_cons, H, IH.
  destruct (decide (p y)); reflexivity.
Qed.

Lemma existsb_same_id (l : list Item) (y : Item) :
  y ∈ l -> existsb (fun x => String.eqb (item_id x) (item_id y)) l = true.
Proof.
  intros Hy. apply existsb_exists. exists y.
  split; [apply list_elem_of_In; exact Hy | apply String.eqb_refl].
Qed.

(** The wand loop, with unique ids: every wand ends full. *)
Lemma wands_recharged_map (l0 : list Item) :
  NoDup (item_id <$> l0) ->
  wands_recharged l0 = (fun y => if is_wand y then full y else y) <$> l0.
Proof.
  intros Hnd. unfold wands_recharged. rewrite recharge_fold.
  - apply fmap_agree. intros y Hy. unfold always. rewrite andb_true_r.
    destruct (is_wand y) eqn:Ew.
    + rewrite existsb_same_id; [reflexivity|].
      apply list_elem_of_filter. split; [rewrite Ew; exact I | exact Hy].
    + replace (existsb _ _) with false; [reflexivity|].
      symmetry. apply not_true_is_false. intros Hex.
      apply existsb_exists in Hex as (z & Hz & Hzy).
      apply list_elem_of_In, list_elem_of_filter in Hz as [Hw Hz].
      apply String.eqb_eq in Hzy.
      assert (y = z) by (apply (same_id_unique l0); auto). subst z.
      rewrite Ew in Hw. exact Hw.
  - eapply sublist_NoDup; [exact Hnd|].
    apply fmap_sublist, sublist_filter.
  - exact Hnd.
  - intros x y Hx Hy Hid. apply list_elem_of_filter in Hx as [_ Hx].
    apply (same_id_unique l0); assumption.
Qed.

Lemma rested_id (i : Item) : item_id (rested i) = item_id i.
Proof. unfold rested. destruct (_ || _); [apply full_id | reflexivity]. Qed.

Lemma rested_temporary (i : Item) : temporary (rested i) = temporary i.
Proof. unfold rested. destruct (_ || _); [apply full_temporary | reflexivity]. Qed.

(** Both loops, with unique ids. *)
Lemma daily_recharged_map (l0 : list Item) :
  NoDup (item_id <$> l0) -> daily_recharged l0 = rested <$> l0.
Proof.
  intros Hnd. unfold daily_recharged. cbv zeta.
  rewrite (wands_recharged_map l0 Hnd).
  set (W := fun y => if is_wand y then full y else y).
  assert (HW : forall y, item_id (W y) = item_id y).
  { intros y. unfold W. destruct (is_wand y); [apply full_id | reflexivity]. }
  assert (Hnd1 : NoDup (item_id <$> (W <$> l0))).
  { rewrite <- list_fmap_compose.
    rewrite (fmap_agree (item_id ∘ W) item_id); [exact Hnd|].
    intros y _. apply HW. }
  rewrite recharge_fold.
  - rewrite <- list_fmap_compose. apply fmap_agree. intros y Hy.
    cbn [compose]. rewrite existsb_same_id
      by (apply list_elem_of_fmap; exists y; split; [reflexivity | exact Hy]).
    cbn [andb]. unfold rested, W. destruct (is_wand y); cbn [orb].
    + rewrite full_not_below. reflexivity.
    + reflexivity.
  - exact Hnd1.
  - exact Hnd1.
  - intros x y Hx Hy Hid. apply (same_id_unique (W <$> l0)); assumption.
Qed.

(** The items Long Rest leaves, with unique ids: the temporary ones are
    gone, the others are rested. *)
Lemma daily_items_map (l0 : list Item) :
  NoDup (item_id <$> l0) ->
  daily_items l0 = filter (fun i => negb (temporary i)) (rested <$> l0).
Proof.
  intros Hnd. unfold daily_items. cbv zeta.
  rewrite (daily_recharged_map l0 Hnd).
  set (l2 := rested <$> l0).
  assert (Hnd2 : NoDup (item_id <$> l2)).
  { unfold l2. rewrite <- list_fmap_compose.
    rewrite (fmap_agree (item_id ∘ rested) item_id); [exact Hnd|].
    intros y _. apply rested_id. }
  destruct (0 <? length (filter (fun i => temporary i) l2))%nat eqn:E.
  - apply filter_agree. intros y Hy. unfold temporary_ids. split.
    + intros Hn. destruct (temporary y) eqn:Et; [|exact I].
      exfalso. apply Hn. apply list_elem_of_fmap. exists y.
      split; [reflexivity|]. apply list_elem_of_filter.
      split; [rewrite Et; exact I | exact Hy].
    + intros Hnt Hin. apply list_elem_of_fmap in Hin as (z & Hid & Hz).
      apply list_elem_of_filter in Hz as [Ht Hz].
      assert (z = y) by (apply (same_id_unique l2); auto). subst z.
      destruct (temporary y); [exact Hnt | exact Ht].
  - apply Nat.ltb_ge in E.
    assert (Hnil : filter (fun i => temporary i) l2 = [])
      by (apply length_zero_iff_nil; lia).
    symmetry. clear E Hnd2. induction l2 as [| y l2' IH]; [reflexivity|].
    rewrite filter_cons in Hnil. rewrite filter_cons.
    destruct (temporary y) eqn:Et.
    + rewrite decide_True in Hnil by exact I. discriminate.
    + rewrite decide_False in Hnil by (intros []).
      rewrite decide_True by exact I. f_equal. apply IH. exact Hnil.
Qed.

(** *** The summary and the phases of the trace *)

Lemma focus_after_changed (a : Actor) :
  focus_after a <> focus a <->
  exists f, focus a = Some f /\ 0 < res_max f /\ res_value f < res_max f.
Proof.
  unfold focus_after. destruct (focus a) as [f|].
  - destruct (Z.gtb_spec (res_max f) 0), (Z.ltb_spec (res_value f) (res_max f));
      cbn [andb]; split.
    + intros _. exists f. repeat split; assumption.
    + intros _ [= Heq]. destruct f; simpl in *. injection Heq. lia.
    + intros H'; contradiction.
    + intros (f' & [= <-] & ? & ?). lia.
    + intros H'; contradiction.
    + intros (f' & [= <-] & ? & ?). lia.
    + intros H'; contradiction.
    + intros (f' & [= <-] & ? & ?). lia.
  - split; [intros H; contradiction | intros (f & [=] & _)].
Qed.

Lemma reagents_after_changed (a : Actor) :
  reagents_after a <> infusedReagents a <-> reagents_below_max a = true.
Proof.
  unfold reagents_after, reagents_below_max.
  destruct (infusedReagents a) as [r|].
  - destruct (Z.ltb_spec (res_value r) (res_max r)); split.
    + reflexivity.
    + intros _ [= Heq]. destruct r; simpl in *. injection Heq. lia.
    + intros H'; contradiction.
    + discriminate.
  - split; [intros H; contradiction | discriminate].
Qed.

(** The long-rest trace, phase by phase. *)
Lemma dice_events_calls (a : Actor) :
  Forall (fun e => is_dice_call e = true) (dice_events a) /\
  (length (dice_events a) <= 1)%nat.
Proof.
  unfold dice_events.
  destruct (getCurrentHitDice a <? getMaxHitDice a); simpl;
    split; try lia; repeat constructor.
Qed.

Lemma batched_calls (u : gmap string Z) :
  Forall (fun e => is_batch_call e = true) (batched u) /\
  (length (batched u) <= 1)%nat.
Proof.
  unfold batched. destruct (0 <? size u)%nat; simpl;
    split; try lia; repeat constructor.
Qed.

Lemma refreshed_calls (a : Actor) :
  Forall (fun e => is_render_call e = true) (refreshed a) /\
  (length (refreshed a) <= 1)%nat.
Proof.
  unfold refreshed. destruct (sheet_rendered a); simpl;
    split; try lia; repeat constructor.
Qed.

Lemma condition_events_length (a : Actor) :
  (length (condition_events a) <= 4)%nat.
Proof.
  unfold condition_events, decay_events. rewrite !length_app.
  destruct (conditions a !! "fatigued"),
    (conditions a !! "doomed") as [[?|]|],
    (conditions a !! "drained") as [[?|]|],
    (conditions a !! "wounded");
    try destruct (hp_value a >=? hp_max a); simpl; lia.
Qed.

(** Membership in the six phases, for an event of a kind [p] at most one
    of them has. *)
Lemma elem_of_phases (a : Actor) (e : Event) :
  e ∈ dice_events a ++ condition_events a ++ daily_events a ++
      batched (batch a) ++ [EvChatRest LongRest (summary a)] ++ refreshed a ->
  (is_dice_call e = true /\ e ∈ dice_events a) \/
  (is_condition_call e = true /\ e ∈ condition_events a) \/
  (is_daily_call e = true /\ e ∈ daily_events a) \/
  (is_batch_call e = true /\ e ∈ batched (batch a)) \/
  e = EvChatRest LongRest (summary a) \/
  e = EvSheetRender.
Proof.
  rewrite !elem_of_app. intros [H | [H | [H | [H | [H | H]]]]].
  - left. split; [|exact H].
    eapply (proj1 (Forall_forall _ _) (proj1 (dice_events_calls a))), H.
  - right; left. split; [|exact H].
    eapply (proj1 (Forall_forall _ _) (condition_events_calls a)), H.
  - do 2 right; left. split; [|exact H].
    eapply (proj1 (Forall_forall _ _) (daily_events_calls a)), H.
  - do 3 right; left. split; [|exact H].
    eapply (proj1 (Forall_forall _ _) (proj1 (batched_calls _))), H.
  - do 4 right; left. apply list_elem_of_singleton in H. exact H.
  - do 5 right.
    pose proof (proj1 (Forall_forall _ _) (proj1 (refreshed_calls a)) e H) as He.
    destruct e; try discriminate. reflexivity.
Qed.

(** The lines of the summary, by origin. *)
Lemma elem_of_summary (a : Actor) (m : Msg) :
  m ∈ summary a <->
  m ∈ dice_msgs a \/ m ∈ focus_msgs a \/ m ∈ condition_msgs a \/
  (reagents_below_max a = true /\ m = InfusedReagentsRestored) \/
  (has_temporary (items a) = true /\ m = TemporaryItemsExpired) \/
  (daily_flag (items a) = true /\ m = DailyResourcesReset) \/
  m = HPUnchanged \/ m = SpellSlotsUnchanged.
Proof.
  unfold summary, daily_messages. cbv zeta.
  destruct (reagents_below_max a), (has_temporary (items a)),
    (daily_flag (items a));
    rewrite ?elem_of_app, ?list_elem_of_singleton;
    intuition discriminate.
Qed.

Lemma condition_msgs_kind (a : Actor) (m : Msg) :
  m ∈ condition_msgs a ->
  (exists c, m = ConditionRemoved c) \/ (exists c, m = ConditionReduced c) \/
  (m = WoundsNotHealed /\ conditions a !! "wounded" <> None /\
   hp_value a < hp_max a).
Proof.
  unfold condition_msgs, fatigued_msgs, decay_msgs, wounded_msgs.
  rewrite !elem_of_app. intros [H | [H | [H | H]]].
  - destruct (conditions a !! "fatigued"); [|apply elem_of_nil in H; tauto].
    apply list_elem_of_singleton in H. eauto.
  - destruct (conditions a !! "doomed") as [[v|]|];
      [destruct (v <=? 1)| |apply elem_of_nil in H; tauto];
      apply list_elem_of_singleton in H; eauto.
  - destruct (conditions a !! "drained") as [[v|]|];
      [destruct (v <=? 1)| |apply elem_of_nil in H; tauto];
      apply list_elem_of_singleton in H; eauto.
  - destruct (conditions a !! "wounded"); [|apply elem_of_nil in H; tauto].
    destruct (Z.geb_spec (hp_value a) (hp_max a));
      apply list_elem_of_singleton in H; [eauto|].
    do 2 right. repeat split; [exact H | discriminate | lia].
Qed.

Lemma wounded_line (a : Actor) :
  conditions a !! "wounded" <> None -> hp_value a < hp_max a ->
  WoundsNotHealed ∈ condition_msgs a.
Proof.
  intros Hw Hlt. unfold condition_msgs, wounded_msgs.
  rewrite !elem_of_app. do 3 right.
  destruct (conditions a !! "wounded"); [|contradiction].
  destruct (Z.geb_spec (hp_value a) (hp_max a)); [lia|].
  apply list_elem_of_singleton. reflexivity.
Qed.

Lemma elem_of_dice_msgs (a : Actor) (m : Msg) :
  m ∈ dice_msgs a <->
  (getCurrentHitDice a < getMaxHitDice a /\
   m = HitDiceRestored (getMaxHitDice a - getCurrentHitDice a)) \/
  (getMaxHitDice a <= getCurrentHitDice a /\ m = HitDiceAlreadyFull).
Proof.
  unfold dice_msgs.
  destruct (Z.ltb_spec (getCurrentHitDice a) (getMaxHitDice a));
    rewrite list_elem_of_singleton; intuition lia.
Qed.

Lemma elem_of_focus_msgs (a : Actor) (m : Msg) :
  m ∈ focus_msgs a <->
  exists f, focus a = Some f /\ 0 < res_max f /\
    ((res_value f < res_max f /\ m = FocusRestored) \/
     (res_max f <= res_value f /\ m = FocusAlreadyFull)).
Proof.
  unfold focus_msgs. destruct (focus a) as [f|].
  - destruct (Z.gtb_spec (res_max f) 0);
      [destruct (Z.ltb_spec (res_value f) (res_max f))|];
      rewrite ?list_elem_of_singleton; split.
    + intros ->. exists f. intuition.
    + intros (f' & [= <-] & _ & [[_ ->] | [? _]]); [reflexivity | lia].
    + intros ->. exists f. intuition.
    + intros (f' & [= <-] & _ & [[? _] | [_ ->]]); [lia | reflexivity].
    + intros H'. apply elem_of_nil in H'. contradiction.
    + intros (f' & [= <-] & ? & _). lia.
  - split; [intros H; apply elem_of_nil in H; contradiction|].
    intros (f & [=] & _).
Qed.

Lemma existsb_recharges (c : Item -> bool) (xs : list Item) :
  existsb (recharges c) xs = true <->
  exists e, e ∈ xs ≫= recharge_events c.
Proof.
  rewrite existsb_exists. split.
  - intros (x & Hx & Hr). unfold recharges in Hr.
    apply andb_true_iff in Hr as [Hc Hf].
    destruct (frequency x) as [f|] eqn:Ef; [|discriminate].
    exists (EvItemUpdate (item_id x) (FrequencyValue (freq_max f)) false).
    apply list_elem_of_bind. exists x. split; [|apply list_elem_of_In; exact Hx].
    unfold recharge_events. rewrite Hc, Ef. left.
  - intros (e & He). apply list_elem_of_bind in He as (x & He & Hx).
    exists x. split; [apply list_elem_of_In; exact Hx|].
    unfold recharge_events in He. unfold recharges.
    destruct (c x); [|apply elem_of_nil in He; contradiction].
    destruct (frequency x); [reflexivity|].
    apply elem_of_nil in He; contradiction.
Qed.

Lemma recharge_events_kind (c : Item -> bool) (xs : list Item) (e : Event) :
  e ∈ xs ≫= recharge_events c -> is_item_call e = true.
Proof.
  intros He. apply list_elem_of_bind in He as (x & He & _).
  unfold recharge_events in He.
  destruct (c x); [destruct (frequency x)|];
    try (apply elem_of_nil in He; contradiction).
  apply list_elem_of_singleton in He. subst e. reflexivity.
Qed.

(** An item update is made exactly when [dailyRefreshed] ends true, and
    items are deleted exactly when a temporary item is found. *)
Lemma daily_events_item (a : Actor) :
  daily_flag (items a) = true <->
  exists e, is_item_call e = true /\ e ∈ daily_events a.
Proof.
  unfold daily_flag, daily_events. rewrite orb_true_iff, !existsb_recharges.
  split.
  - intros [(e & He) | (e & He)]; exists e;
      (split; [eapply recharge_events_kind; exact He|]);
      rewrite !elem_of_app; auto.
  - intros (e & Hk & He). rewrite !elem_of_app in He.
    destruct He as [He | [He | [He | He]]]; eauto.
    + destruct (dailyCraftingComplete a);
        [apply list_elem_of_singleton in He; subst e; discriminate
        |apply elem_of_nil in He; contradiction].
    + destruct (has_temporary (items a));
        [apply list_elem_of_singleton in He; subst e; discriminate
        |apply elem_of_nil in He; contradiction].
Qed.

Lemma daily_events_delete (a : Actor) :
  has_temporary (items a) = true <->
  exists e, is_delete_call e = true /\ e ∈ daily_events a.
Proof.
  unfold daily_events. split.
  - intros Ht. rewrite Ht. eexists. split; [|rewrite !elem_of_app; do 3 right; left].
    reflexivity.
  - intros (e & Hk & He). rewrite !elem_of_app in He.
    destruct He as [He | [He | [He | He]]].
    + apply recharge_events_kind in He. destruct e; discriminate.
    + destruct (dailyCraftingComplete a);
        [apply list_elem_of_singleton in He; subst e; discriminate
        |apply elem_of_nil in He; contradiction].
    + apply recharge_events_kind in He. destruct e; discriminate.
    + destruct (has_temporary (items a)); [reflexivity|].
      apply elem_of_nil in He; contradiction.
Qed.

(** X15.  The pools after Long Rest.  A focus pool with a positive max and
    a reagent pool are full afterwards unless they held more than their max
    before, in which case they are left alone; no pool loses points, no max
    changes, a missing pool stays missing, and a focus pool whose max is not
    positive is left alone.  The daily-crafting flag ends false.  The
    character is updated exactly when one of the two pools changes. *)
Theorem longRest_pools (a : Actor) :
  exists a' t,
    performLongRest a = (Done tt, a', t) /\
    (forall f, focus a = Some f ->
       exists f', focus a' = Some f' /\ res_max f' = res_max f /\
         res_value f <= res_value f' /\
         (0 < res_max f -> res_value f <= res_max f ->
          res_value f' = res_max f) /\
         (res_max f <= 0 \/ res_max f <= res_value f -> f' = f)) /\
    (focus a = None -> focus a' = None) /\
    (forall r, infusedReagents a = Some r ->
       exists r', infusedReagents a' = Some r' /\ res_max r' = res_max r /\
         res_value r <= res_value r' /\
         (res_value r <= res_max r -> res_value r' = res_max r) /\
         (res_max r <= res_value r -> r' = r)) /\
    (infusedReagents a = None -> infusedReagents a' = None) /\
    dailyCraftingComplete a' = false /\
    ((exists u rd, EvActorUpdate u rd ∈ t) <->
     focus a' <> focus a \/ infusedReagents a' <> infusedReagents a).
Proof.
  destruct (performLongRest_effect a)
    as (a' & Hrun & _ & Hf & Hr & Hd & _).
  exists a'. eexists. split; [exact Hrun|].
  split.
  { intros f Hfa. rewrite Hf. unfold focus_after. rewrite Hfa.
    destruct (Z.gtb_spec (res_max f) 0),
      (Z.ltb_spec (res_value f) (res_max f)); cbn [andb];
      eexists; (split; [reflexivity|]); simpl;
      repeat split; try lia; try reflexivity; intros; lia. }
  split.
  { intros Hfa. rewrite Hf. unfold focus_after. rewrite Hfa. reflexivity. }
  split.
  { intros r Hra. rewrite Hr. unfold reagents_after. rewrite Hra.
    destruct (Z.ltb_spec (res_value r) (res_max r));
      eexists; (split; [reflexivity|]); simpl;
      repeat split; try lia; try reflexivity; intros; lia. }
  split.
  { intros Hra. rewrite Hr. unfold reagents_after. rewrite Hra. reflexivity. }
  split; [exact Hd|].
  rewrite Hf, Hr, focus_after_changed, reagents_after_changed.
  assert (Hsize : (0 <? size (batch a))%nat = true <->
            (exists f, focus a = Some f /\ 0 < res_max f /\
                       res_value f < res_max f) \/
            reagents_below_max a = true).
  { unfold batch, daily_updates, reagents_below_max.
    destruct (focus a) as [f|], (infusedReagents a) as [r|];
      try destruct (Z.gtb_spec (res_max f) 0);
      try destruct (Z.ltb_spec (res_value f) (res_max f));
      try destruct (Z.ltb_spec (res_value r) (res_max r));
      cbn [andb];
      rewrite ?map_size_insert, ?map_size_singleton, ?map_size_empty,
        ?lookup_singleton_ne, ?lookup_empty by discriminate;
      cbn; split; try discriminate; try reflexivity;
      try (intros _; left; exists f; repeat split; assumption);
      try (intros _; right; reflexivity);
      try (intros [(f' & [= <-] & ? & ?) | ?]; (lia || discriminate));
      try (intros [(f' & [=] & _) | ?]; discriminate). }
  rewrite <- Hsize. split.
  - intros (u & rd & Hin). apply elem_of_phases in Hin.
    destruct Hin as [[Hk _] | [[Hk _] | [[Hk _] | [[_ Hin] | [Hk | Hk]]]]];
      try discriminate.
    unfold batched in Hin. destruct (0 <? size (batch a))%nat; [reflexivity|].
    apply elem_of_nil in Hin. contradiction.
  - intros Hs. exists (batch a), false. rewrite !elem_of_app.
    do 3 right; left. unfold batched. rewrite Hs. left.
Qed.

(** X16.  The summary Long Rest posts tells what happened.  The one chat
    message is of the Long Rest kind, and in it: the hit-dice line states
    max - current when the pool was below max, and "already full" otherwise;
    the focus line and the reagents line appear exactly when that pool
    changed; the wounds line appears exactly when the character is wounded
    with HP below max; the expired-items line appears exactly when items are
    deleted; the daily-resources line appears exactly when an item update is
    made. *)
Theorem longRest_summary (a : Actor) :
  exists a' t,
    performLongRest a = (Done tt, a', t) /\
    (exists msgs, EvChatRest LongRest msgs ∈ t) /\
    forall r msgs, EvChatRest r msgs ∈ t ->
      r = LongRest /\
      (forall n, HitDiceRestored n ∈ msgs <->
         getCurrentHitDice a < getMaxHitDice a /\
         n = getMaxHitDice a - getCurrentHitDice a) /\
      (HitDiceAlreadyFull ∈ msgs <-> getMaxHitDice a <= getCurrentHitDice a) /\
      (FocusRestored ∈ msgs <-> focus a' <> focus a) /\
      (InfusedReagentsRestored ∈ msgs <->
         infusedReagents a' <> infusedReagents a) /\
      (WoundsNotHealed ∈ msgs <->
         conditions a !! "wounded" <> None /\ hp_value a < hp_max a) /\
      (TemporaryItemsExpired ∈ msgs <-> exists ids, EvDeleteItems ids ∈ t) /\
      (DailyResourcesReset ∈ msgs <-> exists id c rd, EvItemUpdate id c rd ∈ t).
Proof.
  destruct (performLongRest_effect a)
    as (a' & Hrun & _ & Hf & Hr & _).
  exists a'. eexists. split; [exact Hrun|].
  split.
  { exists (summary a). rewrite !elem_of_app. do 4 right; left. left. }
  intros r msgs Hin. apply elem_of_phases in Hin.
  destruct Hin as [[Hk _] | [[Hk _] | [[Hk _] | [[Hk _] | [Hk | Hk]]]]];
    try discriminate.
  injection Hk as -> ->. split; [reflexivity|].
  assert (Hcond : forall m, m ∈ condition_msgs a ->
            m <> FocusRestored /\ m <> InfusedReagentsRestored /\
            m <> HitDiceAlreadyFull /\ m <> TemporaryItemsExpired /\
            m <> DailyResourcesReset /\ forall n, m <> HitDiceRestored n).
  { intros m Hm. apply condition_msgs_kind in Hm
      as [[c ->] | [[c ->] | [-> _]]]; repeat split; discriminate. }
  split; [|split; [|split; [|split; [|split; [|split]]]]].
  - intros n. rewrite elem_of_summary, elem_of_dice_msgs, elem_of_focus_msgs.
    split.
    + intros [[[? [= ->]] | [_ [=]]] | [(f & _ & _ & [[_ [=]] | [_ [=]]]) |
              [Hm | [[_ [=]] | [[_ [=]] | [[_ [=]] | [[=] | [=]]]]]]]].
      * split; [assumption | reflexivity].
      * apply Hcond in Hm. exfalso. apply (proj2 (proj2 (proj2 (proj2 (proj2 Hm)))) n).
        reflexivity.
    + intros [Hlt ->]. left. left. split; [exact Hlt | reflexivity].
  - rewrite elem_of_summary, elem_of_dice_msgs, elem_of_focus_msgs. split.
    + intros [[[_ [=]] | [? _]] | [(f & _ & _ & [[_ [=]] | [_ [=]]]) |
              [Hm | [[_ [=]] | [[_ [=]] | [[_ [=]] | [[=] | [=]]]]]]]].
      * assumption.
      * apply Hcond in Hm. exfalso. apply (proj1 (proj2 (proj2 Hm))).
        reflexivity.
    + intros Hge. left. right. split; [exact Hge | reflexivity].
  - rewrite Hf, focus_after_changed, elem_of_summary, elem_of_dice_msgs,
      elem_of_focus_msgs. split.
    + intros [[[_ [=]] | [_ [=]]] | [(f & Hfa & Hmax & [[Hlt _] | [_ [=]]]) |
              [Hm | [[_ [=]] | [[_ [=]] | [[_ [=]] | [[=] | [=]]]]]]]].
      * exists f. repeat split; assumption.
      * apply Hcond in Hm. exfalso. apply (proj1 Hm). reflexivity.
    + intros (f & Hfa & Hmax & Hlt). right; left. exists f.
      split; [exact Hfa|]. split; [exact Hmax|]. left. split; [exact Hlt|].
      reflexivity.
  - rewrite Hr, reagents_after_changed, elem_of_summary, elem_of_dice_msgs,
      elem_of_focus_msgs. split.
    + intros [[[_ [=]] | [_ [=]]] | [(f & _ & _ & [[_ [=]] | [_ [=]]]) |
              [Hm | [[Hb _] | [[_ [=]] | [[_ [=]] | [[=] | [=]]]]]]]].
      * apply Hcond in Hm. exfalso. apply (proj1 (proj2 Hm)). reflexivity.
      * exact Hb.
    + intros Hb. do 3 right; left. split; [exact Hb | reflexivity].
  - rewrite elem_of_summary, elem_of_dice_msgs, elem_of_focus_msgs. split.
    + intros [[[_ [=]] | [_ [=]]] | [(f & _ & _ & [[_ [=]] | [_ [=]]]) |
              [Hm | [[_ [=]] | [[_ [=]] | [[_ [=]] | [[=] | [=]]]]]]]].
      apply condition_msgs_kind in Hm
        as [[c [=]] | [[c [=]] | [_ Hw]]]. exact Hw.
    + intros [Hw Hlt]. do 2 right; left. apply wounded_line; assumption.
  - rewrite elem_of_summary, elem_of_dice_msgs, elem_of_focus_msgs. split.
    + intros [[[_ [=]] | [_ [=]]] | [(f & _ & _ & [[_ [=]] | [_ [=]]]) |
              [Hm | [[_ [=]] | [[Ht _] | [[_ [=]] | [[=] | [=]]]]]]]].
      * apply Hcond in Hm. exfalso.
        apply (proj1 (proj2 (proj2 (proj2 Hm)))). reflexivity.
      * apply daily_events_delete in Ht as (e & Hk & He).
        destruct e; try discriminate. exists ids.
        rewrite !elem_of_app. auto.
    + intros (ids & Hin). apply elem_of_phases in Hin.
      destruct Hin as [[Hk _] | [[Hk _] | [[_ Hin] | [[Hk _] | [Hk | Hk]]]]];
        try discriminate.
      do 4 right; left. split; [|reflexivity].
      apply daily_events_delete. eexists. split; [|exact Hin]. reflexivity.
  - rewrite elem_of_summary, elem_of_dice_msgs, elem_of_focus_msgs. split.
    + intros [[[_ [=]] | [_ [=]]] | [(f & _ & _ & [[_ [=]] | [_ [=]]]) |
              [Hm | [[_ [=]] | [[_ [=]] | [[Hd _] | [[=] | [=]]]]]]]].
      * apply Hcond in Hm. exfalso.
        apply (proj1 (proj2 (proj2 (proj2 (proj2 Hm))))). reflexivity.
      * apply daily_events_item in Hd as (e & Hk & He).
        destruct e; try discriminate. exists id, c, render.
        rewrite !elem_of_app. auto.
    + intros (id & c & rd & Hin). apply elem_of_phases in Hin.
      destruct Hin as [[Hk _] | [[Hk _] | [[_ Hin] | [[Hk _] | [Hk | Hk]]]]];
        try discriminate.
      do 5 right; left. split; [|reflexivity].
      apply daily_events_item. eexists. split; [|exact Hin]. reflexivity.
Qed.

(** X17.  The items after Long Rest, for a character whose items have
    distinct ids: every temporary item is gone; of the others, each wand and
    each item with a per-day frequency below its max has its frequency value
    at its max (an item without a frequency is as it was), and every other
    item is as it was; the order is kept.  The ids handed to the deletion
    are those of the temporary items. *)
Theorem longRest_items (a : Actor) :
  NoDup (item_id <$> items a) ->
  exists a' t,
    performLongRest a = (Done tt, a', t) /\
    items a' = filter (fun i => negb (temporary i)) (rested <$> items a) /\
    (forall ids, EvDeleteItems ids ∈ t ->
       ids = item_id <$> filter (fun i => temporary i) (items a)).
Proof.
  intros Hnd.
  destruct (performLongRest_effect a)
    as (a' & Hrun & _ & _ & _ & _ & Hit & _).
  exists a'. eexists. split; [exact Hrun|].
  split; [rewrite Hit; apply daily_items_map; exact Hnd|].
  intros ids Hin. apply elem_of_phases in Hin.
  destruct Hin as [[Hk _] | [[Hk _] | [[_ Hin] | [[Hk _] | [Hk | Hk]]]]];
    try discriminate.
  unfold daily_events in Hin. rewrite !elem_of_app in Hin.
  destruct Hin as [Hin | [Hin | [Hin | Hin]]].
  - apply recharge_events_kind in Hin. discriminate.
  - destruct (dailyCraftingComplete a);
      [apply list_elem_of_singleton in Hin; discriminate
      |apply elem_of_nil in Hin; contradiction].
  - apply recharge_events_kind in Hin. discriminate.
  - destruct (has_temporary (items a));
      [|apply elem_of_nil in Hin; contradiction].
    apply list_elem_of_singleton in Hin. injection Hin as ->.
    rewrite (daily_recharged_map _ Hnd). unfold temporary_ids.
    rewrite (filter_fmap_bool temporary rested) by apply rested_temporary.
    rewrite <- list_fmap_compose. apply fmap_agree.
    intros y _. apply rested_id.
Qed.

Lemma longRest_items_witness :
  exists a' t,
    performLongRest ezren = (Done tt, a', t) /\
    items a' = filter (fun i => negb (temporary i)) (rested <$> items ezren) /\
    (forall ids, EvDeleteItems ids ∈ t ->
       ids = item_id <$> filter (fun i => temporary i) (items ezren)).
Proof.
  apply (longRest_items ezren).
  apply (bool_decide_unpack _). vm_compute. reflexivity.
Defined.

(** X18.  What Long Rest asks of the host, in order: at most one write of
    the hit-dice flag; then at most four condition decreases; then the calls
    of the daily refresh (item updates of a frequency value without
    re-rendering, the daily-crafting flag, one deletion); then at most one
    update of the character, without re-rendering; then the one summary;
    then at most one re-rendering of the sheet.  Long Rest never rolls,
    never notifies, never calls the host's own rest and never throws. *)
Theorem longRest_calls (a : Actor) :
  exists a' dice conds daily upd msgs sheet,
    performLongRest a =
      (Done tt, a',
       dice ++ conds ++ daily ++ upd ++ [EvChatRest LongRest msgs] ++ sheet) /\
    Forall (fun e => is_dice_call e = true) dice /\
    (length dice <= 1)%nat /\
    Forall (fun e => is_condition_call e = true) conds /\
    (length conds <= 4)%nat /\
    Forall (fun e => is_daily_call e = true) daily /\
    Forall (fun e => is_batch_call e = true) upd /\
    (length upd <= 1)%nat /\
    Forall (fun e => is_render_call e = true) sheet /\
    (length sheet <= 1)%nat.
Proof.
  destruct (performLongRest_effect a) as (a' & Hrun & _).
  exists a', (dice_events a), (condition_events a), (daily_events a),
    (batched (batch a)), (summary a), (refreshed a).
  split; [exact Hrun|].
  split; [apply dice_events_calls|]. split; [apply dice_events_calls|].
  split; [apply condition_events_calls|].
  split; [apply condition_events_length|].
  split; [apply daily_events_calls|].
  split; [apply batched_calls|]. split; [apply batched_calls|].
  split; [apply refreshed_calls | apply refreshed_calls].
Qed.

(** X19.  Full Rest when the host provides its rest procedure: the host's
    procedure is called first and once; the hit dice are then replenished
    on the character as the host left it (its level included), so that the
    pool ends at no less than its max; nothing else of the character is
    touched; the notification with the count is shown exactly when the pool
    the host left was below max; and Full Rest posts no summary, warns of
    nothing and never throws. *)
Theorem fullRest_with_host_procedure (rest : Actor -> Actor) (a : Actor) :
  exists a' t,
    performFullRest (Some rest) a = (Done tt, a', EvRestForTheNight :: t) /\
    (EvRestForTheNight ∉ t) /\
    (a' = rest a \/
     a' = set_hd_current
            (Some (Z.max 0 (getMaxHitDice (rest a)))) (rest a)) /\
    getMaxHitDice a' = getMaxHitDice (rest a) /\
    getMaxHitDice a' <= getCurrentHitDice a' /\
    (forall n, EvInfo n ∈ t <->
       getCurrentHitDice (rest a) < getMaxHitDice (rest a) /\
       n = HitDiceRestoredFor (actor_name (rest a))
             (getMaxHitDice (rest a) - getCurrentHitDice (rest a))) /\
    (forall r m, EvChatRest r m ∉ t) /\
    (forall n, (EvWarn n ∉ t) /\ (EvError n ∉ t)).
Proof.
  unfold performFullRest. run.
  destruct (replenishHitDice_cases (rest a)) as [[Hlt ->] | [Hge ->]].
  - cbn [replenished].
    destruct (Z.gtb_spec
                (getMaxHitDice (rest a) - getCurrentHitDice (rest a)) 0);
      [|lia].
    simpl. eexists _, _. split; [reflexivity|].
    assert (Hcl : clamped (rest a) (getMaxHitDice (rest a))
                  = Z.max 0 (getMaxHitDice (rest a)))
      by (unfold clamped; lia).
    rewrite Hcl.
    split; [rewrite list_elem_of_In; simpl; intuition discriminate|].
    split; [right; reflexivity|].
    split; [reflexivity|].
    split; [unfold getCurrentHitDice, getMaxHitDice; simpl; lia|].
    split; [|split].
    + intros n. rewrite list_elem_of_In. simpl. split.
      * intros [[=] | [[= <-] | []]]. split; [exact Hlt | reflexivity].
      * intros [_ ->]. right; left. reflexivity.
    + intros r m. rewrite list_elem_of_In. simpl. intuition discriminate.
    + intros n; split; rewrite list_elem_of_In; simpl; intuition discriminate.
  - simpl. eexists _, _. split; [reflexivity|].
    split; [apply not_elem_of_nil|].
    split; [left; reflexivity|].
    split; [reflexivity|].
    split; [lia|].
    split; [|split].
    + intros n. split; [intros H; apply elem_of_nil in H; contradiction|].
      intros [Hlt _]. lia.
    + intros r m. apply not_elem_of_nil.
    + intros n; split; apply not_elem_of_nil.
Qed.

(** ** The modal *)

Lemma prepareContext_run (features : option (list Item)) (this : Modal)
    (a : Actor) :
  exists ctx,
    _prepareContext features this a
    = (Done (clampDice this a, ctx), a, dieTypeDiagnostic a) /\
    ctx_current ctx = getCurrentHitDice a /\
    ctx_diceToRoll ctx = diceToRoll (clampDice this a) /\
    ctx_formula ctx
    = buildFormula (diceToRoll (clampDice this a)) (dieType a)
        (getConModifier a) /\
    canRoll ctx = (getCurrentHitDice a >? 0) /\
    depletedSlots ctx
    = (if isSpellcaster features
       then (fun slot => mkListed slot (getCurrentHitDice a >=? ds_level slot))
              <$> getDepletedSpellslots features
       else []) /\
    healingTabActive ctx
    = String.eqb (if isSpellcaster features then _activeTab this
                  else "healing") "healing" /\
    spellsTabActive ctx
    = String.eqb (if isSpellcaster features then _activeTab this
                  else "healing") "spells".
Proof.
  unfold _prepareContext. run. rewrite getDieType_run. cbn [fst snd].
  rewrite app_nil_r. fold (clampDice this a).
  assert (Htab : _activeTab (clampDice this a) = _activeTab this).
  { unfold clampDice. destruct (_ >? _); reflexivity. }
  rewrite Htab. eexists. split; [reflexivity|]. repeat split.
Qed.

Lemma clampDice_bounds (this : Modal) (a : Actor) :
  1 <= diceToRoll this ->
  1 <= diceToRoll (clampDice this a) <= Z.max 1 (getCurrentHitDice a) /\
  _activeTab (clampDice this a) = _activeTab this.
Proof.
  intros Hd. unfold clampDice.
  destruct (Z.gtb_spec (diceToRoll this) (getCurrentHitDice a)); simpl;
    split; try reflexivity; lia.
Qed.

Lemma onRoll_run (engine : string -> Z) (this : Modal) (a : Actor) :
  (exists a' t,
     onRoll engine this a = (Done (mkModal 1 (_activeTab this), true), a', t) /\
     1 <= diceToRoll this <= getCurrentHitDice a /\
     rollAndHeal engine (diceToRoll this) a
     = (Done (Some (mkHealed
          (Host.mkRoll
             (engine (buildFormula (diceToRoll this) (dieType a)
                        (getConModifier a)))
             (buildFormula (diceToRoll this) (dieType a) (getConModifier a)))
          (Z.min (hp_value a +
                  Z.max (engine (buildFormula (diceToRoll this) (dieType a)
                                   (getConModifier a))) (diceToRoll this))
                 (hp_max a) - hp_value a))), a', t)) \/
  (exists w,
     onRoll engine this a = (Done (this, false), a, [EvWarn w]) /\
     (diceToRoll this < 1 \/ getCurrentHitDice a < diceToRoll this)).
Proof.
  destruct (Z.lt_ge_cases (getCurrentHitDice a) (diceToRoll this)) as [Hgt | Hle].
  { right. exists (NotEnoughDiceNamed (actor_name a)).
    split; [|right; exact Hgt].
    unfold onRoll.
    change [EvWarn (NotEnoughDiceNamed (actor_name a))]
      with ([EvWarn (NotEnoughDiceNamed (actor_name a))] ++ []).
    eapply bind_Done; [apply rollAndHeal_not_enough; exact Hgt|].
    reflexivity. }
  destruct (Z.lt_ge_cases (diceToRoll this) 1) as [Hlt | Hge].
  { right. exists MinimumOneDie. split; [|left; exact Hlt].
    unfold onRoll. change [EvWarn MinimumOneDie] with ([EvWarn MinimumOneDie] ++ []).
    eapply bind_Done; [apply rollAndHeal_below_minimum; assumption|].
    reflexivity. }
  left. pose proof (rollAndHeal_run engine _ a Hle Hge) as Hrun.
  cbv zeta in Hrun. eexists _, _. split; [|split; [lia | exact Hrun]].
  unfold onRoll. rewrite <- (app_nil_r (_ ++ _)).
  eapply bind_Done; [exact Hrun|]. reflexivity.
Qed.

Lemma act_ok (engine : string -> Z) (features : option (list Item))
    (st : Modal * Actor) (x : Action) :
  modal_ok (fst st) -> modal_ok (fst (act engine features st x)).
Proof.
  destruct st as [this a]. intros [Hd Htab]. cbn [fst] in *.
  destruct x; cbn [act].
  - unfold onIncrement. run.
    destruct (Z.ltb_spec (diceToRoll this) (getCurrentHitDice a));
      split; simpl; try assumption; lia.
  - unfold onDecrement.
    destruct (Z.gtb_spec (diceToRoll this) 1);
      split; simpl; try assumption; lia.
  - destruct (onRoll_run engine this a)
      as [(a' & t & -> & _) | (w & -> & _)];
      split; simpl; try assumption; lia.
  - unfold onSwitchTab. destruct tab as [tab|]; [|split; assumption].
    destruct (negb (String.eqb tab "")); cbn [andb]; [|split; assumption].
    destruct (bool_decide_reflect (tab ∈ ["healing"; "spells"])) as [Hin|];
      [|split; assumption].
    split; [exact Hd|]. simpl.
    apply elem_of_cons in Hin as [-> | Hin]; [left; reflexivity|].
    apply list_elem_of_singleton in Hin. right. exact Hin.
  - destruct (prepareContext_run features this a) as (ctx & -> & _).
    cbn [settle fst].
    destruct (clampDice_bounds this a Hd) as [Hb Ht].
    split; [lia | rewrite Ht; exact Htab].
Qed.

(** X20.  The modal keeps its fields sound.  Whatever the user clicks
    (increment, decrement, roll, tabs with any [data-tab]) and whenever the
    host renders, from the constructor on: [diceToRoll] stays at 1 or more
    and [_activeTab] stays one of the two tabs.  A render leaves the
    character alone and brings [diceToRoll] within the pool, or to 1 when
    the pool is empty. *)
Theorem modal_invariant (engine : string -> Z) (features : option (list Item))
    (actions : list Action) (a : Actor) :
  let st := fold_left (act engine features) actions (constructor, a) in
  let st' := act engine features st Render in
  modal_ok (fst st) /\
  snd st' = snd st /\
  1 <= diceToRoll (fst st') <= Z.max 1 (getCurrentHitDice (snd st)) /\
  _activeTab (fst st') = _activeTab (fst st).
Proof.
  cbv zeta.
  assert (Hok : forall st,
            modal_ok (fst st) ->
            modal_ok (fst (fold_left (act engine features) actions st))).
  { induction actions as [| x actions IH]; intros st Hst; [exact Hst|].
    cbn [fold_left]. apply IH. apply act_ok. exact Hst. }
  specialize (Hok (constructor, a)).
  destruct (fold_left (act engine features) actions (constructor, a))
    as [this a'].
  cbn [fst snd] in *.
  assert (Hthis : modal_ok this) by (apply Hok; split; [simpl; lia | left; reflexivity]).
  split; [exact Hthis|].
  cbn [act]. destruct (prepareContext_run features this a') as (ctx & -> & _).
  cbn [settle fst snd]. split; [reflexivity|].
  destruct Hthis as [Hd _]. apply clampDice_bounds. exact Hd.
Qed.

(** X21.  What the modal shows is what the roll does.  On a modal whose
    [diceToRoll] is at least 1 and a character with at least one hit die,
    the rendered context enables the roll button and shows a dice count
    within the pool; a click on it is then never refused: the roll engine is
    asked the formula the context shows, the pool is written with the shown
    count taken off, no warning is raised, [diceToRoll] is reset to 1 and a
    render is requested. *)
Theorem modal_roll_accepted (engine : string -> Z)
    (features : option (list Item)) (this : Modal) (a : Actor) :
  1 <= diceToRoll this ->
  0 < getCurrentHitDice a ->
  exists this' ctx t a' t',
    _prepareContext features this a = (Done (this', ctx), a, t) /\
    canRoll ctx = true /\
    1 <= ctx_diceToRoll ctx <= ctx_current ctx /\
    onRoll engine this' a
    = (Done (mkModal 1 (_activeTab this), true), a', t') /\
    EvRoll (ctx_formula ctx) ∈ t' /\
    (forall n, EvWarn n ∉ t') /\
    hd_current a'
    = Some (clamped a (ctx_current ctx - ctx_diceToRoll ctx)).
Proof.
  intros Hd Hcur.
  destruct (prepareContext_run features this a)
    as (ctx & Hctx & Hc & Hn & Hf & Hroll & _).
  destruct (clampDice_bounds this a Hd) as [Hb Ht].
  assert (Hle : diceToRoll (clampDice this a) <= getCurrentHitDice a) by lia.
  pose proof (rollAndHeal_run engine _ a Hle (proj1 Hb)) as Hrun.
  cbv zeta in Hrun.
  eexists _, ctx, _, _, _. split; [exact Hctx|].
  split; [rewrite Hroll; apply Z.gtb_lt; lia|].
  split; [rewrite Hn, Hc; lia|].
  split.
  { unfold onRoll. rewrite <- Ht.
    eapply bind_Done; [exact Hrun|]. reflexivity. }
  rewrite Hf, Hc, Hn, app_nil_r.
  split; [|split].
  - rewrite !elem_of_app. right; left. left.
  - intros n Hin. rewrite !elem_of_app in Hin.
    assert (Hdiag : EvWarn n ∉ dieTypeDiagnostic a).
    { unfold dieTypeDiagnostic. case_match; [apply not_elem_of_nil|].
      intros H'. apply list_elem_of_singleton in H'. discriminate. }
    destruct Hin as [Hin | [Hin | [Hin | Hin]]]; try (apply Hdiag; exact Hin).
    + rewrite list_elem_of_In in Hin. simpl in Hin. intuition discriminate.
    + apply list_elem_of_singleton in Hin. discriminate.
  - reflexivity.
Qed.

Lemma modal_roll_accepted_witness :
  exists this' ctx t a' t',
    _prepareContext None (mkModal 5 "healing") ezren
    = (Done (this', ctx), ezren, t) /\
    ctx_diceToRoll ctx = 2 /\
    onRoll (fun _ => 7) this' ezren
    = (Done (mkModal 1 "healing", true), a', t') /\
    hd_current a' = Some 0.
Proof.
  destruct (modal_roll_accepted (fun _ => 7) None (mkModal 5 "healing") ezren)
    as (this' & ctx & t & a' & t' & Hctx & _ & _ & Hroll & _ & _ & Hhd).
  - simpl. lia.
  - vm_compute. reflexivity.
  - exists this', ctx, t, a', t'. split; [exact Hctx|].
    pose proof Hctx as Hctx'. vm_compute in Hctx'.
    injection Hctx' as <- <- <-.
    split; [reflexivity|]. split; [exact Hroll|]. rewrite Hhd. reflexivity.
Defined.

(** X22.  Rendering twice shows the same thing: [_prepareContext] never
    changes the character, never throws, calls the host for nothing but the
    diagnostic of an unknown class, and run again on the modal it left gives
    the same modal and the same context. *)
Theorem prepareContext_idempotent (features : option (list Item))
    (this : Modal) (a : Actor) :
  exists this' ctx t,
    _prepareContext features this a = (Done (this', ctx), a, t) /\
    _prepareContext features this' a = (Done (this', ctx), a, t) /\
    Forall (fun e => exists cn, e = EvConsoleWarn cn) t.
Proof.
  assert (Hidem : clampDice (clampDice this a) a = clampDice this a).
  { unfold clampDice.
    destruct (Z.gtb_spec (diceToRoll this) (getCurrentHitDice a)) as [Hgt | Hle];
      cbn [diceToRoll _activeTab].
    - destruct (Z.gtb_spec (Z.max 1 (getCurrentHitDice a))
                  (getCurrentHitDice a)); [|reflexivity].
      f_equal.
    - destruct (Z.gtb_spec (diceToRoll this) (getCurrentHitDice a));
        [lia | reflexivity]. }
  unfold _prepareContext. run. rewrite getDieType_run. cbn [fst snd].
  rewrite app_nil_r. fold (clampDice this a).
  eexists _, _, _. split; [reflexivity|].
  fold (clampDice (clampDice this a) a). rewrite Hidem.
  assert (Htab : _activeTab (clampDice this a) = _activeTab this).
  { unfold clampDice. destruct (_ >? _); reflexivity. }
  split.
  - reflexivity.
  - unfold dieTypeDiagnostic. case_match; repeat constructor.
    eexists. reflexivity.
Qed.

Lemma restoreSpellslot_not_enough (id : string) (L : Z) (a : Actor) :
  getCurrentHitDice a < L ->
  restoreSpellslot id L a
  = (Done false, a, [EvWarn (NotEnoughDiceForSlot L (getCurrentHitDice a))]).
Proof.
  intros Hlt. unfold restoreSpellslot. run.
  destruct (Z.gtb_spec L (getCurrentHitDice a)); [reflexivity | lia].
Qed.

(** X23.  The slots the modal shows.  When the spellcasting entries are
    items of the character, the rendered context lists exactly the depleted
    slots of [getDepletedSpellslots], in its order, and [canAfford] tells
    what a click will do: a slot shown as affordable is restored by
    [restoreSpellslot], and one shown as not affordable is refused with the
    not-enough-dice warning, the character unchanged. *)
Theorem shown_slots_affordable (entries : list Item) (this : Modal)
    (a : Actor) :
  (forall e, e ∈ entries -> items_get (item_id e) (items a) = Some e) ->
  exists this' ctx t,
    _prepareContext (Some entries) this a = (Done (this', ctx), a, t) /\
    slot <$> depletedSlots ctx = getDepletedSpellslots (Some entries) /\
    forall ls, ls ∈ depletedSlots ctx ->
      (canAfford ls = true ->
       exists a' t',
         restoreSpellslot (ds_entryId (slot ls)) (ds_level (slot ls)) a
         = (Done true, a', t')) /\
      (canAfford ls = false ->
       restoreSpellslot (ds_entryId (slot ls)) (ds_level (slot ls)) a
       = (Done false, a,
          [EvWarn (NotEnoughDiceForSlot (ds_level (slot ls))
                     (getCurrentHitDice a))])).
Proof.
  intros Hitems.
  destruct (prepareContext_run (Some entries) this a)
    as (ctx & Hctx & _ & _ & _ & _ & Hslots & _).
  eexists _, ctx, _. split; [exact Hctx|].
  assert (Hlisted : depletedSlots ctx
            = (fun slot => mkListed slot (getCurrentHitDice a >=? ds_level slot))
                <$> getDepletedSpellslots (Some entries)).
  { rewrite Hslots. unfold isSpellcaster.
    destruct entries as [| e entries]; reflexivity. }
  rewrite Hlisted. split.
  { rewrite <- list_fmap_compose. apply list_fmap_id. }
  intros ls Hls. apply list_elem_of_fmap in Hls as (ds & -> & Hds).
  cbn [slot canAfford].
  destruct (Z.geb_spec (getCurrentHitDice a) (ds_level ds)) as [Hge | Hlt].
  - split; [|discriminate]. intros _.
    apply elem_of_getDepletedSpellslots in Hds
      as (entries' & entry & sl & sd & [= <-] & Hentry & Hsl & _ & Hsd &
          _ & Hlt & Hds).
    assert (Hid : ds_entryId ds = item_id entry) by (rewrite Hds; reflexivity).
    rewrite Hid. eexists _, _.
    apply (restoreSpellslot_run _ _ a entry sl sd); auto with lia.
  - split; [discriminate|]. intros _.
    apply restoreSpellslot_not_enough. exact Hlt.
Qed.

Lemma shown_slots_affordable_witness :
  exists this' ctx t,
    _prepareContext (Some [arcane]) constructor caster
    = (Done (this', ctx), caster, t) /\
    depletedSlots ctx
    = [ mkListed (mkDepleted "e1" "Arcane Prepared Spells" 1 1 3) true;
        mkListed (mkDepleted "e1" "Arcane Prepared Spells" 3 0 1) false ].
Proof.
  destruct (shown_slots_affordable [arcane] constructor caster)
    as (this' & ctx & t & Hctx & _).
  - intros e He. apply list_elem_of_singleton in He. subst e. reflexivity.
  - exists this', ctx, t. split; [exact Hctx|].
    pose proof Hctx as Hctx'. vm_compute in Hctx'.
    injection Hctx' as <- <- <-. vm_compute. reflexivity.
Defined.
